(** * examples/mnist/train.py: the MNIST training script

    A shallow embedding of the script [examples/mnist/train.py] and the
    properties of it that the specification states.

    The development has five parts:
    - [Script]: the top-level statements of the module, the names each one
      binds and reads, and Python's load-and-run discipline over them;
    - scalar arithmetic as an interface ([Scalar]) with the IEEE-754 binary32
      instance ([Float32]) that the script's [jnp.float32] arrays live in;
    - the pure array functions of the script ([onehot], [cross_entropy_loss],
      [shard], [device_get_first], [pmean], [compute_metrics]), with numpy's
      broadcasting and the exceptions it raises;
    - the framework the script calls into, as an interface ([Framework]),
      and the training functions on top of it ([train_step], [eval_step],
      [train_epoch], [eval_model], [train]) in a monad with the generator
      state, the emitted events and Python exceptions;
    - a small executable framework instance ([Toy]) on which the functions
      are run on concrete inputs. *)

From Stdlib Require Import String ZArith List Bool Lia Permutation.
From Stdlib Require Import SpecFloat.
Import ListNotations.

Local Open Scope Z_scope.

(* ===================================================================== *)
(** * The module's top-level statements and name resolution              *)
(* ===================================================================== *)

Module Script.

(** A top-level statement, reduced to what matters for loading the
    module: the global name it binds and the global names it reads.
    Names read inside a function body are read when the function is
    called, names in a decorator, a base-class list or a top-level
    expression are read when the statement is executed. *)
Inductive stmt :=
| Import (module_name : string) (bound : string)
| FromImport (module_name : string) (name : string)
| Assign (target : string) (reads : list string)
| ExprStmt (reads : list string)
| Def (name : string) (decorators : list string) (body : list string)
| ClassDef (name : string) (bases : list string) (body : list string)
| IfMain (reads : list string).

Inductive outcome :=
| Finished
| SyntaxError (line : nat)
| NameError (line : nat) (name : string).

(** The grammar wants a dotted name after [import]. *)
Definition well_formed (s : stmt) : bool :=
  match s with
  | Import m _ => negb (String.eqb m "")
  | _ => true
  end.

Definition mem (x : string) (env : list string) : bool :=
  existsb (String.eqb x) env.

Fixpoint first_unbound (env : list string) (names : list string) : option string :=
  match names with
  | [] => None
  | x :: rest => if mem x env then first_unbound env rest else Some x
  end.

(** Names read while the statement itself is executed. *)
Definition reads_now (s : stmt) : list string :=
  match s with
  | Import _ _ | FromImport _ _ => []
  | Assign _ r | ExprStmt r | IfMain r => r
  | Def _ d _ => d
  | ClassDef _ b _ => b
  end.

(** Names read once the functions run. *)
Definition reads_when_called (s : stmt) : list string :=
  match s with
  | Def _ _ b | ClassDef _ _ b => b
  | _ => []
  end.

Definition binds (s : stmt) : list string :=
  match s with
  | Import _ b => [b]
  | FromImport _ n => [n]
  | Assign t _ => [t]
  | Def n _ _ | ClassDef n _ _ => [n]
  | ExprStmt _ | IfMain _ => []
  end.

Definition source := list (nat * stmt).

(** The compiler reads the whole file before anything runs. *)
Fixpoint compile (src : source) : outcome :=
  match src with
  | [] => Finished
  | (ln, s) :: rest => if well_formed s then compile rest else SyntaxError ln
  end.

(** Every function of this script is reached from [main], so when
    [app.run(main)] is executed each body's global names are looked up
    in the globals bound by then. *)
Fixpoint call_all (env : list string) (defs : source) : outcome :=
  match defs with
  | [] => Finished
  | (ln, s) :: rest =>
      match first_unbound env (reads_when_called s) with
      | Some x => NameError ln x
      | None => call_all env rest
      end
  end.

Fixpoint exec (env : list string) (done : source) (src : source) : outcome :=
  match src with
  | [] => Finished
  | (ln, s) :: rest =>
      match first_unbound env (reads_now s) with
      | Some x => NameError ln x
      | None =>
          match s with
          | IfMain _ =>
              match call_all env (rev done) with
              | Finished => exec env done rest
              | err => err
              end
          | _ => exec (binds s ++ env) ((ln, s) :: done) rest
          end
      end
  end.

Definition builtins : list string :=
  ["__name__"; "len"; "range"; "ValueError"]%string.

Definition run (src : source) : outcome :=
  match compile src with
  | Finished => exec builtins [] src
  | err => err
  end.

Local Open Scope string_scope.
Local Open Scope nat_scope.

(** The statements of train.py, by line. *)
Definition imports_head : source :=
  [ (22, FromImport "absl" "app");
    (23, FromImport "absl" "flags");
    (24, FromImport "absl" "logging");
    (26, FromImport "flax" "nn");
    (27, FromImport "flax" "optim") ].

Definition imports_tail : source :=
  [ (30, FromImport "jax" "lax");
    (31, FromImport "jax" "random");
    (33, Import "jax.numpy" "jnp");
    (35, Import "numpy" "onp");
    (37, Import "tensorflow_datasets" "tfds") ].

Definition flag_definitions : source :=
  [ (40, Assign "FLAGS" ["flags"]);
    (42, ExprStmt ["flags"]);
    (46, ExprStmt ["flags"]);
    (50, ExprStmt ["flags"; "jax"]);
    (54, ExprStmt ["flags"]) ].

Definition functions_head : source :=
  [ (59, Def "load_split" [] ["tfds"; "onp"]);
    (66, ClassDef "CNN" ["nn"] ["nn"]);
    (84, Def "create_model" [] ["CNN"; "jnp"; "nn"]);
    (90, Def "create_optimizer" [] ["optim"]);
    (97, Def "onehot" [] ["jnp"]);
    (102, Def "cross_entropy_loss" [] ["jnp"; "onehot"]);
    (106, Def "shard" [] ["jax"]);
    (111, Def "device_get_first" [] ["jax"]);
    (115, Def "pmean" [] ["jax"; "lax"]);
    (120, Def "compute_metrics" [] ["cross_entropy_loss"; "jnp"; "pmean"]) ].

Definition functions_tail : source :=
  [ (146, Def "eval_step" ["jax"] ["compute_metrics"]);
    (152, Def "train_epoch" []
            ["jax"; "ValueError"; "len"; "shard"; "train_step"; "onp"; "logging"]);
    (183, Def "eval_model" [] ["eval_step"; "jax"]);
    (190, Def "get_datasets" [] ["load_split"; "tfds"]);
    (197, Def "train" []
            ["random"; "FLAGS"; "create_model"; "create_optimizer"; "onp"; "range";
             "train_epoch"; "device_get_first"; "eval_model"; "logging"]);
    (220, Def "main" [] ["get_datasets"; "train"]);
    (225, IfMain ["__name__"; "app"; "main"]) ].

Definition train_step_def : nat * stmt :=
  (132, Def "train_step" ["functools"; "jax"]
          ["cross_entropy_loss"; "jax"; "compute_metrics"]).

(** Line 29 of the file is the keyword [import] with no module after it,
    and no line imports [functools]. *)
Definition train_py : source :=
  (imports_head ++ [(29, Import "" "")] ++ imports_tail
     ++ flag_definitions ++ functions_head ++ [train_step_def] ++ functions_tail)%list.

(** The file with line 29 completed to [import jax]. *)
Definition train_py_with_jax : source :=
  (imports_head ++ [(29, Import "jax" "jax")] ++ imports_tail
     ++ flag_definitions ++ functions_head ++ [train_step_def] ++ functions_tail)%list.

(** The file with [import functools] added before it as well. *)
Definition train_py_with_both : source :=
  (21, Import "functools" "functools") :: train_py_with_jax.

End Script.

(* ===================================================================== *)
(** * Scalars                                                             *)
(* ===================================================================== *)

(** What the script asks of the element type of its arrays: the constants
    and operations of [jnp] that its expressions use.  [of_count] is the
    conversion of an element count to the element type (the divisor of
    [jnp.mean]), [astype]'s two values are [fzero] and [fone], [argmax] is
    [jnp.argmax] along the last axis. *)
Class Scalar (F : Type) := {
  fzero : F;
  fone : F;
  fadd : F -> F -> F;
  fmul : F -> F -> F;
  fdiv : F -> F -> F;
  fneg : F -> F;
  of_count : nat -> F;
  argmax : list F -> Z
}.

(** IEEE-754 binary32 with round-to-nearest-even, the arithmetic of
    [jnp.float32]: 24 bits of precision, infinities at exponent 128. *)
Module Float32.

Definition prec : Z := 24.
Definition emax : Z := 128.

Definition float32 : Type := spec_float.

Definition of_Z (n : Z) : float32 := binary_normalize prec emax n 0 false.

Definition pos_zero : float32 := S754_zero false.
Definition neg_inf : float32 := S754_infinity true.
Definition nan : float32 := S754_nan.

(** First index of the largest element among numbers. *)
Fixpoint argmax_from (best : float32) (besti i : Z) (xs : list float32) : Z :=
  match xs with
  | [] => besti
  | x :: rest =>
      if SFltb best x then argmax_from x i (i + 1) rest
      else argmax_from best besti (i + 1) rest
  end.

(** Index of the first NaN, counting from [i]. *)
Fixpoint first_nan (i : Z) (xs : list float32) : option Z :=
  match xs with
  | [] => None
  | S754_nan :: _ => Some i
  | _ :: rest => first_nan (i + 1) rest
  end.

(** [jnp.argmax] along a row: a NaN counts as the largest element, so the
    result is the index of the first NaN if the row has one, and the first
    index of the largest element otherwise (0 on an empty row). *)
Definition argmax32 (xs : list float32) : Z :=
  match first_nan 0 xs with
  | Some i => i
  | None =>
      match xs with
      | [] => 0
      | x :: rest => argmax_from x 0 1 rest
      end
  end.

#[global] Instance scalar : Scalar float32 := {|
  fzero := pos_zero;
  fone := of_Z 1;
  fadd := SFadd prec emax;
  fmul := SFmul prec emax;
  fdiv := SFdiv prec emax;
  fneg := SFopp;
  of_count := fun n => of_Z (Z.of_nat n);
  argmax := argmax32
|}.

(** A zero or a finite number that binary32 can represent. *)
Definition finite (x : float32) : bool :=
  match x with
  | S754_zero _ => true
  | S754_finite _ m e => bounded prec emax m e
  | _ => false
  end.

Definition is_zero (x : float32) : bool :=
  match x with
  | S754_zero _ => true
  | _ => false
  end.

(** Equal as numbers: the same datum, or two zeros of either sign.
    (IEEE comparison [==] on values that are not NaN.) *)
Definition same (x y : float32) : Prop :=
  x = y \/ (is_zero x = true /\ is_zero y = true).

(** ** The host's binary64 numbers *)

(** Python's [float] and numpy's [float64]: 53 bits of precision,
    infinities at exponent 1024. *)
Definition prec64 : Z := 53.
Definition emax64 : Z := 1024.

Definition float64 : Type := spec_float.

Definition of_Z64 (n : Z) : float64 := binary_normalize prec64 emax64 n 0 false.

(** The binary64 number equal to a binary32 number: what Python's
    arithmetic sees of a [numpy.float32] scalar or of [x.item()]. *)
Definition to_float64 (x : float32) : float64 :=
  match x with
  | S754_finite s m e =>
      binary_normalize prec64 emax64 (if s then Z.neg m else Z.pos m) e s
  | _ => x
  end.

(** [numpy.float32(x)] for a binary64 number: rounding to nearest even. *)
Definition to_float32 (x : float64) : float32 :=
  match x with
  | S754_finite s m e =>
      binary_normalize prec emax (if s then Z.neg m else Z.pos m) e s
  | _ => x
  end.

(** [x * 100] for a [numpy.float32] scalar or a Python float [x]: the
    product is taken in binary64. *)
Definition times_100_64 (x : float32) : float64 :=
  SFmul prec64 emax64 (to_float64 x) (of_Z64 100).

(** ** numpy's mean of a float32 array *)

(** Eight running sums, each taking every eighth element. *)
Fixpoint accumulate8 (blocks : nat) (r : list float32) (xs : list float32)
  : list float32 :=
  match blocks with
  | O => r
  | S blocks =>
      accumulate8 blocks
        (map (fun ab => SFadd prec emax (fst ab) (snd ab)) (combine r (firstn 8 xs)))
        (skipn 8 xs)
  end.

(** numpy's pairwise summation of [n] contiguous elements: a plain loop
    below 8 elements; up to 128 elements eight running sums that are added
    as [((r0+r1)+(r2+r3))+((r4+r5)+(r6+r7))], followed by the elements
    left over; above that the two halves, the first a multiple of 8 long.
    The recursion halves the array, so the length is enough fuel. *)
Fixpoint pairwise_sum (fuel : nat) (xs : list float32) : float32 :=
  let n := length xs in
  if (n <? 8)%nat then fold_left (SFadd prec emax) xs pos_zero
  else if (n <=? 128)%nat then
    let blocks := ((n - 8) / 8)%nat in
    let rest := skipn 8 xs in
    let r := accumulate8 blocks (firstn 8 xs) rest in
    let r_at := fun i => nth i r pos_zero in
    let add := SFadd prec emax in
    let res := add (add (add (r_at 0%nat) (r_at 1%nat)) (add (r_at 2%nat) (r_at 3%nat)))
                   (add (add (r_at 4%nat) (r_at 5%nat)) (add (r_at 6%nat) (r_at 7%nat))) in
    fold_left add (skipn (blocks * 8) rest) res
  else
    match fuel with
    | O => pos_zero
    | S fuel =>
        let n2 := (n / 2 - (n / 2) mod 8)%nat in
        SFadd prec emax (pairwise_sum fuel (firstn n2 xs)) (pairwise_sum fuel (skipn n2 xs))
    end.

(** [numpy.mean] of a list of float32 arrays of one length: the arrays are
    laid out one after the other, added up pairwise from the identity 0,
    and the sum, a [numpy.float32] scalar, is divided by the Python int
    that counts the elements: a binary64 division whose quotient is
    rounded back to binary32. *)
Definition numpy_mean (xss : list (list float32)) : float32 :=
  let xs := concat xss in
  let total := SFadd prec emax pos_zero (pairwise_sum (length xs) xs) in
  to_float32 (SFdiv prec64 emax64 (to_float64 total) (of_Z64 (Z.of_nat (length xs)))).

End Float32.

(* ===================================================================== *)
(** * Exceptions and the platform                                         *)
(* ===================================================================== *)

(** The exceptions of a run: the three the statements of the script raise
    themselves, and [LibraryError] for an exception raised inside numpy or
    jax (whatever its Python class), named by where it comes from. *)
Inductive exn :=
| ValueError (msg : string)
| ZeroDivisionError
| IndexError
| LibraryError (origin : string).

Definition result (A : Type) : Type := exn + A.

Definition rbind {A B} (r : result A) (k : A -> result B) : result B :=
  match r with
  | inl e => inl e
  | inr a => k a
  end.

(** The results of all computations of a list, or the first exception. *)
Fixpoint sequence {A} (rs : list (result A)) : result (list A) :=
  match rs with
  | [] => inr []
  | r :: rest => rbind r (fun a => rbind (sequence rest) (fun xs => inr (a :: xs)))
  end.

(** [jax.device_count()]: at least one device. *)
Class Platform := { device_count : positive }.

Definition ndev `{Platform} : nat := Pos.to_nat device_count.

(* ===================================================================== *)
(** * Arrays                                                              *)
(* ===================================================================== *)

(** An array is the list of its rows along the leading axis; a matrix of
    scalars is a list of rows, each a list of scalars. *)

Section Reshape.
Context {A : Type}.

(** [count] consecutive pieces of [size] elements each. *)
Fixpoint chunk (count size : nat) (xs : list A) : list (list A) :=
  match count with
  | O => []
  | S c => firstn size xs :: chunk c size (skipn size xs)
  end.

(** [x.reshape((d, -1) + x.shape[1:])] for rows of non-zero size: numpy
    infers the second axis as [len(x) / d] and refuses when [d] is zero
    or does not divide [len(x)]. *)
Definition reshape_leading (d : nat) (xs : list A) : result (list (list A)) :=
  if (d =? 0)%nat || negb (length xs mod d =? 0)%nat
  then inl (LibraryError "numpy.reshape")
  else inr (chunk d (length xs / d) xs).

(** [x.reshape((r, c))] on a one-dimensional array, with numpy's rule
    for one axis given as -1. *)
Definition reshape2 (xs : list A) (r c : Z) : result (list (list A)) :=
  let n := Z.of_nat (length xs) in
  if (r <? -1) || (c <? -1) then inl (LibraryError "numpy.reshape")
  else if (r =? -1) && (c =? -1) then inl (LibraryError "numpy.reshape")
  else if r =? -1 then
    if (c =? 0) || negb (n mod c =? 0) then inl (LibraryError "numpy.reshape")
    else inr (chunk (Z.to_nat (n / c)) (Z.to_nat c) xs)
  else if c =? -1 then
    if (r =? 0) || negb (n mod r =? 0) then inl (LibraryError "numpy.reshape")
    else inr (chunk (Z.to_nat r) (Z.to_nat (n / r)) xs)
  else if r * c =? n then inr (chunk (Z.to_nat r) (Z.to_nat c) xs)
  else inl (LibraryError "numpy.reshape").

(** [xs[:stop]] *)
Definition slice_to (xs : list A) (stop : Z) : list A :=
  let n := Z.of_nat (length xs) in
  let stop := if stop <? 0 then Z.max 0 (n + stop) else stop in
  firstn (Z.to_nat stop) xs.

(** [v[perm]] for an array of non-negative indices: numpy refuses an
    index past the end. *)
Fixpoint take (v : list A) (perm : list nat) : result (list A) :=
  match perm with
  | [] => inr []
  | i :: rest =>
      match nth_error v i with
      | None => inl (LibraryError "numpy index out of bounds")
      | Some x => rbind (take v rest) (fun xs => inr (x :: xs))
      end
  end.

(** [jax.device_get(jax.tree_map(lambda x: x[0], xs))] on a value stacked
    along the device axis. *)
Definition device_get_first (xs : list A) : result A :=
  match xs with
  | [] => inl IndexError
  | x :: _ => inr x
  end.

End Reshape.

Section Broadcasting.
Context {A B C : Type}.

(** An elementwise operation on two arrays along one axis, under the
    broadcasting of numpy and jax: an axis of size 1 is stretched to the
    size of the other, and two sizes that differ and are both not 1 are
    refused. *)
Definition broadcast (f : A -> B -> result C) (xs : list A) (ys : list B)
  : result (list C) :=
  match xs, ys with
  | [x], _ => sequence (map (f x) ys)
  | _, [y] => sequence (map (fun x => f x y) xs)
  | _, _ =>
      if (length xs =? length ys)%nat
      then sequence (map (fun xy => f (fst xy) (snd xy)) (combine xs ys))
      else inl (LibraryError "jax: incompatible shapes for broadcasting")
  end.

End Broadcasting.

(** The same on two axes: on the rows, and within the rows on the
    columns. *)
Definition broadcast2 {A B C : Type} (f : A -> B -> C)
    (a : list (list A)) (b : list (list B)) : result (list (list C)) :=
  broadcast (broadcast (fun x y => inr (f x y))) a b.

(** Pytrees with leaves of one type: [jax.tree_map] and the leaves it
    visits. *)
Class PyTree (T : Type -> Type) := {
  tree_map : forall {A B : Type}, (A -> B) -> T A -> T B;
  tree_leaves : forall {A : Type}, T A -> list A;
  tree_leaves_map :
    forall (A B : Type) (f : A -> B) (t : T A),
      tree_leaves (tree_map f t) = map f (tree_leaves t)
}.

(** The metrics dictionary [{'loss': ..., 'accuracy': ...}]. *)
Record Metrics (A : Type) := mkMetrics { loss : A; accuracy : A }.
Arguments mkMetrics {A}.
Arguments loss {A}.
Arguments accuracy {A}.

#[export] Instance Metrics_pytree : PyTree Metrics := {|
  tree_map := fun A B f m => mkMetrics (f (loss m)) (f (accuracy m));
  tree_leaves := fun A m => [accuracy m; loss m];
  tree_leaves_map := fun A B f m => eq_refl
|}.

(** A flat list of leaves is a pytree too. *)
#[export] Instance list_pytree : PyTree list := {|
  tree_map := fun A B f t => map f t;
  tree_leaves := fun A t => t;
  tree_leaves_map := fun A B f t => eq_refl
|}.

(** The value of an integer as jax holds it: labels reach jax as 64-bit
    integers and are kept in 32 bits, two's complement. *)
Definition int32 (z : Z) : Z := (z + 2 ^ 31) mod 2 ^ 32 - 2 ^ 31.

Section Arrays.
Context {F : Type} `{Scalar F}.

(** [jnp.sum] over a one-dimensional array: a reduction from zero. *)
Definition jnp_sum (xs : list F) : F := fold_left fadd xs fzero.

(** [jnp.mean]: the sum divided by the number of elements. *)
Definition jnp_mean (xs : list F) : F :=
  fdiv (jnp_sum xs) (of_count (length xs)).

(** [b.astype(jnp.float32)] *)
Definition astype_float (b : bool) : F := if b then fone else fzero.

Definition arange (n : nat) : list Z := map Z.of_nat (seq 0 n).

(** [a * b] on two matrices. *)
Definition mul_elementwise (a b : list (list F)) : result (list (list F)) :=
  broadcast2 fmul a b.

Definition onehot (labels : list Z) (num_classes : nat) : list (list F) :=
  map (fun l => map (fun c => astype_float (int32 l =? c)) (arange num_classes)) labels.

Definition cross_entropy_loss (logits : list (list F)) (labels : list Z) : result F :=
  rbind (mul_elementwise (onehot labels 10) logits) (fun products =>
  inr (fneg (jnp_mean (map jnp_sum products)))).

(** [logits[i, labels[i]]] for every row [i]. *)
Definition label_logits (logits : list (list F)) (labels : list Z) : list F :=
  map (fun rl => nth (Z.to_nat (snd rl)) (fst rl) fzero) (combine logits labels).

(** [jnp.mean(jnp.argmax(logits, -1) == labels)] *)
Definition accuracy_of (logits : list (list F)) (labels : list Z) : result F :=
  rbind (broadcast (fun a l => inr (astype_float (a =? int32 l)))
                   (map argmax logits) labels) (fun hits =>
  inr (jnp_mean hits)).

(** The first two lines of [compute_metrics] on one program instance:
    the loss and the accuracy before any reduction. *)
Definition instance_metrics (ll : list (list F) * list Z) : result (F * F) :=
  rbind (cross_entropy_loss (fst ll) (snd ll)) (fun loss =>
  rbind (accuracy_of (fst ll) (snd ll)) (fun accuracy =>
  inr (loss, accuracy))).

Context `{Platform}.

(** [lax.psum(x, 'batch')]: [x] holds one value per program instance
    along the mapped axis, and every instance receives their sum. *)
Definition psum (x : list F) : list F := map (fun _ => jnp_sum x) x.

Definition pmean {T : Type -> Type} `{PyTree T} (tree : T (list F)) : T (list F) :=
  tree_map (fun x => map (fun s => fdiv s (of_count ndev)) (psum x)) tree.

(** The body of [compute_metrics] runs once per program instance: on
    every device under [pmap], once under [jit].  [instances] holds the
    logits and the labels of each instance, and every leaf of the result
    holds one value per instance. *)
Definition compute_metrics (instances : list (list (list F) * list Z))
    (sharded : bool) : result (Metrics (list F)) :=
  rbind (sequence (map instance_metrics instances)) (fun values =>
  let metrics := mkMetrics (map fst values) (map snd values) in
  inr (if sharded then pmean metrics else metrics)).

End Arrays.

(** ** Auxiliary notions for binary32 matrices *)

Module Float32Rows.
Import Float32.

(** Products of one row of the one-hot matrix with one row of logits, the
    columns being numbered from [k]. *)
Definition masked (l : Z) (k n : nat) (row : list float32) : list float32 :=
  map (fun xy => fmul (fst xy) (snd xy))
      (combine (map (fun c => astype_float (l =? c)) (map Z.of_nat (seq k n))) row).

Definition finite_row (row : list float32) : Prop :=
  length row = 10%nat /\ Forall (fun x => finite x = true) row.

End Float32Rows.

(* ===================================================================== *)
(** * The framework                                                       *)
(* ===================================================================== *)

(** What the script calls in [jax], [flax] and [numpy] without defining
    it: the layers, automatic differentiation, the momentum optimizer, the
    two generators and the host arithmetic on the metrics.  [Params] is the
    parameter pytree of the network, [Model] is [nn.Model] (a module with
    its parameters; a gradient has the same type), [Tensor] is one
    example's array, [HostFloat] is Python's [float]. *)
Class Framework (F : Type) := {
  Tensor : Type;
  Params : Type;
  Model : Type;
  OptimizerDef : Type;
  Optimizer : Type;
  Key : Type;
  RandomState : Type;
  HostFloat : Type;
  (* jax.random and numpy.random *)
  PRNGKey : Z -> Key;
  RandomState_of_seed : Z -> RandomState;
  permutation : RandomState -> nat -> list nat * RandomState;
  (* flax.nn; a layer with parameters is given the parameter pytree and
     its position among the layers of the module *)
  nn_Conv : Params -> nat -> list Tensor -> nat -> nat * nat -> list Tensor;
  nn_Dense : Params -> nat -> list Tensor -> nat -> list Tensor;
  nn_relu : list Tensor -> list Tensor;
  nn_avg_pool : list Tensor -> nat * nat -> nat * nat -> list Tensor;
  nn_log_softmax : list Tensor -> list Tensor;
  flatten : list Tensor -> list Tensor;
  scalars : Tensor -> list F;
  init_by_shape : Key -> Params;
  nn_Model : Params -> Model;
  params : Model -> Params;
  (* jax: the gradient of the first component of a function at a point *)
  grad : forall {Aux : Type}, (Model -> result (F * Aux)) -> Model -> Model;
  (* flax.optim: the momentum optimizer and its update by a gradient *)
  optim_Momentum : F -> F -> OptimizerDef;
  create : OptimizerDef -> Model -> Optimizer;
  target : Optimizer -> Model;
  apply_gradient : Optimizer -> Model -> Optimizer;
  (* flax.optim: the optimizer with its definition wrapped for data
     parallel training, whether an optimizer's definition is wrapped, and
     the mean of the gradients of the program instances *)
  replicated_def : Optimizer -> Optimizer;
  averages : Optimizer -> bool;
  cross_replica_mean : list Model -> Model;
  (* numpy on the host: the mean of a list of arrays, and [x * 100] *)
  onp_mean : list (list F) -> F;
  times_100 : F -> HostFloat
}.

(** The documented behaviour of the generator: [permutation n] is a
    permutation of [range(n)]. *)
Class FrameworkLaws {F : Type} (FW : Framework F) : Prop := {
  permutation_perm :
    forall (s : RandomState) (n : nat),
      Permutation (fst (permutation s n)) (seq 0 n)
}.

(** The documented behaviour of the layers on the shape of a batch: every
    layer keeps one tensor per example, a dense layer gives every example
    [features] scalars and [log_softmax] keeps their number. *)
Class ShapeLaws {F : Type} (FW : Framework F) : Prop := {
  nn_Conv_examples :
    forall p i x features kernel, length (nn_Conv p i x features kernel) = length x;
  nn_relu_examples : forall x, length (nn_relu x) = length x;
  nn_avg_pool_examples :
    forall x window strides, length (nn_avg_pool x window strides) = length x;
  flatten_examples : forall x, length (flatten x) = length x;
  nn_Dense_examples : forall p i x features, length (nn_Dense p i x features) = length x;
  nn_log_softmax_examples : forall x, length (nn_log_softmax x) = length x;
  nn_Dense_features :
    forall p i x features,
      Forall (fun t => length (scalars t) = features) (nn_Dense p i x features);
  nn_log_softmax_features :
    forall x (features : nat),
      Forall (fun t => length (scalars t) = features) x ->
      Forall (fun t => length (scalars t) = features) (nn_log_softmax x)
}.

(** The documented behaviour of the wrapped optimizer definition: the
    wrapping is seen by [averages], and an update keeps the definition. *)
Class ReplicationLaws {F : Type} (FW : Framework F) : Prop := {
  replicated_def_averages : forall o, averages (replicated_def o) = true;
  apply_gradient_averages : forall o g, averages (apply_gradient o g) = averages o
}.

Section Training.
Context {F : Type} `{Scalar F} `{Platform} `{Framework F}.

(** A dataset or a batch: the dictionary with the keys ['image'] and
    ['label'], each an array along the example axis. *)
Record Batch := mkBatch { image : list Tensor; label : list Z }.

(** A batch after [shard]: every array has the device axis in front. *)
Record ShardedBatch := mkSharded { images : list (list Tensor); labels : list (list Z) }.

(** What a run leaves behind: the two [logging.info] lines with the loss
    and the percentage they are given, and each call of the compiled
    [train_step] with the batch it was given. *)
Inductive event :=
| LogTrain (epoch : Z) (loss_value : F) (accuracy_percent : HostFloat)
| LogEval (epoch : Z) (loss_value : F) (accuracy_percent : HostFloat)
| StepCall (batch : ShardedBatch).

(** Computations of the script: the state of the generator object
    [input_rng] is threaded, events are appended, and an exception ends
    the computation, keeping what was emitted before it. *)
Definition M (A : Type) : Type :=
  RandomState -> RandomState * list event * result A.

Definition ret {A} (a : A) : M A := fun s => (s, [], inr a).

Definition bind {A B} (m : M A) (k : A -> M B) : M B :=
  fun s =>
    match m s with
    | (s1, ev1, inl e) => (s1, ev1, inl e)
    | (s1, ev1, inr a) =>
        match k a s1 with
        | (s2, ev2, r) => (s2, ev1 ++ ev2, r)
        end
    end.

Definition raise {A} (e : exn) : M A := fun s => (s, [], inl e).

Definition lift {A} (r : result A) : M A := fun s => (s, [], r).

Definition emit (e : event) : M unit := fun s => (s, [e], inr tt).

Definition set_rng (s : RandomState) : M unit := fun _ => (s, [], inr tt).

(** [rng.permutation(n)] on the generator object. *)
Definition rng_permutation (n : nat) : M (list nat) :=
  fun s => let (p, s') := permutation s n in (s', [], inr p).

Notation "x <- m ;; k" := (bind m (fun x => k))
  (at level 61, m at next level, right associativity).
Notation "m ;;; k" := (bind m (fun _ => k))
  (at level 61, right associativity).

(** [for x in xs: ...] with the variables the body assigns as [st]. *)
Fixpoint for_each {A St} (xs : list A) (st : St) (body : St -> A -> M St) : M St :=
  match xs with
  | [] => ret st
  | x :: rest => st' <- body st x ;; for_each rest st' body
  end.

(** [a // b] *)
Definition floordiv (a b : Z) : result Z :=
  if b =? 0 then inl ZeroDivisionError else inr (a / b).

(** [range(a, b)] *)
Definition range (a b : Z) : list Z :=
  map (fun i => a + Z.of_nat i) (seq 0 (Z.to_nat (b - a))).

(** ** The network *)

Definition CNN_apply (p : Params) (x : list Tensor) : list Tensor :=
  let x := nn_Conv p 0 x 32 (3, 3)%nat in
  let x := nn_relu x in
  let x := nn_avg_pool x (2, 2)%nat (2, 2)%nat in
  let x := nn_Conv p 1 x 64 (3, 3)%nat in
  let x := nn_relu x in
  let x := nn_avg_pool x (2, 2)%nat (2, 2)%nat in
  let x := flatten x in
  let x := nn_Dense p 2 x 256 in
  let x := nn_relu x in
  let x := nn_Dense p 3 x 10 in
  let x := nn_log_softmax x in
  x.

(** [model(x)]: the module applied with the model's parameters; the
    result is a matrix with one row of scalars per example. *)
Definition model_call (model : Model) (x : list Tensor) : list (list F) :=
  map scalars (CNN_apply (params model) x).

Definition create_model (key : Key) : Model :=
  let initial_params := init_by_shape key in
  let model := nn_Model initial_params in
  model.

(** Modelled from the spec: [Optimizer.replicate] is code of flax's
    [optim] package, outside the script.  The spec has the script replicate the computation across
    the available devices and leaves the cross-device reduction to the
    framework: the replicated optimizer is one copy of the optimizer per
    device, stacked along a new leading axis, whose definition is wrapped
    so that its update reduces the gradient across the devices. *)
Definition replicate (optimizer : Optimizer) : list Optimizer :=
  repeat (replicated_def optimizer) ndev.

Definition create_optimizer (model : Model) (learning_rate beta : F) : list Optimizer :=
  let optimizer_def := optim_Momentum learning_rate beta in
  let optimizer := create optimizer_def model in
  let optimizer := replicate optimizer in
  optimizer.

(** ** Sharding *)

Definition shard (xs : Batch) : result ShardedBatch :=
  rbind (reshape_leading ndev (image xs)) (fun i =>
  rbind (reshape_leading ndev (label xs)) (fun l =>
  inr (mkSharded i l))).

(** [{k: v[perm] for k, v in train_ds.items()}] *)
Definition take_batch (train_ds : Batch) (perm : list nat) : result Batch :=
  rbind (take (image train_ds) perm) (fun i =>
  rbind (take (label train_ds) perm) (fun l =>
  inr (mkBatch i l))).

(** ** One training step *)

(** What [jax.pmap] hands to each program instance: the slices of the
    arguments along their leading axis.  The axes must agree and fit on
    the devices. *)
Definition pmap_args (optimizer : list Optimizer) (batch : ShardedBatch)
  : result (list (Optimizer * Batch)) :=
  let n := length optimizer in
  if (n =? length (images batch))%nat && (n =? length (labels batch))%nat
     && (n <=? ndev)%nat
  then inr (combine optimizer
              (map (fun il => mkBatch (fst il) (snd il))
                   (combine (images batch) (labels batch))))
  else inl (LibraryError "jax.pmap").

Definition loss_fn (batch : Batch) (model : Model) : result (F * list (list F)) :=
  let logits := model_call model (image batch) in
  rbind (cross_entropy_loss logits (label batch)) (fun loss =>
  inr (loss, logits)).

(** [jax.value_and_grad(f, has_aux=True)(x)]: [f] is run at [x], an
    exception of [f] comes out as it is, and the value of [f] is returned
    with the gradient. *)
Definition value_and_grad {Aux : Type} (f : Model -> result (F * Aux)) (x : Model)
  : result ((F * Aux) * Model) :=
  rbind (f x) (fun value => inr (value, grad f x)).

(** Modelled from the spec: [Optimizer.apply_gradient] and the wrapped
    definition that [replicate] installs are code of flax's [optim]
    package, outside the script.  On every program instance the update goes to the optimizer's
    definition; a wrapped definition first replaces the gradient by its
    mean over the program instances (the cross-device reduction the spec
    leaves to the framework), so that the copies of a replicated optimizer
    take the same step. *)
Definition Optimizer_apply_gradient (optimizer : list Optimizer) (grad : list Model)
  : list Optimizer :=
  map (fun og => apply_gradient (fst og)
                   (if averages (fst og) then cross_replica_mean grad else snd og))
      (combine optimizer grad).

(** [train_step] under [pmap]: every line of the body is evaluated on
    all program instances, giving one value per instance. *)
Definition train_step (optimizer : list Optimizer) (batch : ShardedBatch)
  : result (list Optimizer * Metrics (list F)) :=
  rbind (pmap_args optimizer batch) (fun instances =>
    let grad_fn := fun ob : Optimizer * Batch => value_and_grad (loss_fn (snd ob)) in
    rbind (sequence (map (fun ob => grad_fn ob (target (fst ob))) instances)) (fun out =>
    let logits := map (fun r => snd (fst r)) out in
    let grad := map snd out in
    let optimizer := Optimizer_apply_gradient (map fst instances) grad in
    rbind (compute_metrics
             (combine logits (map (fun ob => label (snd ob)) instances)) true)
          (fun metrics =>
    inr (optimizer, metrics)))).

(** [eval_step] under [jit]: a single program instance. *)
Definition eval_step (model : Model) (batch : Batch) : result (Metrics (list F)) :=
  let logits := model_call model (image batch) in
  compute_metrics [(logits, label batch)] false.

(** ** One epoch *)

(** [x.item()]: the only element of an array of size one. *)
Definition item (x : list F) : result F :=
  match x with
  | [v] => inr v
  | _ => inl (LibraryError "numpy.item")
  end.

Definition divisibility_message : string :=
  "Batch size must be divisible by the number of devices".

(** The dictionary [epoch_metrics_np] that [train_epoch] builds from
    [batch_metrics_np]: for each key the mean of the arrays of the
    steps. *)
Definition epoch_metrics (batch_metrics : list (Metrics (list F))) : Metrics F :=
  mkMetrics (onp_mean (map loss batch_metrics)) (onp_mean (map accuracy batch_metrics)).

(** The body of [for perm in perms]; [st] holds [optimizer] and
    [batch_metrics]. *)
Definition train_epoch_body (train_ds : Batch)
    (st : list Optimizer * list (Metrics (list F))) (perm : list nat)
  : M (list Optimizer * list (Metrics (list F))) :=
  batch <- lift (rbind (take_batch train_ds perm) shard) ;;
  emit (StepCall batch) ;;;
  om <- lift (train_step (fst st) batch) ;;
  ret (fst om, snd st ++ [snd om]).

Definition train_epoch (optimizer : list Optimizer) (train_ds : Batch)
    (batch_size : Z) (epoch : Z) : M (list Optimizer * Metrics F) :=
  let device_count := Z.pos device_count in
  if batch_size mod device_count >? 0
  then raise (ValueError divisibility_message)
  else
    let train_ds_size := Z.of_nat (length (image train_ds)) in
    steps_per_epoch <- lift (floordiv train_ds_size batch_size) ;;
    perms <- rng_permutation (length (image train_ds)) ;;
    let perms := slice_to perms (steps_per_epoch * batch_size) in
    perms <- lift (reshape2 perms steps_per_epoch batch_size) ;;
    st <- for_each perms (optimizer, []) (train_epoch_body train_ds) ;;
    let optimizer := fst st in
    let batch_metrics_np := snd st in
    _first <- lift (match batch_metrics_np with
                    | [] => inl IndexError
                    | m :: _ => inr m
                    end) ;;
    let epoch_metrics_np := epoch_metrics batch_metrics_np in
    emit (LogTrain epoch (loss epoch_metrics_np)
                   (times_100 (accuracy epoch_metrics_np))) ;;;
    ret (optimizer, epoch_metrics_np).

Definition eval_model (model : Model) (test_ds : Batch) : result (F * F) :=
  rbind (eval_step model test_ds) (fun metrics =>
  rbind (item (accuracy metrics)) (fun a =>
  rbind (item (loss metrics)) (fun l =>
  inr (l, a)))).

(** ** The whole run *)

Record Flags := mkFlags {
  learning_rate : F;
  momentum : F;
  batch_size : Z;
  num_epochs : Z
}.

(** The body of [for epoch in range(1, num_epochs + 1)]. *)
Definition train_body (train_ds test_ds : Batch) (batch_size : Z)
    (optimizer : list Optimizer) (epoch : Z) : M (list Optimizer) :=
  om <- train_epoch optimizer train_ds batch_size epoch ;;
  let optimizer := fst om in
  optimizer_target <- lift (device_get_first (map target optimizer)) ;;
  la <- lift (eval_model optimizer_target test_ds) ;;
  emit (LogEval epoch (fst la) (times_100 (snd la))) ;;;
  ret optimizer.

Definition train (FLAGS : Flags) (train_ds test_ds : Batch) : M (list Optimizer) :=
  let rng := PRNGKey 0 in
  let batch_size := batch_size FLAGS in
  let num_epochs := num_epochs FLAGS in
  let model := create_model rng in
  let optimizer := create_optimizer model (learning_rate FLAGS) (momentum FLAGS) in
  set_rng (RandomState_of_seed 0) ;;;
  for_each (range 1 (num_epochs + 1)) optimizer
    (train_body train_ds test_ds batch_size).

(** ** Reading a run *)

Definition logged (ev : list event) : list event :=
  filter (fun e => match e with StepCall _ => false | _ => true end) ev.

Definition step_calls (ev : list event) : list ShardedBatch :=
  flat_map (fun e => match e with StepCall b => [b] | _ => [] end) ev.

(** What one epoch of [train] computes: the epoch number, the metrics
    [train_epoch] returns and the pair [eval_model] returns. *)
Definition epoch_record : Type := Z * Metrics F * (F * F).

(** The two lines [train] logs for an epoch. *)
Definition epoch_lines (r : epoch_record) : list event :=
  let '(epoch, m, la) := r in
  [LogTrain epoch (loss m) (times_100 (accuracy m));
   LogEval epoch (fst la) (times_100 (snd la))].

(** The record of an epoch is what [train_epoch] returned for that epoch
    number and what [eval_model] returned on the test set for the first
    replica of the optimizer that [train_epoch] left. *)
Definition from_epoch (train_ds test_ds : Batch) (batch_size : Z)
    (r : epoch_record) : Prop :=
  let '(epoch, m, la) := r in
  exists optimizer s s1 ev1 optimizer1 model,
    train_epoch optimizer train_ds batch_size epoch s = (s1, ev1, inr (optimizer1, m))
    /\ device_get_first (map target optimizer1) = inr model
    /\ eval_model model test_ds = inr la.

Definition library_error (e : exn) : Prop := exists origin, e = LibraryError origin.

(** A row of indices for which the body of the loop over the batches
    goes through: [batch_size] indices into the training set. *)
Definition usable (train_ds : Batch) (bs : Z) (perm : list nat) : Prop :=
  length perm = Z.to_nat bs
  /\ Forall (fun i => (i < length (image train_ds))%nat) perm.

(** A step's metrics when every device holds the same loss and the same
    accuracy. *)
Definition replicated_metrics (la : F * F) : Metrics (list F) :=
  mkMetrics (repeat (fst la) ndev) (repeat (snd la) ndev).

(** The replicas of the optimizer when "they are all the same" (line
    212): one optimizer with a wrapped definition, once per device. *)
Definition replicas_equal (optimizer : list Optimizer) : Prop :=
  exists o, averages o = true /\ optimizer = repeat o ndev.

(** A batch laid out over the devices: one piece per device, each with
    [per_device] examples. *)
Definition sharded_shape (per_device : nat) (b : ShardedBatch) : Prop :=
  length (images b) = ndev /\ length (labels b) = ndev
  /\ Forall (fun piece => length piece = per_device) (images b)
  /\ Forall (fun piece => length piece = per_device) (labels b).

(** The steps of an epoch one after the other, from the batches they are
    given: the optimizer after the last step and the metrics of each. *)
Fixpoint run_steps (optimizer : list Optimizer) (batches : list ShardedBatch)
  : result (list Optimizer * list (Metrics (list F))) :=
  match batches with
  | [] => inr (optimizer, [])
  | b :: rest =>
      rbind (train_step optimizer b) (fun om =>
      rbind (run_steps (fst om) rest) (fun oms =>
      inr (fst oms, snd om :: snd oms)))
  end.

End Training.

Arguments Batch {F} {_}.
Arguments ShardedBatch {F} {_}.
Arguments event {F} {_}.
Arguments Flags : clear implicits.

(* ===================================================================== *)
(** * A small executable framework                                        *)
(* ===================================================================== *)

(** Two devices, binary32 scalars, a network with a single weight [w]
    whose dense layers give every example [features] scalars (the scalars
    it has, cut or filled up with zeros) and whose last dense layer
    multiplies them by [w], gradients by a forward difference, the momentum
    rule [v' = decay * v + g], [w' = w - rate * v'], the mean of the
    gradients as their sum divided by their number, numpy's mean and
    Python's product on the host, and a generator whose [permutation]
    rotates [range(n)] by the number of calls so far. *)
Module Toy.
Import Float32.

#[global] Instance two_devices : Platform := {| device_count := 2 |}.

Record momentum_optimizer := mkOpt {
  rate : float32;
  decay : float32;
  velocity : float32;
  weight : float32;
  replicated : bool
}.

Definition rotate (s n : nat) : list nat :=
  skipn (s mod n) (seq 0 n) ++ firstn (s mod n) (seq 0 n).

Definition forward_difference {Aux : Type}
    (f : float32 -> result (float32 * Aux)) (w : float32) : float32 :=
  match f (fadd w fone), f w with
  | inr after, inr before => SFsub prec emax (fst after) (fst before)
  | _, _ => nan
  end.

(** [features] scalars of an example: its own, cut or filled up with
    zeros. *)
Definition resize (features : nat) (t : list float32) : list float32 :=
  firstn features (t ++ repeat pos_zero features).

Definition momentum_update (o : momentum_optimizer) (g : float32) : momentum_optimizer :=
  let v := fadd (fmul (decay o) (velocity o)) g in
  mkOpt (rate o) (decay o) v (SFsub prec emax (weight o) (fmul (rate o) v)) (replicated o).

#[global] Instance framework : Framework float32 := {|
  Tensor := list float32;
  Params := float32;
  Model := float32;
  OptimizerDef := float32 * float32;
  Optimizer := momentum_optimizer;
  Key := Z;
  RandomState := nat;
  HostFloat := float64;
  PRNGKey := fun seed => seed;
  RandomState_of_seed := Z.to_nat;
  permutation := fun s n => (rotate s n, S s);
  nn_Conv := fun _ _ x _ _ => x;
  nn_Dense := fun p i x features =>
    map (fun t => resize features (if (i =? 3)%nat then map (fmul p) t else t)) x;
  nn_relu := fun x => x;
  nn_avg_pool := fun x _ _ => x;
  nn_log_softmax := fun x => x;
  flatten := fun x => x;
  scalars := fun t => t;
  init_by_shape := fun key => of_Z (key + 1);
  nn_Model := fun p => p;
  params := fun m => m;
  grad := @forward_difference;
  optim_Momentum := fun learning_rate beta => (learning_rate, beta);
  create := fun def model => mkOpt (fst def) (snd def) pos_zero model false;
  target := weight;
  apply_gradient := momentum_update;
  replicated_def := fun o => mkOpt (rate o) (decay o) (velocity o) (weight o) true;
  averages := replicated;
  cross_replica_mean := fun grads => fdiv (jnp_sum grads) (of_count (length grads));
  onp_mean := numpy_mean;
  times_100 := times_100_64
|}.

(** An image with the values [a] and [b] in its first two entries. *)
Definition picture (a b : Z) : list float32 :=
  of_Z a :: of_Z b :: repeat pos_zero 8.

Definition dataset : Batch :=
  mkBatch [picture 1 2; picture 3 4; picture 5 6; picture 7 8] [0; 1; 0; 1].

Definition flags (batch_size num_epochs : Z) : Flags float32 :=
  mkFlags (fdiv (of_Z 1) (of_Z 8)) (fdiv (of_Z 1) (of_Z 2)) batch_size num_epochs.

(** The optimizer [train] starts from, one replica per device. *)
Definition replicas : list momentum_optimizer :=
  create_optimizer (create_model (PRNGKey 0))
                   (fdiv (of_Z 1) (of_Z 8)) (fdiv (of_Z 1) (of_Z 2)).

(** The whole data set as one batch, laid out over the two devices. *)
Definition sharded : ShardedBatch :=
  mkSharded [[picture 1 2; picture 3 4]; [picture 5 6; picture 7 8]] [[0; 1]; [0; 1]].

Definition instances : list (momentum_optimizer * Batch) :=
  combine replicas
    [mkBatch [picture 1 2; picture 3 4] [0; 1];
     mkBatch [picture 5 6; picture 7 8] [0; 1]].

(** Four images whose first entries are far apart, all with the label 0,
    and the replicated optimizer with a learning rate of 0. *)
Definition far_apart : Batch :=
  mkBatch [picture (-16777218) 0; picture (-16777218) 0; picture (-1) 0; picture (-1) 0]
          [0; 0; 0; 0].

Definition still_replicas : list momentum_optimizer :=
  create_optimizer (create_model (PRNGKey 0)) pos_zero (fdiv (of_Z 1) (of_Z 2)).

(** A row of logits with an infinite entry away from the label. *)
Definition infinite_row : list float32 :=
  fneg (of_Z 1) :: neg_inf :: repeat pos_zero 8.

End Toy.

(* ===================================================================== *)
(** * Flags, data sets and the entry point                                *)
(* ===================================================================== *)

(** [tfds.Split.TRAIN] and [tfds.Split.TEST]. *)
Inductive Split := TRAIN | TEST.

(** What [tfds.as_numpy(tfds.load('mnist', ...))] holds: the images as
    arrays of [uint8] pixels and the labels. *)
Record RawData := mkRawData { raw_image : list (list Z); raw_label : list Z }.

Section Datasets.
Context {F : Type} `{Scalar F} `{Platform} `{Framework F}.

(** The defaults of the two integer flags, [128 * jax.device_count()] and
    10.  (The defaults of the two float flags are 0.1 and 0.9.) *)
Definition default_batch_size : Z := 128 * Z.pos device_count.

Definition default_num_epochs : Z := 10.

Definition default_flags (learning_rate momentum : F) : Flags F :=
  mkFlags learning_rate momentum default_batch_size default_num_epochs.

(** [tfds.load] followed by [tfds.as_numpy], and the array of the
    framework that holds given values. *)
Variable tfds_load : Split -> RawData.
Variable as_tensor : list F -> Tensor.

(** [onp.float32(x) / 255.] on the pixels of one image. *)
Definition normalize (pixels : list Z) : list F :=
  map (fun p => fdiv (of_count (Z.to_nat p)) (of_count 255)) pixels.

Definition load_split (split : Split) : Batch :=
  let data := tfds_load split in
  mkBatch (map (fun pixels => as_tensor (normalize pixels)) (raw_image data))
          (raw_label data).

Definition get_datasets : Batch * Batch :=
  let train_ds := load_split TRAIN in
  let test_ds := load_split TEST in
  (train_ds, test_ds).

(** [main], with the values of the flags it runs under. *)
Definition main (FLAGS : Flags F) : M unit :=
  let '(train_ds, test_ds) := get_datasets in
  bind (train FLAGS train_ds test_ds) (fun _ => ret tt).

End Datasets.

(** A data source for the executable framework: a training split of 256
    images of ten pixels and a test split of two. *)
Module ToyData.
Import Float32.

Definition tfds_load (split : Split) : RawData :=
  match split with
  | TRAIN => mkRawData (repeat [0; 255; 0; 0; 0; 0; 0; 0; 0; 0] 256) (repeat 1 256)
  | TEST => mkRawData [[255; 0; 0; 0; 0; 0; 0; 0; 0; 0]; [0; 51; 0; 0; 0; 0; 0; 0; 0; 0]]
                      [0; 1]
  end.

Definition as_tensor (values : list float32) : list float32 := values.

(** A batch with one label fewer than it has images. *)
Definition uneven : Batch :=
  mkBatch [Toy.picture 1 2; Toy.picture 3 4; Toy.picture 5 6; Toy.picture 7 8] [0; 1; 0].

End ToyData.


(* ===================================================================== *)
(** * Properties                                                          *)
(* ===================================================================== *)

(** C1 (evaluation of the script as it is): loading train.py stops at line
    29 with a syntax error; once line 29 reads [import jax] the load stops at
    the decorator of line 132 because [functools] is unbound; with both
    imports in place the load and the call of [main] resolve every name. *)
Theorem script_names_unresolved :
  Script.run Script.train_py = Script.SyntaxError 29
  /\ Script.run Script.train_py_with_jax = Script.NameError 132 "functools"
  /\ Script.run Script.train_py_with_both = Script.Finished.
Proof. repeat split; vm_compute; reflexivity. Qed.

(** ** Results and broadcasting *)

Section BroadcastFacts.

Lemma sequence_inr {A B : Type} (f : A -> B) (xs : list A) :
  sequence (map (fun x => inr (f x)) xs) = inr (map f xs).
Proof.
  induction xs as [|x xs IH]; [reflexivity|].
  cbn [map sequence rbind]. rewrite IH. reflexivity.
Qed.

Lemma sequence_length {A : Type} : forall (rs : list (result A)) (xs : list A),
  sequence rs = inr xs -> length xs = length rs.
Proof.
  induction rs as [|r rs IH]; intros xs; cbn [sequence].
  - intros [= <-]. reflexivity.
  - destruct r as [e|a]; cbn [rbind]; [discriminate|].
    destruct (sequence rs) as [e|ys]; cbn [rbind]; [discriminate|].
    intros [= <-]. cbn [length]. rewrite (IH ys eq_refl). reflexivity.
Qed.

Lemma sequence_error {A : Type} (P : exn -> Prop) : forall (rs : list (result A)) e,
  Forall (fun r => forall e, r = inl e -> P e) rs ->
  sequence rs = inl e -> P e.
Proof.
  induction rs as [|r rs IH]; intros e Hall; cbn [sequence]; [discriminate|].
  inversion Hall as [|? ? Hr Hrest]; subst.
  destruct r as [e1|a]; cbn [rbind].
  - intros [= <-]. apply Hr. reflexivity.
  - destruct (sequence rs) as [e1|ys] eqn:Hseq; cbn [rbind]; [|discriminate].
    intros [= <-]. apply IH; [assumption|reflexivity].
Qed.

Lemma sequence_ok {A : Type} : forall (rs : list (result A)),
  Forall (fun r => exists a, r = inr a) rs -> exists xs, sequence rs = inr xs.
Proof.
  induction rs as [|r rs IH]; intros Hall; [exists []; reflexivity|].
  inversion Hall as [|? ? [a ->] Hrest]; subst.
  destruct (IH Hrest) as [xs Hxs]. exists (a :: xs).
  cbn [sequence rbind]. rewrite Hxs. reflexivity.
Qed.

(** On arrays of one size the operation is applied position by
    position. *)
Lemma broadcast_same_length {A B C : Type} (f : A -> B -> C) :
  forall (xs : list A) (ys : list B),
    length xs = length ys ->
    broadcast (fun x y => inr (f x y)) xs ys
    = inr (map (fun xy => f (fst xy) (snd xy)) (combine xs ys)).
Proof.
  intros xs ys Hlen. unfold broadcast.
  destruct xs as [|x [|x' xs]], ys as [|y [|y' ys]]; try discriminate; try reflexivity.
  rewrite Hlen, Nat.eqb_refl. apply sequence_inr.
Qed.

(** An array of one size and an array of another, neither of size 1, do
    not broadcast. *)
Lemma broadcast_mismatch {A B C : Type} (f : A -> B -> result C) :
  forall (xs : list A) (ys : list B),
    length xs <> length ys -> length xs <> 1%nat -> length ys <> 1%nat ->
    broadcast f xs ys = inl (LibraryError "jax: incompatible shapes for broadcasting").
Proof.
  intros xs ys Hne Hx Hy. unfold broadcast.
  destruct (Nat.eqb_spec (length xs) (length ys)) as [|_]; [contradiction|].
  destruct xs as [|x [|x' xs]], ys as [|y [|y' ys]]; cbn in *; congruence.
Qed.

Lemma broadcast_error {A B C : Type} (f : A -> B -> result C) (P : exn -> Prop) :
  (forall x y e, f x y = inl e -> P e) ->
  P (LibraryError "jax: incompatible shapes for broadcasting") ->
  forall xs ys e, broadcast f xs ys = inl e -> P e.
Proof.
  intros Hf Hshape xs ys e. unfold broadcast.
  assert (Hseq : forall (rs : list (result C)),
             Forall (fun r => forall e, r = inl e -> P e) rs ->
             sequence rs = inl e -> P e)
    by (intros rs; apply sequence_error).
  destruct xs as [|x [|x' xs]], ys as [|y [|y' ys]];
    try (apply Hseq; apply Forall_forall; intros r Hin;
         apply in_map_iff in Hin as (z & <- & _); intros e0; apply Hf);
    try (destruct (_ =? _)%nat;
         [apply Hseq; apply Forall_forall; intros r Hin;
          apply in_map_iff in Hin as (z & <- & _); intros e0; apply Hf
         |intros [= <-]; exact Hshape]).
Qed.

(** On matrices of one shape the operation is applied entry by entry. *)
Lemma broadcast2_same_shape {A B C : Type} (f : A -> B -> C) :
  forall (a : list (list A)) (b : list (list B)),
    Forall2 (fun r s => length r = length s) a b ->
    broadcast2 f a b
    = inr (map (fun rs => map (fun xy => f (fst xy) (snd xy)) (combine (fst rs) (snd rs)))
               (combine a b)).
Proof.
  intros a b Hshape. unfold broadcast2.
  assert (Hrows : sequence (map (fun rs => broadcast (fun x y => inr (f x y))
                                             (fst rs) (snd rs)) (combine a b))
                  = inr (map (fun rs => map (fun xy => f (fst xy) (snd xy))
                                            (combine (fst rs) (snd rs))) (combine a b))).
  { induction Hshape as [|r s a b Hrs _ IH]; [reflexivity|].
    cbn [combine map sequence fst snd]. rewrite (broadcast_same_length f r s Hrs).
    cbn [rbind]. rewrite IH. reflexivity. }
  pose proof (Forall2_length Hshape) as Hlen.
  unfold broadcast at 1.
  destruct a as [|r [|r' a]], b as [|s [|s' b]]; try discriminate; try reflexivity.
  - exact Hrows.
  - rewrite Hlen, Nat.eqb_refl. exact Hrows.
Qed.

End BroadcastFacts.

(** ** Binary32: the one-hot product selects the labelled logit *)

Section Float32Facts.
Import Float32 Float32Rows.

Lemma bounded_inv m e : bounded prec emax m e = true ->
  fexp prec emax (Z.pos (digits2_pos m) + e) = e /\ e <= emax - prec.
Proof.
  unfold bounded, canonical_mantissa. intros Hb.
  apply andb_true_iff in Hb. destruct Hb as [Hc He].
  apply Z.eqb_eq in Hc. apply Z.leb_le in He. auto.
Qed.

Lemma mul_one s m e : bounded prec emax m e = true ->
  SFmul prec emax (of_Z 1) (S754_finite s m e) = S754_finite s m e.
Proof.
  intros Hb. destruct (bounded_inv _ _ Hb) as [Hc He].
  change (of_Z 1) with (S754_finite false 8388608 (-23)).
  cbn [SFmul xorb Pos.mul].
  unfold binary_round_aux, shr_fexp.
  cbn [Zdigits2 digits2_pos shr_record_of_loc].
  match goal with |- context [fexp prec emax (Z.pos ?d + (-23 + e)) - (-23 + e)] =>
    replace (fexp prec emax (Z.pos d + (-23 + e)) - (-23 + e)) with 23
  end.
  2:{ match goal with |- context [fexp prec emax ?a] => replace a with (Z.pos (digits2_pos m) + e) by lia end.
      rewrite Hc. lia. }
  cbn [shr iter_pos shr_1 orb shr_m loc_of_shr_record round_nearest_even Zdigits2 shr_record_of_loc].
  replace (-23 + e + 23) with e by lia.
  rewrite Hc, Z.sub_diag. cbn [shr shr_m].
  apply Z.leb_le in He. rewrite He. reflexivity.
Qed.

Lemma same_refl x : same x x.
Proof. left; reflexivity. Qed.

Lemma same_sym x y : same x y -> same y x.
Proof. intros [->|[? ?]]; [left|right]; auto. Qed.

Lemma same_trans x y z : same x y -> same y z -> same x z.
Proof.
  intros [->|[Hx Hy]] [->|[Hy' Hz]]; try (left; reflexivity); right; auto.
Qed.

Lemma add_zero_r a z : is_zero z = true -> same (fadd a z) a.
Proof.
  destruct z as [sz| | |]; try discriminate. intros _.
  destruct a as [sa|sa| |sa ma ea]; cbn; try apply same_refl.
  destruct sa, sz; right; auto.
Qed.

Lemma add_zero_l a x : is_zero a = true -> same (fadd a x) x.
Proof.
  destruct a as [sa| | |]; try discriminate. intros _.
  destruct x as [sx|sx| |sx mx ex]; cbn; try apply same_refl.
  destruct sa, sx; right; auto.
Qed.

Lemma add_zero_zero a z : is_zero a = true -> is_zero z = true -> is_zero (fadd a z) = true.
Proof.
  destruct a as [sa| | |], z as [sz| | |]; try discriminate. intros _ _.
  destruct sa, sz; reflexivity.
Qed.

Lemma mul_zero_finite x : finite x = true -> is_zero (fmul fzero x) = true.
Proof. destruct x; try discriminate; reflexivity. Qed.

Lemma mul_one_finite x : finite x = true -> fmul fone x = x.
Proof.
  destruct x as [s|s| |s m e]; try discriminate; intros Hx.
  - reflexivity.
  - apply mul_one. exact Hx.
Qed.

Lemma add_same a a' b b' : same a a' -> same b b' -> same (fadd a b) (fadd a' b').
Proof.
  intros [->|[Ha Ha']] [->|[Hb Hb']].
  - apply same_refl.
  - eapply same_trans; [apply add_zero_r; assumption|].
    apply same_sym, add_zero_r; assumption.
  - eapply same_trans; [apply add_zero_l; assumption|].
    apply same_sym, add_zero_l; assumption.
  - right; split; apply add_zero_zero; assumption.
Qed.

Lemma div_same a a' n : same a a' -> same (fdiv a n) (fdiv a' n).
Proof.
  intros [->|[Ha Ha']]; [apply same_refl|].
  destruct a as [sa| | |], a' as [sa'| | |]; try discriminate.
  destruct n as [sn|sn| |sn mn en]; cbn; try apply same_refl; right; auto.
Qed.

Lemma neg_same a a' : same a a' -> same (fneg a) (fneg a').
Proof.
  intros [->|[Ha Ha']]; [apply same_refl|].
  destruct a, a'; try discriminate. right; auto.
Qed.

Lemma sum_same xs ys : Forall2 same xs ys ->
  forall a a', same a a' -> same (fold_left fadd xs a) (fold_left fadd ys a').
Proof.
  induction 1 as [|x y xs ys Hxy _ IH]; intros a a' Ha; cbn [fold_left]; [exact Ha|].
  apply IH, add_same; assumption.
Qed.

Lemma masked_cons l k n x row :
  masked l k (S n) (x :: row) =
  fmul (astype_float (l =? Z.of_nat k)) x :: masked l (S k) n row.
Proof. reflexivity. Qed.

Lemma masked_after l : forall row n k acc,
  l < Z.of_nat k -> Forall (fun x => finite x = true) row ->
  same (fold_left fadd (masked l k n row) acc) acc.
Proof.
  induction row as [|x row IH]; intros n k acc Hl Hrow.
  - unfold masked. rewrite combine_nil. apply same_refl.
  - destruct n as [|n]; [apply same_refl|].
    rewrite masked_cons. cbn [fold_left].
    inversion Hrow as [|? ? Hx Hrest]; subst.
    replace (l =? Z.of_nat k) with false by (symmetry; apply Z.eqb_neq; lia).
    eapply same_trans; [apply IH; [lia|assumption]|].
    apply add_zero_r, mul_zero_finite, Hx.
Qed.

Lemma masked_before l : forall row n k acc,
  Z.of_nat k <= l < Z.of_nat k + Z.of_nat (length row) -> length row = n ->
  Forall (fun x => finite x = true) row -> is_zero acc = true ->
  same (fold_left fadd (masked l k n row) acc) (nth (Z.to_nat l - k) row fzero).
Proof.
  induction row as [|x row IH]; intros n k acc Hl Hn Hrow Hacc.
  - cbn [length] in Hl. lia.
  - destruct n as [|n]; [discriminate|]. injection Hn as Hn.
    rewrite masked_cons. cbn [fold_left].
    inversion Hrow as [|? ? Hx Hrest]; subst.
    destruct (Z.eqb_spec l (Z.of_nat k)) as [Heq|Hne].
    + replace (Z.to_nat l - k)%nat with 0%nat by lia. cbn [nth astype_float].
      rewrite (mul_one_finite _ Hx).
      eapply same_trans; [apply masked_after; [lia|assumption]|].
      apply add_zero_l, Hacc.
    + replace (Z.to_nat l - k)%nat with (S (Z.to_nat l - S k)) by lia. cbn [nth astype_float].
      apply IH; auto.
      * cbn [length] in Hl. lia.
      * apply add_zero_zero; [assumption|apply mul_zero_finite, Hx].
Qed.

Lemma int32_small (l : Z) : - 2 ^ 31 <= l < 2 ^ 31 -> int32 l = l.
Proof.
  intros Hl. unfold int32. rewrite Z.mod_small by lia. lia.
Qed.

Lemma onehot_row_length (l : Z) (n : nat) :
  length (map (fun c => astype_float (F := float32) (int32 l =? c)) (arange n)) = n.
Proof. unfold arange. rewrite !length_map, length_seq. reflexivity. Qed.

(** With one label per row and ten logits in every row, the product of
    the one-hot matrix and the logits is taken entry by entry. *)
Lemma mul_onehot_rows : forall (logits : list (list float32)) (labels : list Z),
  Forall (fun row => length row = 10%nat) logits ->
  length labels = length logits ->
  mul_elementwise (onehot labels 10) logits
  = inr (map (fun lr => masked (int32 (fst lr)) 0 10 (snd lr)) (combine labels logits)).
Proof.
  intros logits labels Hrows Hlen. unfold mul_elementwise.
  rewrite broadcast2_same_shape.
  - f_equal. unfold onehot. revert labels Hlen.
    induction logits as [|row logits IH]; intros [|l labels] Hlen; try discriminate;
      [reflexivity|].
    inversion Hrows; subst. cbn [map combine fst snd]. f_equal.
    apply IH; [assumption|]. cbn [length] in Hlen. lia.
  - unfold onehot. revert labels Hlen.
    induction logits as [|row logits IH]; intros [|l labels] Hlen; try discriminate;
      [constructor|].
    inversion Hrows as [|? ? Hrow Hrest]; subst. cbn [map]. constructor.
    + rewrite onehot_row_length. symmetry. exact Hrow.
    + apply IH; [assumption|]. cbn [length] in Hlen. lia.
Qed.

Lemma rows_same : forall logits labels,
  Forall finite_row logits -> Forall (fun l => 0 <= l < 10) labels ->
  length labels = length logits ->
  Forall2 same
    (map jnp_sum (map (fun lr => masked (int32 (fst lr)) 0 10 (snd lr))
                      (combine labels logits)))
    (label_logits logits labels).
Proof.
  induction logits as [|row logits IH]; intros [|l labels] Hrows Hlab Hlen;
    try discriminate; [constructor|].
  inversion Hrows as [|? ? [Hl10 Hfin] Hrows']; subst.
  inversion Hlab as [|? ? Hl Hlab']; subst.
  cbn [combine map fst snd]. constructor.
  - rewrite int32_small by lia.
    change (same (fold_left fadd (masked l 0 10 row) fzero) (nth (Z.to_nat l) row fzero)).
    replace (Z.to_nat l) with (Z.to_nat l - 0)%nat by lia.
    apply masked_before; auto. rewrite Hl10. cbn. lia.
  - apply IH; auto.
Qed.

(** C8 (as amended): on IEEE binary32, for a logits matrix with 10 columns
    whose entries are all finite and labels in 0..9, one per row,
    [cross_entropy_loss logits labels] returns a loss that is numerically
    equal to the negated mean over the rows of [logits[i, labels[i]]]. *)
Theorem cross_entropy_loss_finite (logits : list (list float32)) (labels : list Z) :
  Forall finite_row logits ->
  Forall (fun l => 0 <= l < 10) labels ->
  length labels = length logits ->
  exists loss,
    cross_entropy_loss logits labels = inr loss
    /\ same loss (fneg (jnp_mean (label_logits logits labels))).
Proof.
  intros Hrows Hlab Hlen.
  pose proof (rows_same logits labels Hrows Hlab Hlen) as Hsame.
  unfold cross_entropy_loss. rewrite mul_onehot_rows; [|
    eapply Forall_impl; [|exact Hrows]; intros row [Hrow _]; exact Hrow |assumption].
  cbn [rbind]. eexists. split; [reflexivity|].
  unfold jnp_mean.
  apply neg_same. rewrite (Forall2_length Hsame).
  apply div_same. apply sum_same; [exact Hsame|apply same_refl].
Qed.

Lemma cross_entropy_loss_finite_witness :
  Forall finite_row [Toy.picture 3 4] /\
  Forall (fun l => 0 <= l < 10) [1] /\
  length [1] = length [Toy.picture 3 4] /\
  exists loss,
    cross_entropy_loss [Toy.picture 3 4] [1] = inr loss
    /\ same loss (fneg (jnp_mean (label_logits [Toy.picture 3 4] [1]))).
Proof.
  assert (Hrows : Forall finite_row [Toy.picture 3 4]).
  { repeat constructor. }
  assert (Hlab : Forall (fun l => 0 <= l < 10) [1]).
  { repeat constructor; lia. }
  repeat split; try assumption.
  exact (cross_entropy_loss_finite [Toy.picture 3 4] [1] Hrows Hlab eq_refl).
Defined.

(** C8 (the claim as stated fails): with an infinite logit in a column
    other than the label's, the product with the one-hot zero is NaN, so the
    loss is NaN while the negated mean of the labelled logits is 1. *)
Lemma cross_entropy_loss_infinite_logit :
  length Toy.infinite_row = 10%nat
  /\ cross_entropy_loss [Toy.infinite_row] [0] = inr nan
  /\ fneg (jnp_mean (label_logits [Toy.infinite_row] [0])) = of_Z 1
  /\ cross_entropy_loss [Toy.infinite_row] [0]
     <> inr (fneg (jnp_mean (label_logits [Toy.infinite_row] [0]))).
Proof.
  repeat split; try (vm_compute; reflexivity).
  vm_compute. discriminate.
Qed.

End Float32Facts.

(** ** Reshaping *)

Section ReshapeFacts.
Context {A : Type}.

Lemma chunk_length (c k : nat) (xs : list A) : length (chunk c k xs) = c.
Proof. revert xs; induction c as [|c IH]; intros xs; cbn; [reflexivity|]. now rewrite IH. Qed.

Lemma chunk_pieces (c k : nat) : forall xs : list A,
  length xs = (c * k)%nat -> Forall (fun p => length p = k) (chunk c k xs).
Proof.
  induction c as [|c IH]; intros xs Hlen; cbn; constructor.
  - rewrite length_firstn. lia.
  - apply IH. rewrite length_skipn. lia.
Qed.

Lemma chunk_concat (c k : nat) : forall xs : list A,
  length xs = (c * k)%nat -> concat (chunk c k xs) = xs.
Proof.
  induction c as [|c IH]; intros xs Hlen; cbn.
  - destruct xs; [reflexivity|discriminate].
  - rewrite IH by (rewrite length_skipn; lia). apply firstn_skipn.
Qed.

Lemma chunk_nth (c k : nat) : forall (i : nat) (xs : list A),
  (i < c)%nat -> nth i (chunk c k xs) [] = firstn k (skipn (i * k) xs).
Proof.
  induction c as [|c IH]; intros i xs Hi; [lia|].
  destruct i as [|i]; cbn [chunk nth].
  - reflexivity.
  - rewrite IH by lia. rewrite skipn_skipn.
    replace (i * k + k)%nat with (S i * k)%nat by lia. reflexivity.
Qed.

Lemma reshape_leading_ok (d : nat) (xs : list A) :
  d <> 0%nat -> (length xs mod d = 0)%nat ->
  reshape_leading d xs = inr (chunk d (length xs / d) xs).
Proof.
  intros Hd Hmod. unfold reshape_leading.
  destruct (Nat.eqb_spec d 0) as [|_]; [contradiction|].
  rewrite Hmod. reflexivity.
Qed.

Lemma reshape_leading_inv (d : nat) (xs : list A) (rows : list (list A)) :
  reshape_leading d xs = inr rows ->
  d <> 0%nat /\ (length xs mod d = 0)%nat /\ rows = chunk d (length xs / d) xs.
Proof.
  unfold reshape_leading.
  destruct (Nat.eqb_spec d 0) as [|Hd]; [discriminate|].
  destruct (Nat.eqb_spec (length xs mod d) 0) as [Hmod|]; [|discriminate].
  cbn. intros [= <-]. auto.
Qed.

Lemma exact_division (n d : nat) :
  d <> 0%nat -> (n mod d = 0)%nat -> n = (d * (n / d))%nat.
Proof. intros Hd Hmod. pose proof (Nat.div_mod_eq n d). lia. Qed.

Lemma take_length (v : list A) : forall (perm : list nat) (xs : list A),
  take v perm = inr xs -> length xs = length perm.
Proof.
  induction perm as [|i perm IH]; intros xs; cbn.
  - intros [= <-]. reflexivity.
  - destruct (nth_error v i); [|discriminate].
    destruct (take v perm) as [e|ys]; cbn; [discriminate|].
    intros [= <-]. cbn. now rewrite (IH ys).
Qed.

Lemma take_ok (v : list A) : forall perm : list nat,
  Forall (fun i => (i < length v)%nat) perm -> exists xs, take v perm = inr xs.
Proof.
  induction perm as [|i perm IH]; intros Hall; cbn.
  - eexists; reflexivity.
  - inversion Hall as [|? ? Hi Hrest]; subst.
    destruct (nth_error v i) eqn:Hnth.
    + destruct (IH Hrest) as [ys ->]. cbn. eexists; reflexivity.
    + apply nth_error_None in Hnth. lia.
Qed.

End ReshapeFacts.

(** ** The cross-device mean *)

Section MeanFacts.
Context {F : Type} `{Scalar F} `{Platform}.

Lemma ndev_pos : (0 < ndev)%nat.
Proof. unfold ndev. apply Pos2Nat.is_pos. Qed.

Lemma map_constant {A B : Type} (c : B) (xs : list A) :
  map (fun _ => c) xs = repeat c (length xs).
Proof. induction xs as [|x xs IH]; cbn; [reflexivity|]. now rewrite IH. Qed.

Lemma pmean_leaf (x : list F) :
  map (fun s => fdiv s (of_count ndev)) (psum x)
  = repeat (fdiv (jnp_sum x) (of_count ndev)) (length x).
Proof. unfold psum. rewrite map_map. apply map_constant. Qed.

Lemma pmean_leaves {T : Type -> Type} `{PyTree T} (tree : T (list F)) :
  tree_leaves (pmean tree)
  = map (fun x => repeat (fdiv (jnp_sum x) (of_count ndev)) (length x)) (tree_leaves tree).
Proof.
  unfold pmean. rewrite tree_leaves_map. apply map_ext. intros x. apply pmean_leaf.
Qed.

Lemma compute_metrics_unsharded instances :
  compute_metrics instances false
  = rbind (sequence (map instance_metrics instances)) (fun values =>
    inr (mkMetrics (map fst values) (map snd values))).
Proof. reflexivity. Qed.

(** Sharded metrics: on every instance the same two numbers, the sums of
    the instances' values divided by the device count. *)
Lemma compute_metrics_pmean instances :
  compute_metrics instances true
  = rbind (sequence (map instance_metrics instances)) (fun values =>
    inr (mkMetrics
           (repeat (fdiv (jnp_sum (map fst values)) (of_count ndev)) (length instances))
           (repeat (fdiv (jnp_sum (map snd values)) (of_count ndev)) (length instances)))).
Proof.
  unfold compute_metrics.
  destruct (sequence (map instance_metrics instances)) as [e|values] eqn:Hseq;
    [reflexivity|].
  apply sequence_length in Hseq. rewrite length_map in Hseq.
  cbn [rbind]. unfold pmean. cbn [tree_map Metrics_pytree loss accuracy].
  rewrite !pmean_leaf, !length_map, Hseq. reflexivity.
Qed.

Lemma compute_metrics_sharded instances :
  length instances = ndev ->
  compute_metrics instances true
  = rbind (sequence (map instance_metrics instances)) (fun values =>
    inr (mkMetrics (repeat (jnp_mean (map fst values)) ndev)
                   (repeat (jnp_mean (map snd values)) ndev))).
Proof.
  intros Hlen. rewrite compute_metrics_pmean.
  destruct (sequence (map instance_metrics instances)) as [e|values] eqn:Hseq;
    [reflexivity|].
  apply sequence_length in Hseq. rewrite length_map in Hseq.
  cbn [rbind]. unfold jnp_mean. rewrite !length_map, Hseq, Hlen. reflexivity.
Qed.

End MeanFacts.

(** ** Runs of the training functions *)

Section TrainingFacts.
Context {F : Type} {SF : Scalar F} {PF : Platform} {FW : Framework F}.

Lemma for_each_cons {A St : Type} (x : A) (rest : list A) (st : St)
    (body : St -> A -> M St) (s : RandomState) :
  for_each (x :: rest) st body s =
  match body st x s with
  | (s1, ev1, inl e) => (s1, ev1, inl e)
  | (s1, ev1, inr st') =>
      match for_each rest st' body s1 with
      | (s2, ev2, r) => (s2, ev1 ++ ev2, r)
      end
  end.
Proof. reflexivity. Qed.

Lemma logged_app (ev1 ev2 : list event) : logged (ev1 ++ ev2) = logged ev1 ++ logged ev2.
Proof. apply filter_app. Qed.

Lemma step_calls_app (ev1 ev2 : list event) :
  step_calls (ev1 ++ ev2) = step_calls ev1 ++ step_calls ev2.
Proof. apply flat_map_app. Qed.

(** *** Errors raised inside the libraries *)

Lemma take_error {A : Type} (v : list A) : forall perm e,
  take v perm = inl e -> library_error e.
Proof.
  induction perm as [|i perm IH]; intros e; cbn; [discriminate|].
  destruct (nth_error v i); [|intros [= <-]; eexists; reflexivity].
  destruct (take v perm) as [e'|ys]; cbn; [|discriminate].
  intros [= <-]. apply IH. reflexivity.
Qed.

Lemma reshape_leading_error {A : Type} (d : nat) (xs : list A) e :
  reshape_leading d xs = inl e -> library_error e.
Proof.
  unfold reshape_leading. destruct (_ || _); [|discriminate].
  intros [= <-]. eexists; reflexivity.
Qed.

Lemma reshape2_error {A : Type} (xs : list A) r c e :
  reshape2 xs r c = inl e -> library_error e.
Proof.
  unfold reshape2.
  repeat match goal with
         | |- context [if ?b then _ else _] => destruct b
         end; try discriminate; intros [= <-]; eexists; reflexivity.
Qed.

Lemma take_batch_error ds perm e : take_batch ds perm = inl e -> library_error e.
Proof.
  unfold take_batch.
  destruct (take (image ds) perm) as [e1|i] eqn:Hi; cbn.
  - intros [= <-]. eapply take_error; eassumption.
  - destruct (take (label ds) perm) as [e2|l] eqn:Hl; cbn; [|discriminate].
    intros [= <-]. eapply take_error; eassumption.
Qed.

Lemma shard_error xs e : shard xs = inl e -> library_error e.
Proof.
  unfold shard.
  destruct (reshape_leading ndev (image xs)) as [e1|i] eqn:Hi; cbn.
  - intros [= <-]. eapply reshape_leading_error; eassumption.
  - destruct (reshape_leading ndev (label xs)) as [e2|l] eqn:Hl; cbn; [|discriminate].
    intros [= <-]. eapply reshape_leading_error; eassumption.
Qed.

Lemma library_error_origin origin : library_error (LibraryError origin).
Proof. eexists; reflexivity. Qed.

Lemma mul_elementwise_error (a b : list (list F)) e :
  mul_elementwise a b = inl e -> library_error e.
Proof.
  unfold mul_elementwise, broadcast2.
  apply broadcast_error; [|apply library_error_origin].
  intros r s e0. apply broadcast_error; [discriminate|apply library_error_origin].
Qed.

Lemma cross_entropy_loss_error (logits : list (list F)) labels e :
  cross_entropy_loss logits labels = inl e -> library_error e.
Proof.
  unfold cross_entropy_loss.
  destruct (mul_elementwise (onehot labels 10) logits) as [e1|products] eqn:Hmul;
    cbn [rbind]; [|discriminate].
  intros [= <-]. eapply mul_elementwise_error; eassumption.
Qed.

Lemma accuracy_of_error (logits : list (list F)) labels e :
  accuracy_of logits labels = inl e -> library_error e.
Proof.
  unfold accuracy_of.
  match goal with |- context [broadcast ?f ?xs ?ys] =>
    destruct (broadcast f xs ys) as [e1|hits] eqn:Hb end; cbn [rbind]; [|discriminate].
  intros [= <-]. revert Hb.
  apply broadcast_error; [discriminate|apply library_error_origin].
Qed.

Lemma instance_metrics_error (ll : list (list F) * list Z) e :
  instance_metrics ll = inl e -> library_error e.
Proof.
  unfold instance_metrics.
  destruct (cross_entropy_loss (fst ll) (snd ll)) as [e1|l] eqn:Hl; cbn [rbind].
  { intros [= <-]. eapply cross_entropy_loss_error; eassumption. }
  destruct (accuracy_of (fst ll) (snd ll)) as [e1|a] eqn:Ha; cbn [rbind]; [|discriminate].
  intros [= <-]. eapply accuracy_of_error; eassumption.
Qed.

Lemma compute_metrics_error instances sharded e :
  compute_metrics instances sharded = inl e -> library_error e.
Proof.
  unfold compute_metrics.
  destruct (sequence (map instance_metrics instances)) as [e1|values] eqn:Hseq;
    cbn [rbind]; [|discriminate].
  intros [= <-]. revert Hseq. apply sequence_error.
  apply Forall_forall. intros r Hin. apply in_map_iff in Hin as (ll & <- & _).
  intros e0. apply instance_metrics_error.
Qed.

Lemma loss_fn_error batch model e : loss_fn batch model = inl e -> library_error e.
Proof.
  unfold loss_fn.
  destruct (cross_entropy_loss (model_call model (image batch)) (label batch))
    as [e1|l] eqn:Hl; cbn [rbind]; [|discriminate].
  intros [= <-]. eapply cross_entropy_loss_error; eassumption.
Qed.

(** [train_step] in the order of its lines: the arguments are split over
    the program instances, the loss function is run and differentiated at
    the optimizer's target, the optimizer is updated, and the metrics are
    computed from the logits of that run. *)
Lemma train_step_run optimizer batch :
  train_step optimizer batch =
  match pmap_args optimizer batch with
  | inl e => inl e
  | inr instances =>
      match sequence (map (fun ob => value_and_grad (loss_fn (snd ob)) (target (fst ob)))
                          instances) with
      | inl e => inl e
      | inr out =>
          match compute_metrics
                  (combine (map (fun r => snd (fst r)) out)
                           (map (fun ob => label (snd ob)) instances)) true with
          | inl e => inl e
          | inr metrics =>
              inr (Optimizer_apply_gradient (map fst instances) (map snd out), metrics)
          end
      end
  end.
Proof.
  unfold train_step.
  destruct (pmap_args optimizer batch) as [e|instances]; [reflexivity|]. cbn [rbind].
  match goal with |- context [sequence ?rs] => destruct (sequence rs) as [e|out] end;
    [reflexivity|].
  cbn [rbind].
  match goal with |- context [compute_metrics ?i true] =>
    destruct (compute_metrics i true) as [e|metrics] end; reflexivity.
Qed.

(** What the program instances return from the loss function and its
    gradient, when none of them raises. *)
Lemma step_out_inv : forall (instances : list (Optimizer * Batch)) out,
  sequence (map (fun ob => value_and_grad (loss_fn (snd ob)) (target (fst ob))) instances)
  = inr out ->
  map snd out = map (fun ob => grad (loss_fn (snd ob)) (target (fst ob))) instances
  /\ map (fun r => snd (fst r)) out
     = map (fun ob => model_call (target (fst ob)) (image (snd ob))) instances
  /\ sequence (map (fun ob => cross_entropy_loss
                                 (model_call (target (fst ob)) (image (snd ob)))
                                 (label (snd ob))) instances)
     = inr (map (fun r => fst (fst r)) out).
Proof.
  induction instances as [|ob instances IH]; intros out; cbn [map sequence].
  - intros [= <-]. auto.
  - unfold value_and_grad at 1, loss_fn at 1.
    destruct (cross_entropy_loss (model_call (target (fst ob)) (image (snd ob)))
                                 (label (snd ob))) as [e|l]; cbn [rbind]; [discriminate|].
    match goal with |- context [sequence ?rs] => destruct (sequence rs) as [e|rest] eqn:Hrest end;
      cbn [rbind]; [discriminate|].
    intros [= <-]. destruct (IH rest eq_refl) as (Hg & Hl & Hc).
    cbn [map fst snd]. rewrite Hg, Hl, Hc. auto.
Qed.

Lemma step_out_error : forall (instances : list (Optimizer * Batch)) e,
  sequence (map (fun ob => value_and_grad (loss_fn (snd ob)) (target (fst ob))) instances)
  = inl e ->
  library_error e.
Proof.
  intros instances e. apply sequence_error.
  apply Forall_forall. intros r Hin. apply in_map_iff in Hin as (ob & <- & _).
  intros e0. unfold value_and_grad.
  destruct (loss_fn (snd ob) (target (fst ob))) as [e1|v] eqn:Hv; cbn [rbind];
    [|discriminate].
  intros [= <-]. eapply loss_fn_error; eassumption.
Qed.

Lemma train_step_error optimizer batch e :
  train_step optimizer batch = inl e -> library_error e.
Proof.
  rewrite train_step_run.
  destruct (pmap_args optimizer batch) as [e1|instances] eqn:Hargs.
  { unfold pmap_args in Hargs. destruct (_ && _); [discriminate|].
    injection Hargs as <-. intros [= <-]. apply library_error_origin. }
  match goal with |- context [sequence ?rs] => destruct (sequence rs) as [e1|out] eqn:Hout end.
  { intros [= <-]. eapply step_out_error; eassumption. }
  match goal with |- context [compute_metrics ?i true] =>
    destruct (compute_metrics i true) as [e1|metrics] eqn:Hm end; [|discriminate].
  intros [= <-]. eapply compute_metrics_error; eassumption.
Qed.

Lemma library_error_not_ValueError e msg : library_error e -> e <> ValueError msg.
Proof. intros [o ->]. discriminate. Qed.

(** *** Sharding *)

Lemma shard_inv xs b :
  shard xs = inr b ->
  (length (image xs) mod ndev = 0)%nat /\ (length (label xs) mod ndev = 0)%nat
  /\ images b = chunk ndev (length (image xs) / ndev) (image xs)
  /\ labels b = chunk ndev (length (label xs) / ndev) (label xs).
Proof.
  unfold shard.
  destruct (reshape_leading ndev (image xs)) as [e1|i] eqn:Hi; cbn; [discriminate|].
  destruct (reshape_leading ndev (label xs)) as [e2|l] eqn:Hl; cbn; [discriminate|].
  intros [= <-]. cbn.
  apply reshape_leading_inv in Hi. apply reshape_leading_inv in Hl. tauto.
Qed.

Lemma shard_ok xs n :
  length (image xs) = n -> length (label xs) = n -> (n mod ndev = 0)%nat ->
  shard xs = inr (mkSharded (chunk ndev (n / ndev) (image xs))
                            (chunk ndev (n / ndev) (label xs))).
Proof.
  intros Hi Hl Hmod. unfold shard.
  pose proof ndev_pos as Hd.
  rewrite !reshape_leading_ok by (try lia; rewrite ?Hi, ?Hl; assumption).
  cbn. rewrite Hi, Hl. reflexivity.
Qed.

Lemma sharded_shape_chunks (xs : Batch) n :
  length (image xs) = n -> length (label xs) = n -> (n mod ndev = 0)%nat ->
  sharded_shape (n / ndev)
    (mkSharded (chunk ndev (n / ndev) (image xs)) (chunk ndev (n / ndev) (label xs))).
Proof.
  intros Hi Hl Hmod. pose proof ndev_pos as Hd.
  assert (Hn : n = (ndev * (n / ndev))%nat) by (apply exact_division; lia).
  unfold sharded_shape; cbn. rewrite !chunk_length.
  repeat split; apply chunk_pieces; lia.
Qed.

Lemma take_batch_length ds perm xs :
  take_batch ds perm = inr xs ->
  length (image xs) = length perm /\ length (label xs) = length perm.
Proof.
  unfold take_batch.
  destruct (take (image ds) perm) as [e1|i] eqn:Hi; cbn; [discriminate|].
  destruct (take (label ds) perm) as [e2|l] eqn:Hl; cbn; [discriminate|].
  intros [= <-]. cbn. split; eapply take_length; eassumption.
Qed.

End TrainingFacts.


Section EpochFacts.
Context {F : Type} {SF : Scalar F} {PF : Platform} {FW : Framework F}.

Lemma map_fst_combine_same {A B : Type} : forall (xs : list A) (ys : list B),
  length ys = length xs -> map fst (combine xs ys) = xs.
Proof.
  induction xs as [|x xs IH]; intros [|y ys] Hlen; try discriminate; cbn.
  - reflexivity.
  - f_equal. apply IH. cbn in Hlen. lia.
Qed.

(** *** One step *)

Lemma pmap_args_length optimizer batch instances :
  pmap_args optimizer batch = inr instances ->
  length instances = length optimizer
  /\ length (images batch) = length optimizer
  /\ length (labels batch) = length optimizer
  /\ map fst instances = optimizer.
Proof.
  unfold pmap_args.
  destruct (Nat.eqb_spec (length optimizer) (length (images batch))) as [Hi|]; [|discriminate].
  destruct (Nat.eqb_spec (length optimizer) (length (labels batch))) as [Hl|]; [|discriminate].
  destruct (length optimizer <=? ndev)%nat; [|discriminate].
  cbn. intros [= <-].
  assert (Hlen : length (map (fun il => mkBatch (fst il) (snd il))
                            (combine (images batch) (labels batch))) = length optimizer).
  { rewrite length_map, length_combine. lia. }
  repeat split; try lia.
  - rewrite length_combine. lia.
  - apply map_fst_combine_same. lia.
Qed.

Lemma pmap_args_ok optimizer batch k :
  length optimizer = ndev -> sharded_shape k batch ->
  exists instances, pmap_args optimizer batch = inr instances.
Proof.
  intros Hopt (Hi & Hl & _). unfold pmap_args.
  rewrite Hopt, Hi, Hl, !Nat.eqb_refl, Nat.leb_refl. cbn. eexists; reflexivity.
Qed.

Lemma combine_maps {A B C : Type} (f : A -> B) (g : A -> C) (xs : list A) :
  combine (map f xs) (map g xs) = map (fun x => (f x, g x)) xs.
Proof. induction xs as [|x xs IH]; cbn; [reflexivity|]. now rewrite IH. Qed.

Lemma Optimizer_apply_gradient_length (optimizer : list Optimizer) (grads : list Model) :
  length grads = length optimizer ->
  length (Optimizer_apply_gradient optimizer grads) = length optimizer.
Proof.
  intros Hlen. unfold Optimizer_apply_gradient.
  rewrite length_map, length_combine. lia.
Qed.

Lemma train_step_inv optimizer batch optimizer' metrics :
  train_step optimizer batch = inr (optimizer', metrics) ->
  length optimizer' = length optimizer.
Proof.
  rewrite train_step_run.
  destruct (pmap_args optimizer batch) as [e|instances] eqn:Hargs; [discriminate|].
  match goal with |- context [sequence ?rs] => destruct (sequence rs) as [e|out] eqn:Hout end;
    [discriminate|].
  match goal with |- context [compute_metrics ?i true] =>
    destruct (compute_metrics i true) as [e|m] end; [discriminate|].
  intros [= <- _]. apply pmap_args_length in Hargs as (Hlen & _ & _ & Hfst).
  apply sequence_length in Hout. rewrite length_map in Hout.
  rewrite Hfst, Optimizer_apply_gradient_length; [reflexivity|].
  rewrite length_map. lia.
Qed.

(** *** Shapes along a step *)

Lemma model_call_shape {shapes : ShapeLaws FW} model (x : list Tensor) :
  length (model_call model x) = length x
  /\ Forall (fun row => length row = 10%nat) (model_call model x).
Proof.
  unfold model_call, CNN_apply. split.
  - rewrite length_map, nn_log_softmax_examples, nn_Dense_examples, nn_relu_examples,
      nn_Dense_examples, flatten_examples, nn_avg_pool_examples, nn_relu_examples,
      nn_Conv_examples, nn_avg_pool_examples, nn_relu_examples, nn_Conv_examples.
    reflexivity.
  - apply Forall_map. apply nn_log_softmax_features, nn_Dense_features.
Qed.

Lemma onehot_shape (labels : list Z) (n : nat) :
  Forall (fun row : list F => length row = n) (onehot labels n).
Proof.
  unfold onehot, arange. apply Forall_map, Forall_forall. intros l _.
  rewrite !length_map, length_seq. reflexivity.
Qed.

Lemma cross_entropy_loss_ok (logits : list (list F)) (labels : list Z) :
  length labels = length logits ->
  Forall (fun row => length row = 10%nat) logits ->
  exists l, cross_entropy_loss logits labels = inr l.
Proof.
  intros Hlen Hrows. unfold cross_entropy_loss, mul_elementwise.
  rewrite broadcast2_same_shape; [eexists; reflexivity|].
  pose proof (onehot_shape labels 10) as Hone.
  assert (Hl : length (onehot labels 10 : list (list F)) = length logits)
    by (unfold onehot; rewrite length_map; exact Hlen).
  clear Hlen. revert Hl Hone Hrows. generalize (onehot labels 10 : list (list F)).
  induction logits as [|row logits IH]; intros [|r rows] Hl Hone Hrows;
    try discriminate Hl; constructor.
  - inversion Hone; inversion Hrows; subst. congruence.
  - inversion Hone; inversion Hrows; subst. apply IH; auto.
Qed.

Lemma accuracy_of_ok (logits : list (list F)) (labels : list Z) :
  length labels = length logits ->
  exists a, accuracy_of logits labels = inr a.
Proof.
  intros Hlen. unfold accuracy_of.
  rewrite broadcast_same_length by (rewrite length_map; lia).
  eexists; reflexivity.
Qed.

Lemma instance_metrics_ok (ll : list (list F) * list Z) :
  length (snd ll) = length (fst ll) ->
  Forall (fun row => length row = 10%nat) (fst ll) ->
  exists la, instance_metrics ll = inr la.
Proof.
  intros Hlen Hrows. unfold instance_metrics.
  destruct (cross_entropy_loss_ok _ _ Hlen Hrows) as [l ->].
  destruct (accuracy_of_ok _ _ Hlen) as [a ->].
  eexists; reflexivity.
Qed.

(** The pieces that the program instances are given have the sizes of
    the sharded batch. *)
Lemma instances_shape optimizer batch instances k :
  pmap_args optimizer batch = inr instances -> sharded_shape k batch ->
  Forall (fun ob : Optimizer * Batch =>
            length (image (snd ob)) = k /\ length (label (snd ob)) = k) instances.
Proof.
  unfold pmap_args. destruct (_ && _); [|discriminate]. intros [= <-].
  intros (_ & _ & Hi & Hl). apply Forall_forall. intros [o b] Hin.
  apply in_combine_r in Hin. apply in_map_iff in Hin as ([i l] & <- & Hin).
  cbn [fst snd image label]. rewrite Forall_forall in Hi, Hl. split.
  - apply Hi. eapply in_combine_l. eassumption.
  - apply Hl. eapply in_combine_r. eassumption.
Qed.

Lemma train_step_ok {shapes : ShapeLaws FW} optimizer batch k :
  length optimizer = ndev -> sharded_shape k batch ->
  exists optimizer' metrics,
    train_step optimizer batch = inr (optimizer', metrics)
    /\ length optimizer' = ndev.
Proof.
  intros Hopt Hshape.
  destruct (pmap_args_ok optimizer batch k Hopt Hshape) as [instances Hargs].
  pose proof (instances_shape _ _ _ _ Hargs Hshape) as Hsizes.
  assert (Hstep : exists om, train_step optimizer batch = inr om).
  { rewrite train_step_run, Hargs.
    destruct (sequence_ok (map (fun ob : Optimizer * Batch =>
                                  value_and_grad (loss_fn (snd ob)) (target (fst ob)))
                               instances)) as [out Hout].
    { apply Forall_map. eapply Forall_impl; [|exact Hsizes].
      intros ob [Hi Hl]. unfold value_and_grad, loss_fn.
      destruct (model_call_shape (target (fst ob)) (image (snd ob))) as [Hrows Hcols].
      destruct (cross_entropy_loss_ok (model_call (target (fst ob)) (image (snd ob)))
                  (label (snd ob)) ltac:(lia) Hcols) as [l ->].
      eexists; reflexivity. }
    rewrite Hout. destruct (step_out_inv _ _ Hout) as (_ & -> & _).
    rewrite combine_maps.
    match goal with |- context [compute_metrics ?i true] =>
      assert (Hm : exists m, compute_metrics i true = inr m) end.
    { unfold compute_metrics. rewrite map_map.
      match goal with |- context [sequence ?rs] =>
        destruct (sequence_ok rs) as [values ->] end; [|eexists; reflexivity].
      apply Forall_map. eapply Forall_impl; [|exact Hsizes].
      intros ob [Hi Hl].
      destruct (model_call_shape (target (fst ob)) (image (snd ob))) as [Hrows Hcols].
      apply instance_metrics_ok; cbn [fst snd]; [lia|assumption]. }
    destruct Hm as [m ->]. eexists; reflexivity. }
  destruct Hstep as [[optimizer' metrics] Hstep].
  exists optimizer', metrics. split; [assumption|].
  apply train_step_inv in Hstep. lia.
Qed.

(** *** The loop over the batches of an epoch *)

Lemma train_epoch_body_run ds st perm s :
  train_epoch_body ds st perm s =
  match rbind (take_batch ds perm) shard with
  | inl e => (s, [], inl e)
  | inr batch =>
      match train_step (fst st) batch with
      | inl e => (s, [StepCall batch], inl e)
      | inr om => (s, [StepCall batch], inr (fst om, snd st ++ [snd om]))
      end
  end.
Proof.
  unfold train_epoch_body, bind, lift, emit, ret.
  destruct (rbind (take_batch ds perm) shard) as [e|batch]; [reflexivity|].
  destruct (train_step (fst st) batch) as [e|om]; reflexivity.
Qed.

Lemma batch_error ds perm e :
  rbind (take_batch ds perm) shard = inl e -> library_error e.
Proof.
  destruct (take_batch ds perm) as [e1|xs] eqn:Ht; cbn.
  - intros [= <-]. eapply take_batch_error; eassumption.
  - apply shard_error.
Qed.

Lemma epoch_loop_spec ds : forall perms optimizer batch_metrics s s' ev r,
  for_each perms (optimizer, batch_metrics) (train_epoch_body ds) s = (s', ev, r) ->
  s' = s /\ logged ev = []
  /\ Forall (fun b => exists perm, In perm perms
                                 /\ rbind (take_batch ds perm) shard = inr b)
            (step_calls ev)
  /\ match r with
     | inl e => library_error e
     | inr (optimizer', metrics) =>
         exists ms, run_steps optimizer (step_calls ev) = inr (optimizer', ms)
                    /\ metrics = batch_metrics ++ ms
                    /\ length ms = length perms
     end.
Proof.
  induction perms as [|perm perms IH]; intros optimizer batch_metrics s s' ev r.
  - cbn. intros [= <- <- <-]. repeat split; try constructor.
    exists []. rewrite app_nil_r. auto.
  - rewrite for_each_cons, train_epoch_body_run.
    destruct (rbind (take_batch ds perm) shard) as [e|batch] eqn:Hbatch.
    { intros [= <- <- <-]. repeat split; try constructor.
      eapply batch_error; eassumption. }
    cbn [fst snd].
    destruct (train_step optimizer batch) as [e|[optimizer1 m1]] eqn:Hstep.
    { intros [= <- <- <-]. cbn. repeat split.
      - constructor; [|constructor]. exists perm. split; [left; reflexivity|assumption].
      - eapply train_step_error; eassumption. }
    cbn [fst snd].
    destruct (for_each perms (optimizer1, batch_metrics ++ [m1]) (train_epoch_body ds) s)
      as [[s2 ev2] r2] eqn:Hrest.
    intros [= <- <- <-].
    destruct (IH _ _ _ _ _ _ Hrest) as (Hs & Hlog & Hcalls & Hr).
    repeat split.
    + assumption.
    + cbn. assumption.
    + cbn. constructor.
      * exists perm. split; [left; reflexivity|assumption].
      * eapply Forall_impl; [|exact Hcalls].
        intros b (p & Hin & Hb). exists p. split; [right; assumption|assumption].
    + destruct r2 as [e|[optimizer' metrics]]; [assumption|].
      destruct Hr as (ms & Hrun & Hms & Hlen).
      exists (m1 :: ms).
      change (step_calls (StepCall batch :: ev2)) with (batch :: step_calls ev2).
      cbn [run_steps]. rewrite Hstep. cbn [rbind fst snd].
      rewrite Hrun. cbn [rbind fst snd length].
      repeat split.
      * rewrite Hms, <- app_assoc. reflexivity.
      * lia.
Qed.

(** *** The epoch *)

Lemma train_epoch_run optimizer ds bs epoch s :
  train_epoch optimizer ds bs epoch s =
  if bs mod Z.pos device_count >? 0
  then (s, [], inl (ValueError divisibility_message))
  else
    match floordiv (Z.of_nat (length (image ds))) bs with
    | inl e => (s, [], inl e)
    | inr steps =>
        match reshape2 (slice_to (fst (permutation s (length (image ds)))) (steps * bs))
                       steps bs with
        | inl e => (snd (permutation s (length (image ds))), [], inl e)
        | inr perms =>
            match for_each perms (optimizer, []) (train_epoch_body ds)
                           (snd (permutation s (length (image ds)))) with
            | (s2, ev, inl e) => (s2, ev, inl e)
            | (s2, ev, inr st) =>
                match snd st with
                | [] => (s2, ev, inl IndexError)
                | _ :: _ =>
                    (s2,
                     ev ++ [LogTrain epoch (loss (epoch_metrics (snd st)))
                              (times_100 (accuracy (epoch_metrics (snd st))))],
                     inr (fst st, epoch_metrics (snd st)))
                end
            end
        end
    end.
Proof.
  unfold train_epoch.
  destruct (bs mod Z.pos device_count >? 0); [reflexivity|].
  unfold bind, lift, rng_permutation, raise, emit, ret.
  destruct (floordiv (Z.of_nat (length (image ds))) bs) as [e|steps]; [reflexivity|].
  destruct (permutation s (length (image ds))) as [p s1]. cbn [fst snd].
  destruct (reshape2 (slice_to p (steps * bs)) steps bs) as [e|perms]; [reflexivity|].
  destruct (for_each perms (optimizer, []) (train_epoch_body ds) s1) as [[s2 ev] [e|st]].
  - rewrite ?app_nil_r. reflexivity.
  - destruct (snd st) as [|m ms]; cbn; rewrite ?app_nil_r; reflexivity.
Qed.

End EpochFacts.

Section StepAndEpochTheorems.
Context {F : Type} {SF : Scalar F} {PF : Platform} {FW : Framework F}.

Lemma map_snd_combine_same {A B : Type} : forall (xs : list A) (ys : list B),
  length xs = length ys -> map snd (combine xs ys) = ys.
Proof.
  induction xs as [|x xs IH]; intros [|y ys] Hlen; try discriminate; cbn.
  - reflexivity.
  - f_equal. apply IH. cbn in Hlen. lia.
Qed.

(** The loss function and its gradient on the program instances: the
    losses of the forward passes at the targets, or the first exception
    among them, and with each loss the logits of that pass and the
    gradient at that target. *)
Lemma step_out_spec : forall instances : list (Optimizer * Batch),
  sequence (map (fun ob => value_and_grad (loss_fn (snd ob)) (target (fst ob))) instances)
  = rbind (sequence (map (fun ob => cross_entropy_loss
                                      (model_call (target (fst ob)) (image (snd ob)))
                                      (label (snd ob))) instances)) (fun losses =>
    inr (map (fun lob => ((fst lob, model_call (target (fst (snd lob))) (image (snd (snd lob)))),
                          grad (loss_fn (snd (snd lob))) (target (fst (snd lob)))))
             (combine losses instances))).
Proof.
  induction instances as [|ob instances IH]; [reflexivity|].
  cbn [map sequence]. rewrite IH. unfold value_and_grad at 1, loss_fn at 1.
  destruct (cross_entropy_loss (model_call (target (fst ob)) (image (snd ob)))
                               (label (snd ob))) as [e|l]; cbn [rbind]; [reflexivity|].
  match goal with |- context [sequence ?rs] => destruct (sequence rs) as [e|losses] end;
    reflexivity.
Qed.

(** C2: a training step runs the forward pass of every program instance
    on the parameters the optimizer holds when the step begins, takes the
    loss from those logits and the gradient at those parameters, updates
    the optimizer with the gradient (its mean over the instances when the
    optimizer is a replicated one), and computes the metrics it returns
    from the logits of that forward pass and the labels: the model after
    the update enters neither the loss nor the metrics. *)
Theorem train_step_uses_pre_update_model optimizer batch instances :
  pmap_args optimizer batch = inr instances ->
  train_step optimizer batch
  = rbind (sequence (map (fun ob => cross_entropy_loss
                                      (model_call (target (fst ob)) (image (snd ob)))
                                      (label (snd ob))) instances)) (fun _ =>
    rbind (compute_metrics
             (map (fun ob => (model_call (target (fst ob)) (image (snd ob)),
                              label (snd ob))) instances) true) (fun metrics =>
    inr (map (fun ob =>
                apply_gradient (fst ob)
                  (if averages (fst ob)
                   then cross_replica_mean
                          (map (fun ob' => grad (loss_fn (snd ob')) (target (fst ob')))
                               instances)
                   else grad (loss_fn (snd ob)) (target (fst ob))))
             instances,
         metrics))).
Proof.
  intros Hargs. rewrite train_step_run, Hargs, step_out_spec.
  match goal with |- context [sequence ?rs] =>
    destruct (sequence rs) as [e|losses] eqn:Hlosses end; [reflexivity|].
  cbn [rbind]. apply sequence_length in Hlosses. rewrite length_map in Hlosses.
  rewrite !map_map. cbn [fst snd].
  assert (Hlogits :
    map (fun lob : F * (Optimizer * Batch) =>
           model_call (target (fst (snd lob))) (image (snd (snd lob))))
        (combine losses instances)
    = map (fun ob => model_call (target (fst ob)) (image (snd ob))) instances).
  { rewrite <- (map_map snd (fun ob : Optimizer * Batch =>
                              model_call (target (fst ob)) (image (snd ob)))).
    rewrite map_snd_combine_same by assumption. reflexivity. }
  assert (Hgrads :
    map (fun lob : F * (Optimizer * Batch) =>
           grad (loss_fn (snd (snd lob))) (target (fst (snd lob))))
        (combine losses instances)
    = map (fun ob => grad (loss_fn (snd ob)) (target (fst ob))) instances).
  { rewrite <- (map_map snd (fun ob : Optimizer * Batch =>
                              grad (loss_fn (snd ob)) (target (fst ob)))).
    rewrite map_snd_combine_same by assumption. reflexivity. }
  rewrite Hlogits, Hgrads, combine_maps.
  match goal with |- context [compute_metrics ?i true] =>
    destruct (compute_metrics i true) as [e|metrics] end; [reflexivity|].
  cbn [rbind]. f_equal. f_equal.
  unfold Optimizer_apply_gradient. rewrite combine_maps, map_map. reflexivity.
Qed.

(** C3 (as amended): the one exception the script raises itself is the
    [ValueError] of [train_epoch]; it is raised exactly when the batch
    size is not a multiple of the device count, before anything else
    happens, and [train] lets it through unhandled. *)
Theorem train_epoch_raises_iff_indivisible optimizer train_ds bs epoch s :
  (bs mod Z.pos device_count > 0 ->
   train_epoch optimizer train_ds bs epoch s
   = (s, [], inl (ValueError divisibility_message)))
  /\ (forall s' ev msg,
        train_epoch optimizer train_ds bs epoch s = (s', ev, inl (ValueError msg)) ->
        bs mod Z.pos device_count > 0)
  /\ (forall lr beta n test_ds,
        bs mod Z.pos device_count > 0 -> 1 <= n ->
        train (mkFlags lr beta bs n) train_ds test_ds s
        = (RandomState_of_seed 0, [], inl (ValueError divisibility_message))).
Proof.
  split; [|split].
  - intros Hmod. rewrite train_epoch_run.
    destruct (Z.gtb_spec (bs mod Z.pos device_count) 0); [reflexivity|lia].
  - intros s' ev msg. rewrite train_epoch_run.
    destruct (Z.gtb_spec (bs mod Z.pos device_count) 0) as [Hgt|_]; [lia|].
    unfold floordiv. destruct (bs =? 0); [discriminate|].
    match goal with |- context [reshape2 ?xs ?r ?c] =>
      destruct (reshape2 xs r c) as [e|perms] eqn:Hreshape end.
    { intros [= _ _ ->]. apply reshape2_error in Hreshape.
      destruct Hreshape; discriminate. }
    match goal with |- context [for_each ?xs ?st ?b ?s0] =>
      destruct (for_each xs st b s0) as [[s2 ev2] [e|st']] eqn:Hloop end.
    { intros [= _ _ ->]. apply epoch_loop_spec in Hloop as (_ & _ & _ & Herr).
      destruct Herr; discriminate. }
    destruct (snd st'); discriminate.
  - intros lr beta n test_ds Hmod Hn.
    unfold train. cbn [batch_size num_epochs].
    unfold range.
    replace (Z.to_nat (n + 1 - 1)) with (S (Z.to_nat (n - 1))) by lia.
    cbn [seq map]. unfold bind at 1. cbn [set_rng].
    rewrite for_each_cons. unfold train_body at 1. unfold bind at 1.
    rewrite train_epoch_run.
    destruct (Z.gtb_spec (bs mod Z.pos device_count) 0); [reflexivity|lia].
Qed.

End StepAndEpochTheorems.

Section ShardingTheorems.
Context {F : Type} {SF : Scalar F} {PF : Platform} {FW : Framework F}.

Lemma reshape2_pos {A : Type} (xs : list A) r c rows :
  0 <= r -> 0 < c -> reshape2 xs r c = inr rows ->
  rows = chunk (Z.to_nat r) (Z.to_nat c) xs
  /\ length xs = (Z.to_nat r * Z.to_nat c)%nat.
Proof.
  intros Hr Hc. unfold reshape2.
  destruct (Z.ltb_spec r (-1)); [lia|]. destruct (Z.ltb_spec c (-1)); [lia|].
  destruct (Z.eqb_spec r (-1)); [lia|]. destruct (Z.eqb_spec c (-1)); [lia|].
  cbn [orb andb].
  destruct (Z.eqb_spec (r * c) (Z.of_nat (length xs))) as [Hn|]; [|discriminate].
  intros [= <-]. split; [reflexivity|].
  rewrite <- Z2Nat.inj_mul, Hn, Nat2Z.id by lia. reflexivity.
Qed.

Lemma reshape2_neg {A : Type} (xs : list A) r c :
  r <= 0 -> c < 0 -> exists e, reshape2 xs r c = inl e.
Proof.
  intros Hr Hc. unfold reshape2.
  destruct (Z.ltb_spec r (-1)); [eexists; reflexivity|].
  destruct (Z.ltb_spec c (-1)); [eexists; reflexivity|].
  cbn [orb].
  destruct (Z.eqb_spec r (-1)); destruct (Z.eqb_spec c (-1)); cbn [andb];
    try lia; try (eexists; reflexivity).
  destruct (Z.eqb_spec r 0); [|lia]. eexists; reflexivity.
Qed.

Lemma floordiv_nonpos a b : 0 <= a -> b < 0 -> a / b <= 0.
Proof.
  intros Ha Hb. rewrite <- Z.div_opp_opp by lia.
  assert (- a / - b < 1) by (apply Z.div_lt_upper_bound; lia). lia.
Qed.

Lemma chunk_In {A : Type} (c k : nat) : forall (xs p : list A),
  length xs = (c * k)%nat -> In p (chunk c k xs) -> length p = k.
Proof.
  intros xs p Hlen Hin.
  pose proof (chunk_pieces c k xs Hlen) as Hall.
  rewrite Forall_forall in Hall. auto.
Qed.

(** What [shard] does to a batch whose size the device count divides. *)
Lemma shard_layout (xs : Batch) (n : nat) :
  length (image xs) = n -> length (label xs) = n -> (n mod ndev = 0)%nat ->
  exists b,
    shard xs = inr b
    /\ sharded_shape (n / ndev) b
    /\ concat (images b) = image xs /\ concat (labels b) = label xs
    /\ forall i, (i < ndev)%nat ->
         nth i (images b) [] = firstn (n / ndev) (skipn (i * (n / ndev)) (image xs))
         /\ nth i (labels b) [] = firstn (n / ndev) (skipn (i * (n / ndev)) (label xs)).
Proof.
  intros Hi Hl Hmod. pose proof ndev_pos as Hd.
  assert (Hn : n = (ndev * (n / ndev))%nat) by (apply exact_division; lia).
  eexists. split; [apply shard_ok; eassumption|].
  split; [apply sharded_shape_chunks; assumption|]. cbn [images labels].
  split; [apply chunk_concat; lia|]. split; [apply chunk_concat; lia|].
  intros i Hlt. split; apply chunk_nth; assumption.
Qed.

(** C5: when the device count divides the batch size, [shard] gives every
    array a leading axis of one entry per device, each entry holding
    [batch_size / device_count] consecutive examples, the entries in
    order making up the array again; and every batch that [train_epoch]
    hands to [train_step] is such a sharded batch of [batch_size]
    examples taken from the training set. *)
Theorem shard_distributes_batch :
  (forall (xs : Batch) (n : nat),
     length (image xs) = n -> length (label xs) = n -> (n mod ndev = 0)%nat ->
     exists b,
       shard xs = inr b
       /\ sharded_shape (n / ndev) b
       /\ concat (images b) = image xs /\ concat (labels b) = label xs
       /\ forall i, (i < ndev)%nat ->
            nth i (images b) [] = firstn (n / ndev) (skipn (i * (n / ndev)) (image xs))
            /\ nth i (labels b) [] = firstn (n / ndev) (skipn (i * (n / ndev)) (label xs)))
  /\ (forall optimizer train_ds bs epoch s s' ev r,
        train_epoch optimizer train_ds bs epoch s = (s', ev, r) ->
        Forall (fun b =>
                  sharded_shape (Z.to_nat bs / ndev) b
                  /\ exists perm xs,
                       length perm = Z.to_nat bs
                       /\ take_batch train_ds perm = inr xs
                       /\ shard xs = inr b
                       /\ concat (images b) = image xs
                       /\ concat (labels b) = label xs)
               (step_calls ev)).
Proof.
  split; [exact shard_layout|].
  intros optimizer ds bs epoch s s' ev r. rewrite train_epoch_run.
  destruct (bs mod Z.pos device_count >? 0); [intros [= _ <- _]; constructor|].
  unfold floordiv. destruct (Z.eqb_spec bs 0) as [|Hbs]; [intros [= _ <- _]; constructor|].
  set (n := length (image ds)). set (steps := Z.of_nat n / bs).
  set (p := slice_to (fst (permutation s n)) (steps * bs)).
  destruct (reshape2 p steps bs) as [e|perms] eqn:Hreshape;
    [intros [= _ <- _]; constructor|].
  assert (Hpos : 0 < bs).
  { destruct (Z.lt_trichotomy bs 0) as [Hneg|[?|?]]; [|lia|assumption].
    destruct (reshape2_neg p steps bs) as [e He]; [|assumption|congruence].
    apply floordiv_nonpos; lia. }
  apply reshape2_pos in Hreshape as [Hperms Hlen];
    [|apply Z.div_pos; lia|assumption].
  destruct (for_each perms (optimizer, []) (train_epoch_body ds) (snd (permutation s n)))
    as [[s2 ev2] r2] eqn:Hloop.
  apply epoch_loop_spec in Hloop as (_ & _ & Hcalls & _).
  assert (Hgoal : Forall (fun b =>
                  sharded_shape (Z.to_nat bs / ndev) b
                  /\ exists perm xs,
                       length perm = Z.to_nat bs
                       /\ take_batch ds perm = inr xs
                       /\ shard xs = inr b
                       /\ concat (images b) = image xs
                       /\ concat (labels b) = label xs) (step_calls ev2)).
  { eapply Forall_impl; [|exact Hcalls].
    intros b (perm & Hin & Hb).
    assert (Hpl : length perm = Z.to_nat bs).
    { subst perms. eapply chunk_In; eassumption. }
    destruct (take_batch ds perm) as [e|xs] eqn:Htake; [discriminate|]. cbn in Hb.
    apply take_batch_length in Htake as Hxs. destruct Hxs as [Hxi Hxl].
    pose proof (shard_inv _ _ Hb) as (Hmi & Hml & Him & Hlb).
    rewrite Hxi, Hpl in Hmi.
    destruct (shard_layout xs (Z.to_nat bs)) as (b' & Hb' & Hshape & Hci & Hcl & _);
      try lia.
    assert (b' = b) by congruence. subst b'.
    split; [assumption|]. exists perm, xs. auto. }
  destruct r2 as [e|st].
  - intros [= _ <- _]. assumption.
  - destruct (snd st); intros [= _ <- _]; [assumption|].
    rewrite step_calls_app. cbn. rewrite app_nil_r. assumption.
Qed.

(** C6: [pmean] replaces every leaf by the sum of the leaf's values over
    the devices divided by the device count, the same value on every
    device; so each metric that [compute_metrics] returns under [pmap] is
    the arithmetic mean of the per-device values of that metric, held by
    every device (and [compute_metrics] raises when the metrics of a
    device raise). *)
Theorem pmean_is_cross_device_mean
    {T : Type -> Type} `{PyTree T} (tree : T (list F))
    (instances : list (list (list F) * list Z)) :
  Forall (fun x => length x = ndev) (tree_leaves tree) ->
  length instances = ndev ->
  tree_leaves (pmean tree)
  = map (fun x => repeat (fdiv (jnp_sum x) (of_count ndev)) ndev) (tree_leaves tree)
  /\ compute_metrics instances true
     = rbind (sequence (map instance_metrics instances)) (fun values =>
       inr (mkMetrics (repeat (jnp_mean (map fst values)) ndev)
                      (repeat (jnp_mean (map snd values)) ndev))).
Proof.
  intros Hleaves Hlen. split.
  - rewrite pmean_leaves. apply map_ext_in. intros x Hin.
    rewrite Forall_forall in Hleaves. rewrite (Hleaves x Hin). reflexivity.
  - apply compute_metrics_sharded; assumption.
Qed.

End ShardingTheorems.

Section EpochMeanTheorems.
Context {F : Type} {SF : Scalar F} {PF : Platform} {FW : Framework F}.

Lemma train_step_metrics_replicated optimizer batch optimizer' m :
  train_step optimizer batch = inr (optimizer', m) ->
  length (images batch) = ndev ->
  exists la, m = replicated_metrics la.
Proof.
  rewrite train_step_run.
  destruct (pmap_args optimizer batch) as [e|instances] eqn:Hargs; [discriminate|].
  match goal with |- context [sequence ?rs] => destruct (sequence rs) as [e|out] eqn:Hout end;
    [discriminate|].
  match goal with |- context [compute_metrics ?i true] =>
    destruct (compute_metrics i true) as [e|metrics] eqn:Hm end; [discriminate|].
  intros [= _ <-] Hdev.
  apply pmap_args_length in Hargs as (Hlen & Hi & _ & _).
  apply sequence_length in Hout. rewrite length_map in Hout.
  rewrite compute_metrics_sharded in Hm
    by (rewrite length_combine, !length_map; lia).
  match type of Hm with context [sequence ?rs] => destruct (sequence rs) as [e|values] end;
    [discriminate|].
  injection Hm as <-. eexists (_, _). reflexivity.
Qed.

Lemma run_steps_replicated : forall calls optimizer optimizer' ms,
  Forall (fun b => length (images b) = ndev) calls ->
  run_steps optimizer calls = inr (optimizer', ms) ->
  exists per_step,
    ms = map replicated_metrics per_step /\ length per_step = length calls.
Proof.
  induction calls as [|b calls IH]; intros optimizer optimizer' ms Hall; cbn [run_steps].
  - intros [= _ <-]. exists []. auto.
  - inversion Hall as [|? ? Hb Hrest]; subst.
    destruct (train_step optimizer b) as [e|[optimizer1 m1]] eqn:Hstep; cbn [rbind];
      [discriminate|].
    cbn [fst snd].
    destruct (run_steps optimizer1 calls) as [e|[optimizer2 ms2]] eqn:Hrun; cbn [rbind];
      [discriminate|].
    cbn [fst snd]. intros [= _ <-].
    destruct (train_step_metrics_replicated _ _ _ _ Hstep Hb) as [la ->].
    destruct (IH _ _ _ Hrest Hrun) as (per_step & -> & Hlen).
    exists (la :: per_step). cbn. auto.
Qed.

Lemma concat_singletons {A B : Type} (f : A -> B) (xs : list A) :
  concat (map (fun x => [f x]) xs) = map f xs.
Proof. induction xs as [|x xs IH]; cbn; [reflexivity|]. now rewrite IH. Qed.

Lemma step_calls_log (ev : list event) epoch l a :
  step_calls (ev ++ [LogTrain epoch l a]) = step_calls ev.
Proof. rewrite step_calls_app. cbn. apply app_nil_r. Qed.

(** C7 (as amended): the metrics [train_epoch] returns and logs are, for
    the loss and for the accuracy, numpy's mean over the array that holds
    for every step of the epoch the value the step returned for that
    metric, once per device.  On a single device that is numpy's mean of
    one value per step; the percentage that is logged is the accuracy
    times 100 on the host. *)
Theorem epoch_metrics_are_step_means
    optimizer train_ds bs epoch s s' ev optimizer' m :
  train_epoch optimizer train_ds bs epoch s = (s', ev, inr (optimizer', m)) ->
  exists per_step : list (F * F),
    run_steps optimizer (step_calls ev) = inr (optimizer', map replicated_metrics per_step)
    /\ length per_step = length (step_calls ev)
    /\ per_step <> []
    /\ loss m = onp_mean (map (fun la => repeat (fst la) ndev) per_step)
    /\ accuracy m = onp_mean (map (fun la => repeat (snd la) ndev) per_step)
    /\ (ndev = 1%nat ->
        loss m = onp_mean (map (fun la => [fst la]) per_step)
        /\ accuracy m = onp_mean (map (fun la => [snd la]) per_step))
    /\ logged ev = [LogTrain epoch (loss m) (times_100 (accuracy m))].
Proof.
  rewrite train_epoch_run.
  destruct (bs mod Z.pos device_count >? 0); [discriminate|].
  destruct (floordiv _ bs) as [e|steps]; [discriminate|].
  match goal with |- context [reshape2 ?xs ?r ?c] =>
    destruct (reshape2 xs r c) as [e|perms] end; [discriminate|].
  match goal with |- context [for_each ?xs ?st ?b ?s0] =>
    destruct (for_each xs st b s0) as [[s2 ev2] [e|[optimizer2 ms]]] eqn:Hloop end;
    [discriminate|].
  apply epoch_loop_spec in Hloop as (_ & Hlog & Hcalls & (ms' & Hrun & Hms & Hlen)).
  cbn [app] in Hms. subst ms'. cbn [fst snd].
  destruct ms as [|m1 ms1] eqn:Hmseq; [discriminate|]. rewrite <- Hmseq in *.
  intros [= <- <- <- <-].
  assert (Hdev : Forall (fun b => length (images b) = ndev) (step_calls ev2)).
  { eapply Forall_impl; [|exact Hcalls]. intros b (perm & _ & Hb).
    destruct (take_batch train_ds perm) as [e|xs]; [discriminate|]. cbn in Hb.
    apply shard_inv in Hb as (_ & _ & -> & _). apply chunk_length. }
  destruct (run_steps_replicated _ _ _ _ Hdev Hrun) as (per_step & Hper & Hplen).
  exists per_step. rewrite !step_calls_log.
  assert (Hl : map loss ms = map (fun la => repeat (fst la) ndev) per_step).
  { rewrite Hper, map_map. reflexivity. }
  assert (Ha : map accuracy ms = map (fun la => repeat (snd la) ndev) per_step).
  { rewrite Hper, map_map. reflexivity. }
  split; [rewrite <- Hper; exact Hrun|].
  split; [exact Hplen|].
  split; [intros ->; rewrite Hper in Hmseq; discriminate|].
  cbn [epoch_metrics loss accuracy]. rewrite Hl, Ha.
  split; [reflexivity|]. split; [reflexivity|]. split.
  - intros ->. split; reflexivity.
  - rewrite logged_app, Hlog. reflexivity.
Qed.

End EpochMeanTheorems.

Section RunTheorems.
Context {F : Type} {SF : Scalar F} {PF : Platform} {FW : Framework F}.

Lemma Forall_firstn_of {A : Type} (P : A -> Prop) : forall (n : nat) (xs : list A),
  Forall P xs -> Forall P (firstn n xs).
Proof.
  induction n as [|n IH]; intros xs Hall; cbn; [constructor|].
  destruct Hall; constructor; auto.
Qed.

Lemma Forall_skipn_of {A : Type} (P : A -> Prop) : forall (n : nat) (xs : list A),
  Forall P xs -> Forall P (skipn n xs).
Proof.
  induction n as [|n IH]; intros xs Hall; cbn; [assumption|].
  destruct Hall; [constructor|auto].
Qed.

Lemma chunk_Forall {A : Type} (P : A -> Prop) (c k : nat) : forall xs : list A,
  Forall P xs -> Forall (Forall P) (chunk c k xs).
Proof.
  induction c as [|c IH]; intros xs Hall; cbn; constructor.
  - apply Forall_firstn_of; assumption.
  - apply IH, Forall_skipn_of; assumption.
Qed.

Lemma reshape2_ok {A : Type} (xs : list A) r c :
  0 <= r -> 0 < c -> r * c = Z.of_nat (length xs) ->
  reshape2 xs r c = inr (chunk (Z.to_nat r) (Z.to_nat c) xs).
Proof.
  intros Hr Hc Hn. unfold reshape2.
  destruct (Z.ltb_spec r (-1)); [lia|]. destruct (Z.ltb_spec c (-1)); [lia|].
  destruct (Z.eqb_spec r (-1)); [lia|]. destruct (Z.eqb_spec c (-1)); [lia|].
  cbn [orb andb]. rewrite Hn, Z.eqb_refl. reflexivity.
Qed.

Lemma permutation_facts {laws : FrameworkLaws FW} (s : RandomState) (n : nat) :
  length (fst (permutation s n)) = n
  /\ Forall (fun i => (i < n)%nat) (fst (permutation s n)).
Proof.
  pose proof (permutation_perm s n) as Hperm. split.
  - rewrite (Permutation_length Hperm). apply length_seq.
  - eapply Permutation_Forall; [apply Permutation_sym; exact Hperm|].
    apply Forall_forall. intros i Hin. apply in_seq in Hin. lia.
Qed.

Lemma divisible_nat bs :
  0 < bs -> bs mod Z.pos device_count = 0 -> (Z.to_nat bs mod ndev = 0)%nat.
Proof.
  intros Hbs Hmod. apply Nat2Z.inj. pose proof ndev_pos.
  rewrite Nat2Z.inj_mod. unfold ndev. rewrite positive_nat_Z, Z2Nat.id by lia.
  exact Hmod.
Qed.

Lemma epoch_loop_ok {shapes : ShapeLaws FW} ds bs :
  0 < bs -> bs mod Z.pos device_count = 0 ->
  length (label ds) = length (image ds) ->
  forall perms optimizer batch_metrics s,
    length optimizer = ndev -> Forall (usable ds bs) perms ->
    exists ev optimizer' ms,
      for_each perms (optimizer, batch_metrics) (train_epoch_body ds) s
      = (s, ev, inr (optimizer', ms))
      /\ length optimizer' = ndev.
Proof.
  intros Hbs Hmod Hlabel.
  induction perms as [|perm perms IH]; intros optimizer batch_metrics s Hopt Hall.
  - exists [], optimizer, batch_metrics. split; [reflexivity|assumption].
  - inversion Hall as [|? ? [Hlen Hidx] Hrest]; subst.
    rewrite for_each_cons, train_epoch_body_run.
    destruct (take_ok (image ds) perm Hidx) as [xi Hxi].
    assert (Hidx' : Forall (fun i => (i < length (label ds))%nat) perm)
      by (rewrite Hlabel; assumption).
    destruct (take_ok (label ds) perm Hidx') as [xl Hxl].
    assert (Htake : take_batch ds perm = inr (mkBatch xi xl)).
    { unfold take_batch. rewrite Hxi, Hxl. reflexivity. }
    apply take_length in Hxi. apply take_length in Hxl.
    pose proof (divisible_nat bs Hbs Hmod) as Hdiv.
    assert (Hshard : rbind (take_batch ds perm) shard
                     = inr (mkSharded (chunk ndev (Z.to_nat bs / ndev) xi)
                                      (chunk ndev (Z.to_nat bs / ndev) xl))).
    { rewrite Htake. cbn [rbind].
      apply (shard_ok (mkBatch xi xl) (Z.to_nat bs)); cbn; lia. }
    rewrite Hshard. cbn [fst snd].
    destruct (train_step_ok optimizer _ (Z.to_nat bs / ndev) Hopt
                (sharded_shape_chunks (mkBatch xi xl) (Z.to_nat bs)
                   ltac:(cbn; lia) ltac:(cbn; lia) Hdiv))
      as (optimizer1 & m1 & Hstep & Hopt1).
    cbn [image label] in Hstep. rewrite Hstep. cbn [fst snd].
    destruct (IH optimizer1 (batch_metrics ++ [m1]) s Hopt1 Hrest)
      as (ev & optimizer' & ms & Hloop & Hopt').
    rewrite Hloop. do 3 eexists. split; [reflexivity|assumption].
Qed.

Lemma train_epoch_ok {laws : FrameworkLaws FW} {shapes : ShapeLaws FW}
    optimizer ds bs epoch s :
  length optimizer = ndev ->
  0 < bs -> bs mod Z.pos device_count = 0 ->
  bs <= Z.of_nat (length (image ds)) ->
  length (label ds) = length (image ds) ->
  exists s' ev optimizer' m,
    train_epoch optimizer ds bs epoch s = (s', ev, inr (optimizer', m))
    /\ length optimizer' = ndev
    /\ logged ev = [LogTrain epoch (loss m) (times_100 (accuracy m))].
Proof.
  intros Hopt Hbs Hmod Hsize Hlabel. rewrite train_epoch_run.
  destruct (Z.gtb_spec (bs mod Z.pos device_count) 0) as [|_]; [lia|].
  unfold floordiv. destruct (Z.eqb_spec bs 0) as [|_]; [lia|].
  set (n := length (image ds)) in *. set (steps := Z.of_nat n / bs).
  destruct (permutation_facts s n) as [Hplen Hpidx].
  assert (Hsteps : 1 <= steps).
  { unfold steps. apply Z.div_le_lower_bound; lia. }
  assert (Hle : steps * bs <= Z.of_nat n).
  { unfold steps. rewrite Z.mul_comm. apply Z.mul_div_le. lia. }
  set (p := slice_to (fst (permutation s n)) (steps * bs)).
  assert (Hp : p = firstn (Z.to_nat (steps * bs)) (fst (permutation s n))).
  { unfold p, slice_to. destruct (Z.ltb_spec (steps * bs) 0); [lia|reflexivity]. }
  assert (Hpl : Z.of_nat (length p) = steps * bs).
  { rewrite Hp, length_firstn, Hplen. lia. }
  rewrite (reshape2_ok p steps bs) by lia.
  assert (Husable : Forall (usable ds bs) (chunk (Z.to_nat steps) (Z.to_nat bs) p)).
  { assert (Hlenp : length p = (Z.to_nat steps * Z.to_nat bs)%nat).
    { rewrite <- Z2Nat.inj_mul, <- Hpl, Nat2Z.id by lia. reflexivity. }
    pose proof (chunk_pieces _ _ p Hlenp) as Hpieces.
    assert (Hidx : Forall (fun i => (i < n)%nat) p).
    { rewrite Hp. apply Forall_firstn_of. assumption. }
    pose proof (chunk_Forall _ (Z.to_nat steps) (Z.to_nat bs) p Hidx) as Hrows.
    rewrite Forall_forall in *. intros row Hin. split; auto. }
  destruct (epoch_loop_ok ds bs Hbs Hmod Hlabel _ optimizer []
              (snd (permutation s n)) Hopt Husable)
    as (ev & optimizer' & ms & Hloop & Hopt').
  fold n. rewrite Hloop. cbn [fst snd].
  apply epoch_loop_spec in Hloop as (_ & Hlog & _ & (ms' & _ & Hms & Hlen)).
  rewrite chunk_length in Hlen. cbn [app] in Hms. subst ms'.
  destruct ms as [|m1 ms1]; [cbn in Hlen; lia|].
  do 4 eexists. split; [reflexivity|]. split; [assumption|].
  rewrite logged_app, Hlog. reflexivity.
Qed.

Lemma eval_model_ok {shapes : ShapeLaws FW} model test_ds :
  length (label test_ds) = length (image test_ds) ->
  exists la, eval_model model test_ds = inr la.
Proof.
  intros Hlen. unfold eval_model, eval_step. rewrite compute_metrics_unsharded.
  destruct (model_call_shape model (image test_ds)) as [Hrows Hcols].
  destruct (instance_metrics_ok (model_call model (image test_ds), label test_ds))
    as [la Hla]; cbn [fst snd]; [lia|assumption|].
  cbn [map sequence]. rewrite Hla. cbn. eexists. reflexivity.
Qed.

Lemma train_body_ok {laws : FrameworkLaws FW} {shapes : ShapeLaws FW}
    ds tds bs optimizer epoch s :
  length optimizer = ndev ->
  0 < bs -> bs mod Z.pos device_count = 0 ->
  bs <= Z.of_nat (length (image ds)) ->
  length (label ds) = length (image ds) ->
  length (label tds) = length (image tds) ->
  exists s' ev optimizer' m la,
    train_body ds tds bs optimizer epoch s = (s', ev, inr optimizer')
    /\ length optimizer' = ndev
    /\ logged ev = epoch_lines (epoch, m, la)
    /\ from_epoch ds tds bs (epoch, m, la).
Proof.
  intros Hopt Hbs Hmod Hsize Hlabel Htest.
  destruct (train_epoch_ok optimizer ds bs epoch s Hopt Hbs Hmod Hsize Hlabel)
    as (s1 & ev1 & optimizer1 & m & Hepoch & Hopt1 & Hlog).
  assert (Hfirst : exists model, device_get_first (map target optimizer1) = inr model).
  { destruct optimizer1 as [|o os]; [cbn in Hopt1; pose proof ndev_pos; lia|].
    eexists; reflexivity. }
  destruct Hfirst as [model Hfirst].
  destruct (eval_model_ok model tds Htest) as [la Heval].
  exists s1, (ev1 ++ [LogEval epoch (fst la) (times_100 (snd la))]),
    optimizer1, m, la.
  split; [|split; [assumption|split]].
  - unfold train_body, bind, lift, emit, ret. rewrite Hepoch. cbn [fst snd].
    rewrite Hfirst, Heval. cbn. rewrite ?app_nil_r. reflexivity.
  - rewrite logged_app, Hlog. reflexivity.
  - cbn. exists optimizer, s, s1, ev1, optimizer1, model. auto.
Qed.

Lemma train_loop_ok {laws : FrameworkLaws FW} {shapes : ShapeLaws FW} ds tds bs :
  0 < bs -> bs mod Z.pos device_count = 0 ->
  bs <= Z.of_nat (length (image ds)) ->
  length (label ds) = length (image ds) ->
  length (label tds) = length (image tds) ->
  forall epochs optimizer s,
    length optimizer = ndev ->
    exists s' ev optimizer' records,
      for_each epochs optimizer (train_body ds tds bs) s = (s', ev, inr optimizer')
      /\ map (fun r : epoch_record => fst (fst r)) records = epochs
      /\ logged ev = flat_map epoch_lines records
      /\ Forall (from_epoch ds tds bs) records.
Proof.
  intros Hbs Hmod Hsize Hlabel Htest.
  induction epochs as [|epoch epochs IH]; intros optimizer s Hopt.
  - exists s, [], optimizer, []. repeat split; constructor.
  - destruct (train_body_ok ds tds bs optimizer epoch s Hopt Hbs Hmod Hsize Hlabel Htest)
      as (s1 & ev1 & optimizer1 & m & la & Hbody & Hopt1 & Hlog & Hfrom).
    destruct (IH optimizer1 s1 Hopt1) as (s2 & ev2 & optimizer2 & records & Hloop & Hep & Hlog2 & Hall).
    exists s2, (ev1 ++ ev2), optimizer2, ((epoch, m, la) :: records).
    rewrite for_each_cons, Hbody, Hloop. split; [reflexivity|].
    split; [cbn; now rewrite Hep|].
    split; [|constructor; assumption].
    rewrite logged_app, Hlog, Hlog2. reflexivity.
Qed.

(** C4 (as amended): when the batch size is positive, a multiple of the
    device count and no larger than the training set, the labels of the
    training set and of the test set are as many as their images, and the
    layers of the network keep the number of examples and give ten logits
    per example, [train] completes, and for the epochs 1, ..., num_epochs
    in this order it logs exactly one training line with the loss and
    accuracy that [train_epoch] returned for the epoch, followed by
    exactly one evaluation line with the loss and accuracy that
    [eval_model] returned on the test set, each accuracy times 100 on the
    host. *)
Theorem train_logs_each_epoch {laws : FrameworkLaws FW} {shapes : ShapeLaws FW}
    (FLAGS : Flags F) (train_ds test_ds : Batch) (s : RandomState) :
  0 < batch_size FLAGS ->
  batch_size FLAGS mod Z.pos device_count = 0 ->
  batch_size FLAGS <= Z.of_nat (length (image train_ds)) ->
  length (label train_ds) = length (image train_ds) ->
  length (label test_ds) = length (image test_ds) ->
  exists s' ev optimizer records,
    train FLAGS train_ds test_ds s = (s', ev, inr optimizer)
    /\ map (fun r : epoch_record => fst (fst r)) records = range 1 (num_epochs FLAGS + 1)
    /\ logged ev = flat_map epoch_lines records
    /\ Forall (from_epoch train_ds test_ds (batch_size FLAGS)) records.
Proof.
  intros Hbs Hmod Hsize Hlabel Htest.
  destruct (train_loop_ok train_ds test_ds (batch_size FLAGS) Hbs Hmod Hsize Hlabel Htest
              (range 1 (num_epochs FLAGS + 1))
              (create_optimizer (create_model (PRNGKey 0))
                                (learning_rate FLAGS) (momentum FLAGS))
              (RandomState_of_seed 0))
    as (s' & ev & optimizer & records & Hloop & Hrest).
  { unfold create_optimizer, replicate. apply repeat_length. }
  exists s', ev, optimizer, records. split; [|exact Hrest].
  unfold train, bind at 1. cbn [set_rng]. rewrite Hloop. reflexivity.
Qed.

End RunTheorems.

Section ReplicaTheorems.
Context {F : Type} {SF : Scalar F} {PF : Platform} {FW : Framework F}.

(** What a loop keeps when each run of its body keeps it. *)
Lemma for_each_invariant {A St : Type} (P : St -> Prop) (body : St -> A -> M St) :
  (forall st x s s' ev st', P st -> body st x s = (s', ev, inr st') -> P st') ->
  forall xs st s s' ev st',
    P st -> for_each xs st body s = (s', ev, inr st') -> P st'.
Proof.
  intros Hbody. induction xs as [|x xs IH]; intros st s s' ev st' Hst.
  - cbn. intros [= _ _ <-]. assumption.
  - rewrite for_each_cons.
    destruct (body st x s) as [[s1 ev1] [e|st1]] eqn:Hrun; [discriminate|].
    destruct (for_each xs st1 body s1) as [[s2 ev2] r] eqn:Hrest.
    intros [= _ _ ->]. eapply IH; [|exact Hrest]. eapply Hbody; eassumption.
Qed.

(** Equal replicas with a wrapped definition take the same step, with
    the mean of the gradients. *)
Lemma apply_gradient_replicas (o : Optimizer) (grads : list Model) :
  averages o = true ->
  Optimizer_apply_gradient (repeat o (length grads)) grads
  = repeat (apply_gradient o (cross_replica_mean grads)) (length grads).
Proof.
  intros Havg. unfold Optimizer_apply_gradient.
  generalize (cross_replica_mean grads) as g. intros g.
  induction grads as [|g1 grads IH]; [reflexivity|].
  cbn [length repeat combine map fst snd]. rewrite Havg, IH. reflexivity.
Qed.

Lemma train_step_replicas {laws : ReplicationLaws FW} optimizer batch optimizer' m :
  replicas_equal optimizer ->
  train_step optimizer batch = inr (optimizer', m) ->
  replicas_equal optimizer'.
Proof.
  intros (o & Havg & ->). rewrite train_step_run.
  destruct (pmap_args (repeat o ndev) batch) as [e|instances] eqn:Hargs; [discriminate|].
  match goal with |- context [sequence ?rs] => destruct (sequence rs) as [e|out] eqn:Hout end;
    [discriminate|].
  match goal with |- context [compute_metrics ?i true] =>
    destruct (compute_metrics i true) as [e|metrics] end; [discriminate|].
  intros [= <- _].
  apply pmap_args_length in Hargs as (Hlen & _ & _ & ->).
  rewrite repeat_length in Hlen.
  apply sequence_length in Hout. rewrite length_map in Hout.
  assert (Hg : length (map snd out) = ndev) by (rewrite length_map; lia).
  rewrite <- Hg at 1. rewrite apply_gradient_replicas by assumption. rewrite Hg.
  eexists. split; [|reflexivity]. rewrite apply_gradient_averages. assumption.
Qed.

Lemma train_epoch_replicas {laws : ReplicationLaws FW}
    optimizer ds bs epoch s s' ev optimizer' m :
  replicas_equal optimizer ->
  train_epoch optimizer ds bs epoch s = (s', ev, inr (optimizer', m)) ->
  replicas_equal optimizer'.
Proof.
  intros Heq. rewrite train_epoch_run.
  destruct (bs mod Z.pos device_count >? 0); [discriminate|].
  destruct (floordiv _ bs) as [e|steps]; [discriminate|].
  match goal with |- context [reshape2 ?xs ?r ?c] =>
    destruct (reshape2 xs r c) as [e|perms] end; [discriminate|].
  match goal with |- context [for_each ?xs ?st0 ?b ?s0] =>
    destruct (for_each xs st0 b s0) as [[s2 ev2] [e|st]] eqn:Hloop end; [discriminate|].
  destruct (snd st) as [|m1 ms]; [discriminate|]. intros [= _ _ <- _].
  apply (for_each_invariant (fun st => replicas_equal (fst st)) (train_epoch_body ds))
    with (st' := st) in Hloop; [exact Hloop| |exact Heq].
  intros st0 perm s0 s1 ev1 st1 Hst0. rewrite train_epoch_body_run.
  destruct (rbind (take_batch ds perm) shard) as [e|batch]; [discriminate|].
  destruct (train_step (fst st0) batch) as [e|[optimizer1 m0]] eqn:Hstep; [discriminate|].
  intros [= _ _ <-]. cbn [fst]. eapply train_step_replicas; eassumption.
Qed.

Lemma create_optimizer_replicas_equal {laws : ReplicationLaws FW} model lr beta :
  replicas_equal (create_optimizer model lr beta).
Proof.
  unfold create_optimizer, replicate. eexists. split; [|reflexivity].
  apply replicated_def_averages.
Qed.

Lemma train_replicas {laws : ReplicationLaws FW}
    (FLAGS : Flags F) train_ds test_ds s s' ev optimizer :
  train FLAGS train_ds test_ds s = (s', ev, inr optimizer) ->
  replicas_equal optimizer.
Proof.
  unfold train, bind at 1. cbn [set_rng].
  match goal with |- context [for_each ?xs ?st0 ?b ?s0] =>
    destruct (for_each xs st0 b s0) as [[s2 ev2] r] eqn:Hloop end.
  intros [= _ _ ->].
  apply (for_each_invariant replicas_equal
           (train_body train_ds test_ds (batch_size FLAGS)))
    with (st' := optimizer) in Hloop;
    [exact Hloop| |apply create_optimizer_replicas_equal].
  intros optimizer0 epoch s0 s1 ev1 optimizer1 Heq.
  unfold train_body, bind, lift, emit, ret.
  destruct (train_epoch optimizer0 train_ds (batch_size FLAGS) epoch s0)
    as [[s3 ev3] [e|[optimizer3 m]]] eqn:Hepoch; [discriminate|].
  cbn [fst snd].
  destruct (device_get_first (map target optimizer3)) as [e|model]; [discriminate|].
  destruct (eval_model model test_ds) as [e|la]; [discriminate|].
  cbn. intros [= _ _ <-]. eapply train_epoch_replicas; eassumption.
Qed.

(** C9: the replicated optimizer that [create_optimizer] returns holds
    the same optimizer on every device; a [train_step] that is given
    equal replicas returns equal replicas, and so does a [train_epoch]
    and a completed run of [train]; and from equal replicas
    [device_get_first] returns the model that every replica holds. *)
Theorem replicas_stay_equal {laws : ReplicationLaws FW} :
  (forall model lr beta, replicas_equal (create_optimizer model lr beta))
  /\ (forall optimizer batch optimizer' m,
        replicas_equal optimizer ->
        train_step optimizer batch = inr (optimizer', m) ->
        replicas_equal optimizer')
  /\ (forall optimizer train_ds bs epoch s s' ev optimizer' m,
        replicas_equal optimizer ->
        train_epoch optimizer train_ds bs epoch s = (s', ev, inr (optimizer', m)) ->
        replicas_equal optimizer')
  /\ (forall (FLAGS : Flags F) train_ds test_ds s s' ev optimizer,
        train FLAGS train_ds test_ds s = (s', ev, inr optimizer) ->
        replicas_equal optimizer)
  /\ (forall optimizer,
        replicas_equal optimizer ->
        exists o,
          optimizer = repeat o ndev
          /\ device_get_first (map target optimizer) = inr (target o)).
Proof.
  split; [apply @create_optimizer_replicas_equal; assumption|].
  split; [apply @train_step_replicas; assumption|].
  split; [apply @train_epoch_replicas; assumption|].
  split; [apply @train_replicas; assumption|].
  intros optimizer (o & _ & ->). exists o. split; [reflexivity|].
  pose proof ndev_pos as Hpos. destruct ndev as [|n]; [lia|]. reflexivity.
Qed.

End ReplicaTheorems.

(** ** The executable framework: laws and concrete runs *)

(** Evaluation of the left-hand side of an equation between values whose
    types carry the framework instance. *)
Ltac evaluate :=
  match goal with
  | |- ?a = _ =>
      let v := eval vm_compute in a in
      transitivity v; [vm_cast_no_check (eq_refl v) | reflexivity]
  end.

Section ToyRuns.
Import Float32.

Lemma rotate_permutation (s n : nat) : Permutation (Toy.rotate s n) (seq 0 n).
Proof.
  unfold Toy.rotate.
  rewrite <- (firstn_skipn (s mod n) (seq 0 n)) at 3.
  apply Permutation_app_comm.
Qed.

Lemma toy_laws : FrameworkLaws Toy.framework.
Proof. constructor. intros s n. apply rotate_permutation. Qed.

Lemma resize_length (features : nat) (t : list float32) :
  length (Toy.resize features t) = features.
Proof.
  unfold Toy.resize. rewrite length_firstn, length_app, repeat_length. lia.
Qed.

Lemma toy_shapes : ShapeLaws Toy.framework.
Proof.
  constructor; try reflexivity.
  - intros p i x features. apply length_map.
  - intros p i x features. apply Forall_map, Forall_forall. intros t _.
    apply resize_length.
  - intros x features Hx. exact Hx.
Qed.

Lemma toy_replication : ReplicationLaws Toy.framework.
Proof. constructor; reflexivity. Qed.

(** C3 (the claim as stated fails): with two devices and a batch size of
    3, [train_epoch] raises [ValueError]. *)
Lemma train_epoch_raises_on_odd_batch :
  train_epoch Toy.replicas Toy.dataset 3 1 0%nat
  = (0%nat, [], inl (ValueError divisibility_message)).
Proof. reflexivity. Qed.

(** C4 (the claim as stated fails): with two devices, a batch size of 3
    and one epoch asked for, [train] stops with the [ValueError] and has
    logged nothing for epoch 1. *)
Lemma train_logs_nothing_on_odd_batch :
  range 1 (num_epochs (Toy.flags 3 1) + 1) = [1]
  /\ exists s' ev e,
       train (Toy.flags 3 1) Toy.dataset Toy.dataset 0%nat = (s', ev, inl e)
       /\ logged ev = [].
Proof.
  split; [reflexivity|].
  exists 0%nat, [], (ValueError divisibility_message). split; reflexivity.
Qed.

(** With a test set that has three labels for four images, the first
    epoch of [train] logs its training line and then [eval_model] raises:
    jax refuses to combine the one-hot labels with the logits. *)
Lemma train_stops_on_uneven_test_set :
  exists s' ev loss_value accuracy_percent,
    train (Toy.flags 2 1) Toy.dataset ToyData.uneven 0%nat
    = (s', ev, inl (LibraryError "jax: incompatible shapes for broadcasting"))
    /\ logged ev = [LogTrain 1 loss_value accuracy_percent].
Proof.
  do 4 eexists. split; [evaluate|]. reflexivity.
Qed.

(** C7 (the claim as stated fails): with two devices, a learning rate of
    0 and two steps whose losses are 16777218 and 1 on both devices, the
    loss that [train_epoch] returns is 8388609, while the mean of the two
    step losses is 8388610, whether numpy takes it on the host or jax on
    the device: the epoch value is the mean of the array that holds every
    step's loss once per device. *)
Lemma epoch_loss_differs_from_mean_of_steps :
  exists s' ev optimizer' m,
    train_epoch Toy.still_replicas Toy.far_apart 2 1 0%nat
    = (s', ev, inr (optimizer', m))
    /\ run_steps Toy.still_replicas (step_calls ev)
       = inr (optimizer',
              [replicated_metrics (of_Z 16777218, pos_zero);
               replicated_metrics (of_Z 1, pos_zero)])
    /\ loss m = of_Z 8388609
    /\ onp_mean [[of_Z 16777218]; [of_Z 1]] = of_Z 8388610
    /\ jnp_mean [of_Z 16777218; of_Z 1] = of_Z 8388610
    /\ loss m <> onp_mean [[of_Z 16777218]; [of_Z 1]]
    /\ loss m <> jnp_mean [of_Z 16777218; of_Z 1].
Proof.
  do 4 eexists. split; [evaluate|].
  split; [evaluate|].
  split; [vm_compute; reflexivity|].
  split; [vm_compute; reflexivity|].
  split; [vm_compute; reflexivity|].
  split; vm_compute; discriminate.
Qed.

(** *** The theorems at concrete inputs *)

Lemma train_step_uses_pre_update_model_witness :
  pmap_args Toy.replicas Toy.sharded = inr Toy.instances
  /\ train_step Toy.replicas Toy.sharded
     = rbind (sequence (map (fun ob => cross_entropy_loss
                                         (model_call (target (fst ob)) (image (snd ob)))
                                         (label (snd ob))) Toy.instances)) (fun _ =>
       rbind (compute_metrics
                (map (fun ob => (model_call (target (fst ob)) (image (snd ob)),
                                 label (snd ob))) Toy.instances) true) (fun metrics =>
       inr (map (fun ob =>
                   apply_gradient (fst ob)
                     (if averages (fst ob)
                      then cross_replica_mean
                             (map (fun ob' => grad (loss_fn (snd ob')) (target (fst ob')))
                                  Toy.instances)
                      else grad (loss_fn (snd ob)) (target (fst ob))))
                Toy.instances,
            metrics)))
  /\ train_step Toy.replicas Toy.sharded
     = inr (repeat (Toy.mkOpt (fdiv (of_Z 1) (of_Z 8)) (fdiv (of_Z 1) (of_Z 2))
                              (fneg (fdiv (of_Z 9) (of_Z 2))) (fdiv (of_Z 25) (of_Z 16))
                              true) 2,
            mkMetrics (repeat (fneg (fdiv (of_Z 9) (of_Z 2))) 2)
                      (repeat (fdiv (of_Z 1) (of_Z 2)) 2)).
Proof.
  assert (Hargs : pmap_args Toy.replicas Toy.sharded = inr Toy.instances)
    by reflexivity.
  split; [exact Hargs|]. split.
  - exact (@train_step_uses_pre_update_model float32 scalar Toy.two_devices Toy.framework
             Toy.replicas Toy.sharded Toy.instances Hargs).
  - rewrite (@train_step_uses_pre_update_model float32 scalar Toy.two_devices
               Toy.framework Toy.replicas Toy.sharded Toy.instances Hargs).
    evaluate.
Defined.

Lemma train_epoch_raises_iff_indivisible_witness :
  3 mod Z.pos device_count > 0
  /\ train_epoch Toy.replicas Toy.dataset 3 1 0%nat
     = (0%nat, [], inl (ValueError divisibility_message)).
Proof.
  assert (Hmod : 3 mod Z.pos device_count > 0) by (vm_compute; reflexivity).
  split; [exact Hmod|].
  exact (proj1 (train_epoch_raises_iff_indivisible
                  Toy.replicas Toy.dataset 3 1 0%nat) Hmod).
Defined.

Lemma shard_distributes_batch_witness :
  length (image Toy.dataset) = 4%nat /\ length (label Toy.dataset) = 4%nat
  /\ (4 mod ndev = 0)%nat
  /\ exists b,
       shard Toy.dataset = inr b
       /\ sharded_shape (4 / ndev) b
       /\ concat (images b) = image Toy.dataset
       /\ concat (labels b) = label Toy.dataset.
Proof.
  assert (Himage : length (image Toy.dataset) = 4%nat) by reflexivity.
  assert (Hlabel : length (label Toy.dataset) = 4%nat) by reflexivity.
  assert (Hdiv : (4 mod ndev = 0)%nat) by reflexivity.
  repeat split; try assumption.
  destruct (proj1 shard_distributes_batch Toy.dataset 4%nat Himage Hlabel Hdiv)
    as (b & Hb & Hshape & Hi & Hl & _).
  exists b. auto.
Defined.

Lemma pmean_is_cross_device_mean_witness :
  Forall (fun x : list float32 => length x = ndev)
         (tree_leaves (mkMetrics [of_Z 1; of_Z 2] [of_Z 3; of_Z 5]))
  /\ tree_leaves (pmean (mkMetrics [of_Z 1; of_Z 2] [of_Z 3; of_Z 5]))
     = map (fun x => repeat (fdiv (jnp_sum x) (of_count ndev)) ndev)
           (tree_leaves (mkMetrics [of_Z 1; of_Z 2] [of_Z 3; of_Z 5]))
  /\ compute_metrics [([Toy.picture 1 2], [0]); ([Toy.picture 3 4], [1])] true
     = rbind (sequence (map instance_metrics
                            [([Toy.picture 1 2], [0]); ([Toy.picture 3 4], [1])]))
             (fun values =>
                inr (mkMetrics (repeat (jnp_mean (map fst values)) ndev)
                               (repeat (jnp_mean (map snd values)) ndev))).
Proof.
  assert (Hleaves : Forall (fun x : list float32 => length x = ndev)
                      (tree_leaves (mkMetrics [of_Z 1; of_Z 2] [of_Z 3; of_Z 5])))
    by (repeat constructor).
  split; [exact Hleaves|].
  exact (pmean_is_cross_device_mean
           (mkMetrics [of_Z 1; of_Z 2] [of_Z 3; of_Z 5])
           [([Toy.picture 1 2], [0]); ([Toy.picture 3 4], [1])]
           Hleaves eq_refl).
Defined.

Lemma epoch_metrics_are_step_means_witness :
  exists s' ev optimizer' m,
    train_epoch Toy.replicas Toy.dataset 2 1 0%nat = (s', ev, inr (optimizer', m))
    /\ exists per_step : list (float32 * float32),
         length per_step = 2%nat
         /\ loss m = onp_mean (map (fun la => repeat (fst la) ndev) per_step)
         /\ accuracy m = onp_mean (map (fun la => repeat (snd la) ndev) per_step).
Proof.
  do 4 eexists. split; [evaluate|].
  match goal with |- context [loss ?m] => set (metrics := m) end.
  destruct (@epoch_metrics_are_step_means float32 scalar Toy.two_devices Toy.framework
              Toy.replicas Toy.dataset 2 1 0%nat _ _ _ metrics ltac:(evaluate))
    as (per_step & _ & Hlen & _ & Hloss & Hacc & _).
  exists per_step. split; [exact Hlen|]. split; [exact Hloss|exact Hacc].
Defined.

Lemma train_logs_each_epoch_witness :
  0 < batch_size (Toy.flags 2 2)
  /\ batch_size (Toy.flags 2 2) mod Z.pos device_count = 0
  /\ batch_size (Toy.flags 2 2) <= Z.of_nat (length (image Toy.dataset))
  /\ length (label Toy.dataset) = length (image Toy.dataset)
  /\ exists s' ev optimizer records,
       train (Toy.flags 2 2) Toy.dataset Toy.dataset 7%nat = (s', ev, inr optimizer)
       /\ map (fun r : epoch_record => fst (fst r)) records = [1; 2]
       /\ logged ev = flat_map epoch_lines records.
Proof.
  assert (H1 : 0 < batch_size (Toy.flags 2 2)) by reflexivity.
  assert (H2 : batch_size (Toy.flags 2 2) mod Z.pos device_count = 0) by reflexivity.
  assert (H3 : batch_size (Toy.flags 2 2) <= Z.of_nat (length (image Toy.dataset)))
    by (vm_compute; discriminate).
  repeat split; try assumption.
  destruct (train_logs_each_epoch (laws := toy_laws) (shapes := toy_shapes)
              (Toy.flags 2 2) Toy.dataset Toy.dataset 7%nat H1 H2 H3 eq_refl eq_refl)
    as (s' & ev & optimizer & records & Hrun & Hepochs & Hlog & _).
  exists s', ev, optimizer, records. auto.
Defined.

Lemma replicas_stay_equal_witness :
  replicas_equal Toy.replicas
  /\ exists o,
       train_step Toy.replicas Toy.sharded
       = inr ([o; o], mkMetrics [fneg (fdiv (of_Z 9) (of_Z 2)); fneg (fdiv (of_Z 9) (of_Z 2))]
                                [fdiv (of_Z 1) (of_Z 2); fdiv (of_Z 1) (of_Z 2)])
       /\ replicas_equal [o; o]
       /\ Toy.weight o = fdiv (of_Z 25) (of_Z 16).
Proof.
  destruct (@replicas_stay_equal float32 scalar Toy.two_devices Toy.framework
              toy_replication) as (Hcreate & Hstep & _).
  pose proof (Hcreate (create_model (PRNGKey 0))
                      (fdiv (of_Z 1) (of_Z 8)) (fdiv (of_Z 1) (of_Z 2))) as Hreplicas.
  split; [exact Hreplicas|].
  eexists. split; [evaluate|].
  split; [|vm_compute; reflexivity].
  eapply (Hstep Toy.replicas Toy.sharded); [exact Hreplicas|evaluate].
Defined.

End ToyRuns.

(** ** Runs that stop early *)

Section EdgeRuns.
Context {F : Type} {SF : Scalar F} {PF : Platform} {FW : Framework F}.

Lemma range_first (n : Z) : 1 <= n -> range 1 (n + 1) = 1 :: range 2 (n + 1).
Proof.
  intros Hn. unfold range.
  replace (Z.to_nat (n + 1 - 1)) with (S (Z.to_nat (n + 1 - 2))) by lia.
  cbn [seq map]. f_equal. rewrite <- seq_shift, map_map.
  apply map_ext. intros i. lia.
Qed.

(** An exception in the first epoch ends [train]. *)
Lemma train_first_epoch_error (FLAGS : Flags F) train_ds test_ds s s' ev e :
  1 <= num_epochs FLAGS ->
  train_epoch (create_optimizer (create_model (PRNGKey 0))
                                (learning_rate FLAGS) (momentum FLAGS))
              train_ds (batch_size FLAGS) 1 (RandomState_of_seed 0) = (s', ev, inl e) ->
  train FLAGS train_ds test_ds s = (s', ev, inl e).
Proof.
  intros Hn Hepoch. unfold train. rewrite range_first by assumption.
  unfold bind at 1. cbn [set_rng].
  rewrite for_each_cons. unfold train_body at 1. unfold bind at 1.
  rewrite Hepoch. reflexivity.
Qed.

(** With a batch size of 0 the divisibility check passes and the integer
    division of line 160 raises [ZeroDivisionError], before the generator
    is used; [train] stops there in its first epoch with nothing logged. *)
Theorem train_epoch_zero_batch_size optimizer train_ds epoch s :
  train_epoch optimizer train_ds 0 epoch s = (s, [], inl ZeroDivisionError)
  /\ forall lr beta n test_ds,
       1 <= n ->
       train (mkFlags lr beta 0 n) train_ds test_ds s
       = (RandomState_of_seed 0, [], inl ZeroDivisionError).
Proof.
  assert (Hepoch : forall o ep s0,
             train_epoch o train_ds 0 ep s0 = (s0, [], inl ZeroDivisionError)).
  { intros o ep s0. rewrite train_epoch_run, Zmod_0_l. reflexivity. }
  split; [apply Hepoch|].
  intros lr beta n test_ds Hn.
  apply train_first_epoch_error; [exact Hn|apply Hepoch].
Qed.

(** With a batch size that the device count divides but that exceeds the
    number of training examples, there are no steps: the permutation is
    drawn, [train_step] is never called, and the subscript
    [batch_metrics_np[0]] raises [IndexError] before anything is logged. *)
Theorem train_epoch_batch_exceeds_data optimizer train_ds bs epoch s :
  bs mod Z.pos device_count = 0 ->
  Z.of_nat (length (image train_ds)) < bs ->
  train_epoch optimizer train_ds bs epoch s
  = (snd (permutation s (length (image train_ds))), [], inl IndexError).
Proof.
  intros Hmod Hsize. rewrite train_epoch_run, Hmod. cbn [Z.gtb Z.compare].
  unfold floordiv. destruct (Z.eqb_spec bs 0) as [|_]; [lia|].
  rewrite Z.div_small by lia. cbn [Z.mul].
  unfold slice_to. cbn [Z.ltb Z.compare Z.to_nat firstn].
  unfold reshape2. cbn [length Z.of_nat].
  destruct (Z.ltb_spec bs (-1)); [lia|].
  destruct (Z.eqb_spec bs (-1)); [lia|].
  reflexivity.
Qed.

(** A negative batch size that the device count divides gets past both
    checks of the script; the reshape of the permutation is then refused
    by numpy, after the permutation was drawn and before any step. *)
Theorem train_epoch_negative_batch_size optimizer train_ds bs epoch s :
  bs < 0 -> bs mod Z.pos device_count = 0 ->
  exists e,
    library_error e
    /\ train_epoch optimizer train_ds bs epoch s
       = (snd (permutation s (length (image train_ds))), [], inl e).
Proof.
  intros Hneg Hmod. rewrite train_epoch_run, Hmod. cbn [Z.gtb Z.compare].
  unfold floordiv. destruct (Z.eqb_spec bs 0) as [|_]; [lia|].
  set (n := length (image train_ds)).
  assert (Hsteps : Z.of_nat n / bs <= 0) by (apply floordiv_nonpos; lia).
  destruct (reshape2_neg (slice_to (fst (permutation s n)) (Z.of_nat n / bs * bs))
              (Z.of_nat n / bs) bs Hsteps Hneg) as [e He].
  rewrite He. exists e. split; [|reflexivity].
  eapply reshape2_error. eassumption.
Qed.

(** With [num_epochs <= 0] the loop body never runs: [train] returns the
    replicated optimizer it created, whatever the data sets and the batch
    size are (the batch size is not even checked), and logs nothing. *)
Theorem train_without_epochs (FLAGS : Flags F) train_ds test_ds s :
  num_epochs FLAGS <= 0 ->
  train FLAGS train_ds test_ds s
  = (RandomState_of_seed 0, [],
     inr (repeat (replicated_def
                    (create (optim_Momentum (learning_rate FLAGS) (momentum FLAGS))
                            (nn_Model (init_by_shape (PRNGKey 0)))))
                 ndev)).
Proof.
  intros Hn. unfold train, range.
  replace (Z.to_nat (num_epochs FLAGS + 1 - 1)) with 0%nat by lia.
  reflexivity.
Qed.

End EdgeRuns.

(** ** One-hot rows *)

Section OnehotFacts.
Context {F : Type} {SF : Scalar F}.

Lemma onehot_row_off (l : Z) (cs : list nat) :
  Forall (fun c => l <> Z.of_nat c) cs ->
  map (fun c => astype_float (F := F) (l =? c)) (map Z.of_nat cs)
  = repeat fzero (length cs).
Proof.
  induction 1 as [|c cs Hc _ IH]; [reflexivity|].
  cbn [map length repeat]. rewrite IH.
  destruct (Z.eqb_spec l (Z.of_nat c)); [contradiction|reflexivity].
Qed.

Lemma seq_Forall (P : nat -> Prop) (start len : nat) :
  (forall c, (start <= c < start + len)%nat -> P c) -> Forall P (seq start len).
Proof. intros HP. apply Forall_forall. intros c Hin. apply HP, in_seq, Hin. Qed.

(** For labels that are within the classes as 32-bit integers, every
    row of [onehot] is zero except for a single one in the column of the
    label. *)
Theorem onehot_in_range (labels : list Z) (num_classes : nat) :
  Forall (fun l => 0 <= int32 l < Z.of_nat num_classes) labels ->
  onehot labels num_classes
  = map (fun l => repeat fzero (Z.to_nat (int32 l))
                  ++ fone :: repeat fzero (num_classes - 1 - Z.to_nat (int32 l)))
        labels.
Proof.
  intros Hall. unfold onehot. apply map_ext_Forall.
  eapply Forall_impl; [|exact Hall]. intros l Hl. cbv beta in Hl |- *. unfold arange.
  replace num_classes
    with (Z.to_nat (int32 l) + (1 + (num_classes - 1 - Z.to_nat (int32 l))))%nat at 1
    by lia.
  rewrite !seq_app, !map_app. cbn [seq map].
  rewrite !onehot_row_off, !length_seq.
  - rewrite Nat.add_0_l, Z2Nat.id, Z.eqb_refl by lia. reflexivity.
  - apply seq_Forall. intros c Hc. lia.
  - apply seq_Forall. intros c Hc. lia.
Qed.

(** A label that is outside the classes as a 32-bit integer is not
    refused: its row is all zeros.  A label that is outside the classes
    as an integer but inside them in 32 bits gets the row of that class:
    the label 2^32 + 1 gets the row of class 1. *)
Theorem onehot_out_of_range (labels : list Z) (num_classes : nat) :
  (Forall (fun l => int32 l < 0 \/ Z.of_nat num_classes <= int32 l) labels ->
   onehot labels num_classes = map (fun _ => repeat fzero num_classes) labels)
  /\ onehot [2 ^ 32 + 1] 10 = [fzero :: fone :: repeat fzero 8].
Proof.
  split; [|reflexivity].
  intros Hall. unfold onehot. apply map_ext_Forall.
  eapply Forall_impl; [|exact Hall]. intros l Hl. cbv beta in Hl |- *. unfold arange.
  rewrite onehot_row_off, length_seq; [reflexivity|].
  apply seq_Forall. intros c Hc. lia.
Qed.

End OnehotFacts.

(** ** Shapes *)

Section ShapeFacts.
Context {F : Type} {SF : Scalar F} {PF : Platform} {FW : Framework F}.

Lemma ndev_nonzero : ndev <> 0%nat.
Proof. pose proof ndev_pos. lia. Qed.

(** [shard] goes through exactly when the device count divides the length
    of both arrays of the batch; otherwise the reshape is refused by
    numpy.  When it goes through, putting the pieces back together gives
    the arrays of the batch. *)
Theorem shard_succeeds_iff (xs : Batch) :
  ((exists b, shard xs = inr b)
   <-> (length (image xs) mod ndev = 0 /\ length (label xs) mod ndev = 0)%nat)
  /\ (forall e, shard xs = inl e -> library_error e)
  /\ (forall b, shard xs = inr b ->
        concat (images b) = image xs /\ concat (labels b) = label xs).
Proof.
  split; [split|split].
  - intros [b Hb]. apply shard_inv in Hb as (Hi & Hl & _). auto.
  - intros [Hi Hl]. unfold shard.
    rewrite !reshape_leading_ok by (assumption || apply ndev_nonzero).
    eexists. reflexivity.
  - intros e. apply shard_error.
  - intros b Hb. apply shard_inv in Hb as (Hi & Hl & -> & ->).
    split; apply chunk_concat, exact_division; assumption || apply ndev_nonzero.
Qed.

(** [train_step] returns as many optimizer replicas as it was given, and
    metrics that hold, for each of them, one and the same loss and one and
    the same accuracy. *)
Theorem train_step_shapes optimizer batch optimizer' m :
  train_step optimizer batch = inr (optimizer', m) ->
  length optimizer' = length optimizer
  /\ exists l a : F,
       m = mkMetrics (repeat l (length optimizer)) (repeat a (length optimizer)).
Proof.
  intros Hstep. split; [eapply train_step_inv; eassumption|].
  rewrite train_step_run in Hstep.
  destruct (pmap_args optimizer batch) as [e|instances] eqn:Hargs; [discriminate|].
  match type of Hstep with context [sequence ?rs] =>
    destruct (sequence rs) as [e|out] eqn:Hout end; [discriminate|].
  match type of Hstep with context [compute_metrics ?i true] =>
    destruct (compute_metrics i true) as [e|metrics] eqn:Hm end; [discriminate|].
  injection Hstep as _ <-.
  apply pmap_args_length in Hargs as (Hlen & _).
  apply sequence_length in Hout. rewrite length_map in Hout.
  rewrite compute_metrics_pmean in Hm.
  match type of Hm with context [sequence ?rs] =>
    destruct (sequence rs) as [e|values] end; [discriminate|].
  injection Hm as <-.
  rewrite length_combine, !length_map, Hout, Hlen, Nat.min_id.
  do 2 eexists. reflexivity.
Qed.

End ShapeFacts.


(** ** The batches of an epoch *)

Section EpochBatches.
Context {F : Type} {SF : Scalar F} {PF : Platform} {FW : Framework F}.

Lemma take_nth_error {A : Type} (v : list A) : forall (perm : list nat) (xs : list A),
  take v perm = inr xs -> map Some xs = map (nth_error v) perm.
Proof.
  induction perm as [|i perm IH]; intros xs; cbn [take].
  - intros [= <-]. reflexivity.
  - destruct (nth_error v i) as [x|] eqn:Hx; [|discriminate].
    destruct (take v perm) as [e|rest]; cbn [rbind]; [discriminate|].
    intros [= <-]. cbn [map]. rewrite Hx, (IH rest eq_refl). reflexivity.
Qed.

(** The examples of a sharded batch are the examples of the training set
    at the indices of the row, each image with its label. *)
Lemma batch_examples ds perm b :
  rbind (take_batch ds perm) shard = inr b ->
  map Some (concat (images b)) = map (nth_error (image ds)) perm
  /\ map Some (concat (labels b)) = map (nth_error (label ds)) perm.
Proof.
  destruct (take_batch ds perm) as [e|xs] eqn:Htake; cbn [rbind]; [discriminate|].
  intros Hshard.
  apply shard_inv in Hshard as (Hi & Hl & -> & ->).
  rewrite !chunk_concat by (apply exact_division; assumption || apply ndev_nonzero).
  unfold take_batch in Htake.
  destruct (take (image ds) perm) as [e|xi] eqn:Hxi; cbn [rbind] in Htake; [discriminate|].
  destruct (take (label ds) perm) as [e|xl] eqn:Hxl; cbn [rbind] in Htake; [discriminate|].
  injection Htake as <-. cbn [image label].
  split; apply take_nth_error; assumption.
Qed.

Lemma epoch_loop_calls ds : forall perms optimizer batch_metrics s s' ev st,
  for_each perms (optimizer, batch_metrics) (train_epoch_body ds) s = (s', ev, inr st) ->
  Forall2 (fun perm b => rbind (take_batch ds perm) shard = inr b) perms (step_calls ev).
Proof.
  induction perms as [|perm perms IH]; intros optimizer batch_metrics s s' ev st.
  - cbn. intros [= _ <- _]. constructor.
  - rewrite for_each_cons, train_epoch_body_run.
    destruct (rbind (take_batch ds perm) shard) as [e|batch] eqn:Hbatch; [discriminate|].
    cbn [fst snd].
    destruct (train_step optimizer batch) as [e|[optimizer1 m1]]; [discriminate|].
    cbn [fst snd].
    destruct (for_each perms (optimizer1, batch_metrics ++ [m1]) (train_epoch_body ds) s)
      as [[s2 ev2] r2] eqn:Hrest.
    intros [= _ <- ->].
    change (step_calls ([StepCall batch] ++ ev2)) with (batch :: step_calls ev2).
    constructor; [assumption|]. eapply IH. eassumption.
Qed.

Lemma run_steps_length : forall calls optimizer optimizer' ms,
  run_steps optimizer calls = inr (optimizer', ms) ->
  length optimizer' = length optimizer.
Proof.
  induction calls as [|b calls IH]; intros optimizer optimizer' ms; cbn [run_steps].
  - intros [= <- _]. reflexivity.
  - destruct (train_step optimizer b) as [e|[optimizer1 m1]] eqn:Hstep; cbn [rbind];
      [discriminate|].
    cbn [fst snd].
    destruct (run_steps optimizer1 calls) as [e|[optimizer2 ms2]] eqn:Hrun; cbn [rbind];
      [discriminate|].
    cbn [fst snd]. intros [= <- _].
    apply IH in Hrun. apply train_step_inv in Hstep. lia.
Qed.

Lemma NoDup_firstn_of {A : Type} (k : nat) (xs : list A) : NoDup xs -> NoDup (firstn k xs).
Proof.
  intros Hnd. rewrite <- (firstn_skipn k xs) in Hnd.
  eapply NoDup_app_remove_r. eassumption.
Qed.

(** What a run of [train_epoch] went through to reach the end of the
    loop: the generator state, the number of rows and the rows themselves. *)
Lemma train_epoch_loop optimizer ds bs epoch s s' ev r :
  train_epoch optimizer ds bs epoch s = (s', ev, r) ->
  bs mod Z.pos device_count > 0 /\ (s', ev, r) = (s, [], inl (ValueError divisibility_message))
  \/ bs = 0 /\ (s', ev, r) = (s, [], inl ZeroDivisionError)
  \/ (exists e, library_error e
                /\ (s', ev, r) = (snd (permutation s (length (image ds))), [], inl e))
  \/ 0 < bs
     /\ exists ev2 r2,
          let n := length (image ds) in
          let steps := Z.to_nat (Z.of_nat n / bs) in
          let perms :=
            chunk steps (Z.to_nat bs)
                  (firstn (Z.to_nat (Z.of_nat n / bs * bs)) (fst (permutation s n))) in
          length (firstn (Z.to_nat (Z.of_nat n / bs * bs)) (fst (permutation s n)))
          = (steps * Z.to_nat bs)%nat
          /\ for_each perms (optimizer, []) (train_epoch_body ds) (snd (permutation s n))
             = (snd (permutation s n), ev2, r2)
          /\ match r2 with
             | inl e => (s', ev, r) = (snd (permutation s n), ev2, inl e)
             | inr (optimizer', []) =>
                 (s', ev, r) = (snd (permutation s n), ev2, inl IndexError)
             | inr (optimizer', metrics) =>
                 (s', ev, r)
                 = (snd (permutation s n),
                    ev2 ++ [LogTrain epoch (loss (epoch_metrics metrics))
                              (times_100 (accuracy (epoch_metrics metrics)))],
                    inr (optimizer', epoch_metrics metrics))
             end.
Proof.
  rewrite train_epoch_run.
  destruct (Z.gtb_spec (bs mod Z.pos device_count) 0) as [Hgt|Hmod].
  { intros [= <- <- <-]. left. split; [lia|reflexivity]. }
  unfold floordiv. destruct (Z.eqb_spec bs 0) as [->|Hbs].
  { intros [= <- <- <-]. right. left. auto. }
  set (n := length (image ds)).
  destruct (reshape2 (slice_to (fst (permutation s n)) (Z.of_nat n / bs * bs))
                     (Z.of_nat n / bs) bs) as [e|perms] eqn:Hreshape.
  { intros [= <- <- <-]. right. right. left. exists e. split; [|reflexivity].
    eapply reshape2_error. eassumption. }
  assert (Hpos : 0 < bs).
  { destruct (Z.ltb_spec 0 bs) as [|Hneg]; [assumption|].
    assert (Hsteps : Z.of_nat n / bs <= 0) by (apply floordiv_nonpos; lia).
    destruct (reshape2_neg (slice_to (fst (permutation s n)) (Z.of_nat n / bs * bs))
                (Z.of_nat n / bs) bs Hsteps ltac:(lia)) as [e He].
    rewrite He in Hreshape. discriminate. }
  assert (Hsteps : 0 <= Z.of_nat n / bs) by (apply Z.div_pos; lia).
  apply reshape2_pos in Hreshape as [-> Hlen]; [|assumption..].
  assert (Hslice : slice_to (fst (permutation s n)) (Z.of_nat n / bs * bs)
                   = firstn (Z.to_nat (Z.of_nat n / bs * bs)) (fst (permutation s n))).
  { unfold slice_to. destruct (Z.ltb_spec (Z.of_nat n / bs * bs) 0); [nia|reflexivity]. }
  rewrite Hslice in *.
  match goal with |- context [for_each ?xs ?st ?b ?s0] =>
    destruct (for_each xs st b s0) as [[s2 ev2] r2] eqn:Hloop end.
  pose proof (epoch_loop_spec _ _ _ _ _ _ _ _ Hloop) as (-> & _).
  intros Hrun. right. right. right. split; [assumption|].
  exists ev2, r2. cbv zeta. split; [assumption|]. split; [reflexivity|].
  destruct r2 as [e|[optimizer' metrics]]; cbn [snd fst] in Hrun.
  - symmetry. assumption.
  - destruct metrics; symmetry; assumption.
Qed.

(** A run of [train_epoch] that returns has made one step for each of the
    [len(train_ds) // batch_size] complete batches, at least one; it drew
    exactly one permutation; the rows of indices it used are consecutive
    pieces of [batch_size] indices from the front of the permutation, so
    no example is used twice and the last [len(train_ds) % batch_size]
    indices are left out; every step's batch holds the images and the
    labels of the training set at the indices of its row; and the
    optimizer has as many replicas as before. *)
Theorem train_epoch_batches {laws : FrameworkLaws FW}
    optimizer train_ds bs epoch s s' ev optimizer' m :
  train_epoch optimizer train_ds bs epoch s = (s', ev, inr (optimizer', m)) ->
  exists perms : list (list nat),
    0 < bs <= Z.of_nat (length (image train_ds))
    /\ s' = snd (permutation s (length (image train_ds)))
    /\ length perms = Z.to_nat (Z.of_nat (length (image train_ds)) / bs)
    /\ Forall (fun perm => length perm = Z.to_nat bs) perms
    /\ concat perms = firstn (length perms * Z.to_nat bs)
                             (fst (permutation s (length (image train_ds))))
    /\ NoDup (concat perms)
    /\ Forall2 (fun perm b =>
                  map Some (concat (images b)) = map (nth_error (image train_ds)) perm
                  /\ map Some (concat (labels b)) = map (nth_error (label train_ds)) perm)
               perms (step_calls ev)
    /\ length optimizer' = length optimizer.
Proof.
  intros Hrun.
  apply train_epoch_loop in Hrun
    as [[_ [=]]|[[_ [=]]|[(e & _ & [=])|(Hpos & ev2 & r2 & Hlen & Hloop & Hend)]]].
  cbv zeta in *.
  set (n := length (image train_ds)) in *.
  set (steps := Z.to_nat (Z.of_nat n / bs)) in *.
  set (p := firstn (Z.to_nat (Z.of_nat n / bs * bs)) (fst (permutation s n))) in *.
  destruct r2 as [e|[optimizer2 metrics]]; [discriminate|].
  destruct metrics as [|m1 ms]; [discriminate|].
  injection Hend as -> -> <- ->.
  pose proof (epoch_loop_spec _ _ _ _ _ _ _ _ Hloop) as (_ & _ & _ & ms' & Hsteps & Hms & Hn).
  cbn [app] in Hms. subst ms'. rewrite chunk_length in Hn. cbn [length] in Hn.
  exists (chunk steps (Z.to_nat bs) p).
  assert (Hone : 1 <= Z.of_nat n / bs) by lia.
  assert (Hle : Z.of_nat n / bs * bs <= Z.of_nat n).
  { rewrite Z.mul_comm. apply Z.mul_div_le. lia. }
  assert (Hk : Z.to_nat (Z.of_nat n / bs * bs) = (steps * Z.to_nat bs)%nat).
  { unfold steps. rewrite Z2Nat.inj_mul by lia. reflexivity. }
  rewrite chunk_length, chunk_concat by assumption.
  repeat split.
  - assumption.
  - nia.
  - apply chunk_pieces. assumption.
  - unfold p. rewrite Hk. reflexivity.
  - apply NoDup_firstn_of.
    eapply Permutation_NoDup; [symmetry; apply permutation_perm|apply seq_NoDup].
  - rewrite step_calls_log.
    eapply Forall2_impl; [|eapply epoch_loop_calls; eassumption].
    intros perm b. apply batch_examples.
  - eapply run_steps_length. eassumption.
Qed.

(** A run of [train_epoch] that raises has logged nothing.  It raised the
    [ValueError] of the script (the device count does not divide the batch
    size), or [ZeroDivisionError] (the batch size is 0), both before the
    generator was used and before any step; or [IndexError] (the batch
    size is positive and exceeds the training set, so there was no step);
    or the exception comes out of numpy or jax. *)
Theorem train_epoch_failure optimizer train_ds bs epoch s s' ev e :
  train_epoch optimizer train_ds bs epoch s = (s', ev, inl e) ->
  logged ev = []
  /\ (e = ValueError divisibility_message
      /\ bs mod Z.pos device_count > 0 /\ ev = [] /\ s' = s
      \/ e = ZeroDivisionError /\ bs = 0 /\ ev = [] /\ s' = s
      \/ e = IndexError /\ Z.of_nat (length (image train_ds)) < bs /\ ev = []
      \/ library_error e).
Proof.
  intros Hrun.
  apply train_epoch_loop in Hrun
    as [[Hmod [= -> -> <-]]|[[Hbs [= -> -> <-]]
        |[(e' & Hlib & [= -> -> <-])|(Hpos & ev2 & r2 & Hlen & Hloop & Hend)]]].
  - split; [reflexivity|]. left. auto.
  - split; [reflexivity|]. right. left. auto.
  - split; [reflexivity|]. right. right. right. assumption.
  - cbv zeta in *.
    pose proof (epoch_loop_spec _ _ _ _ _ _ _ _ Hloop) as (_ & Hlog & _ & Hr).
    destruct r2 as [e2|[optimizer2 metrics]].
    + injection Hend as -> -> ->. split; [assumption|]. right. right. right. assumption.
    + destruct metrics as [|m1 ms]; [|discriminate].
      injection Hend as -> -> ->. split; [assumption|]. right. right. left.
      destruct Hr as (ms' & _ & Hms & Hn). cbn [app] in Hms. subst ms'.
      rewrite chunk_length in Hn. cbn [length] in Hn.
      assert (Hzero : Z.of_nat (length (image train_ds)) / bs = 0).
      { pose proof (Z.div_pos (Z.of_nat (length (image train_ds))) bs). lia. }
      split; [reflexivity|]. split.
      * apply Z.div_small_iff in Hzero; lia.
      * rewrite <- Hn in Hloop. cbn in Hloop. injection Hloop as <- _. reflexivity.
Qed.

End EpochBatches.

(** ** The default flags and the entry point *)

Section DefaultRun.
Context {F : Type} {SF : Scalar F} {PF : Platform} {FW : Framework F}.

(** The batches handed to [train_step] in an epoch, whatever the epoch's
    outcome: each has one piece of [batch_size / device_count] examples
    per device. *)
Lemma train_epoch_step_shapes optimizer ds bs epoch s s' ev r :
  train_epoch optimizer ds bs epoch s = (s', ev, r) ->
  Forall (sharded_shape (Z.to_nat bs / ndev)) (step_calls ev).
Proof.
  intros Hrun.
  apply train_epoch_loop in Hrun
    as [[_ [= _ -> _]]|[[_ [= _ -> _]]
        |[(e & _ & [= _ -> _])|(Hpos & ev2 & r2 & Hlen & Hloop & Hend)]]];
    try constructor.
  cbv zeta in *.
  assert (Hcalls : step_calls ev = step_calls ev2).
  { destruct r2 as [e|[optimizer2 [|m1 ms]]]; injection Hend as _ -> _;
      rewrite ?step_calls_log; reflexivity. }
  rewrite Hcalls.
  pose proof (epoch_loop_spec _ _ _ _ _ _ _ _ Hloop) as (_ & _ & Hall & _).
  eapply Forall_impl; [|exact Hall].
  intros b (perm & Hin & Hb).
  apply (chunk_In _ _ _ _ Hlen) in Hin.
  destruct (take_batch ds perm) as [e|xs] eqn:Htake; cbn [rbind] in Hb; [discriminate|].
  apply take_batch_length in Htake as [Hi Hl].
  pose proof (shard_inv _ _ Hb) as (Hdiv & _ & Himages & Hlabels).
  rewrite Hi, Hin in Hdiv.
  destruct b as [bi bl]. cbn [images labels] in Himages, Hlabels. subst bi bl.
  rewrite Hi, Hl, Hin.
  apply sharded_shape_chunks; congruence.
Qed.

Lemma train_loop_calls ds tds bs (P : ShardedBatch -> Prop) :
  (forall optimizer epoch s s' ev r,
      train_epoch optimizer ds bs epoch s = (s', ev, r) -> Forall P (step_calls ev)) ->
  forall epochs optimizer s s' ev r,
    for_each epochs optimizer (train_body ds tds bs) s = (s', ev, r) ->
    Forall P (step_calls ev).
Proof.
  intros Hepoch. induction epochs as [|epoch epochs IH]; intros optimizer s s' ev r.
  - cbn. intros [= _ <- _]. constructor.
  - rewrite for_each_cons.
    destruct (train_body ds tds bs optimizer epoch s) as [[s1 ev1] r1] eqn:Hbody.
    assert (Hfirst : Forall P (step_calls ev1)).
    { unfold train_body, bind, lift, emit, ret in Hbody.
      destruct (train_epoch optimizer ds bs epoch s) as [[s0 ev0] r0] eqn:Hrun.
      pose proof (Hepoch _ _ _ _ _ _ Hrun) as Hcalls.
      destruct r0 as [e|om]; [injection Hbody as _ <- _; assumption|].
      destruct (device_get_first (map target (fst om))) as [e|model];
        [injection Hbody as _ <- _; rewrite app_nil_r; assumption|].
      destruct (eval_model model tds) as [e|la];
        injection Hbody as _ <- _; rewrite ?step_calls_app, ?app_nil_r; cbn;
        rewrite ?app_nil_r; assumption. }
    destruct r1 as [e|optimizer1]; [intros [= _ <- _]; assumption|].
    destruct (for_each epochs optimizer1 (train_body ds tds bs) s1) as [[s2 ev2] r2] eqn:Hrest.
    intros [= _ <- _]. rewrite step_calls_app. apply Forall_app. split; [assumption|].
    eapply IH. eassumption.
Qed.

Lemma epoch_lines_length (records : list epoch_record) :
  length (flat_map epoch_lines records) = (2 * length records)%nat.
Proof.
  induction records as [|[[epoch m] la] records IH]; [reflexivity|].
  cbn [flat_map epoch_lines length app]. rewrite IH. lia.
Qed.

(** The default batch size is a positive multiple of the device count
    whatever the number of devices is, so under the default flags
    [train_epoch] never raises its [ValueError], and every batch handed to
    [train_step] gives each device 128 examples. *)
Theorem default_batch_size_fits optimizer train_ds epoch s s' ev r :
  train_epoch optimizer train_ds default_batch_size epoch s = (s', ev, r) ->
  0 < default_batch_size
  /\ default_batch_size mod Z.pos device_count = 0
  /\ (forall msg, r <> inl (ValueError msg))
  /\ Forall (sharded_shape 128) (step_calls ev).
Proof.
  intros Hrun.
  assert (Hmod : default_batch_size mod Z.pos device_count = 0)
    by (unfold default_batch_size; apply Z_mod_mult).
  assert (Hper : (Z.to_nat default_batch_size / ndev = 128)%nat).
  { unfold default_batch_size, ndev.
    rewrite Z2Nat.inj_mul, Z2Nat.inj_pos by lia.
    apply Nat.div_mul. lia. }
  split; [unfold default_batch_size; lia|]. split; [assumption|]. split.
  - intros msg ->.
    apply train_epoch_loop in Hrun
      as [[Hgt _]|[[_ [=]]|[(e & Hlib & [= _ _ <-])
          |(_ & ev2 & r2 & _ & Hloop & Hend)]]].
    + lia.
    + eapply library_error_not_ValueError; [exact Hlib|reflexivity].
    + apply epoch_loop_spec in Hloop as (_ & _ & _ & Hr).
      destruct r2 as [e|[optimizer2 [|m1 ms]]]; try discriminate.
      injection Hend as _ _ <-.
      eapply library_error_not_ValueError; [exact Hr|reflexivity].
  - rewrite <- Hper. eapply train_epoch_step_shapes. eassumption.
Qed.

(** Under the default flags, on a platform with any number of devices,
    [main] runs to completion as soon as the training split has at least
    [128 * device_count] examples, both splits have as many labels as
    images and the layers keep the number of examples and give ten logits
    per example: it logs the training line and the evaluation line of the
    epochs 1 to 10, in this order and nothing else, and every step gives
    each device 128 examples. *)
Theorem main_with_default_flags {laws : FrameworkLaws FW} {shapes : ShapeLaws FW}
    (tfds_load : Split -> RawData) (as_tensor : list F -> Tensor) (lr beta : F)
    (s : RandomState) :
  128 * Z.pos device_count <= Z.of_nat (length (raw_image (tfds_load TRAIN))) ->
  length (raw_label (tfds_load TRAIN)) = length (raw_image (tfds_load TRAIN)) ->
  length (raw_label (tfds_load TEST)) = length (raw_image (tfds_load TEST)) ->
  exists s' ev records,
    main tfds_load as_tensor (default_flags lr beta) s = (s', ev, inr tt)
    /\ map (fun r : epoch_record => fst (fst r)) records = [1; 2; 3; 4; 5; 6; 7; 8; 9; 10]
    /\ logged ev = flat_map epoch_lines records
    /\ length (logged ev) = 20%nat
    /\ Forall (from_epoch (load_split tfds_load as_tensor TRAIN)
                          (load_split tfds_load as_tensor TEST) default_batch_size)
              records
    /\ Forall (sharded_shape 128) (step_calls ev).
Proof.
  intros Hsize Hlabel Htest.
  set (train_ds := load_split tfds_load as_tensor TRAIN).
  set (test_ds := load_split tfds_load as_tensor TEST).
  assert (Hmod : default_batch_size mod Z.pos device_count = 0)
    by (unfold default_batch_size; apply Z_mod_mult).
  assert (Hper : (Z.to_nat default_batch_size / ndev = 128)%nat).
  { unfold default_batch_size, ndev.
    rewrite Z2Nat.inj_mul, Z2Nat.inj_pos by lia.
    apply Nat.div_mul. lia. }
  destruct (train_loop_ok train_ds test_ds default_batch_size) with
    (epochs := range 1 (default_num_epochs + 1))
    (optimizer := create_optimizer (create_model (PRNGKey 0)) lr beta)
    (s := RandomState_of_seed 0)
    as (s' & ev & optimizer & records & Hloop & Hepochs & Hlog & Hfrom).
  - unfold default_batch_size. lia.
  - exact Hmod.
  - unfold train_ds, load_split. cbn [image]. rewrite length_map. exact Hsize.
  - unfold train_ds, load_split. cbn [image label]. rewrite length_map. exact Hlabel.
  - unfold test_ds, load_split. cbn [image label]. rewrite length_map. exact Htest.
  - unfold create_optimizer, replicate. apply repeat_length.
  - exists s', ev, records.
    assert (Hcalls : Forall (sharded_shape 128) (step_calls ev)).
    { rewrite <- Hper.
      eapply (train_loop_calls train_ds test_ds default_batch_size); [|exact Hloop].
      intros. eapply train_epoch_step_shapes. eassumption. }
    split; [|split; [exact Hepochs|split; [exact Hlog|split; [|split; assumption]]]].
    + unfold main, get_datasets. fold train_ds test_ds.
      unfold bind at 1. unfold train, default_flags.
      cbn [batch_size num_epochs learning_rate momentum].
      unfold bind at 1. cbn [set_rng]. rewrite Hloop.
      cbn [app ret]. rewrite !app_nil_r. reflexivity.
    + rewrite Hlog, epoch_lines_length,
        <- (length_map (fun r : epoch_record => fst (fst r))), Hepochs.
      reflexivity.
Qed.

(** [eval_model] gives the whole test set to [eval_step] as one batch.
    It returns when the test set has as many labels as images; when the
    two numbers differ and neither is 1, jax refuses to combine the
    one-hot labels with the logits and [eval_model] raises; and whatever
    it raises comes out of jax or numpy, it has no exception of its
    own. *)
Theorem eval_model_whole_test_set {shapes : ShapeLaws FW} model test_ds :
  (length (label test_ds) = length (image test_ds) ->
   exists la, eval_model model test_ds = inr la)
  /\ (length (label test_ds) <> length (image test_ds) ->
      length (label test_ds) <> 1%nat -> length (image test_ds) <> 1%nat ->
      eval_model model test_ds
      = inl (LibraryError "jax: incompatible shapes for broadcasting"))
  /\ (forall e, eval_model model test_ds = inl e -> library_error e).
Proof.
  destruct (model_call_shape model (image test_ds)) as [Hrows Hcols].
  split; [apply eval_model_ok|]. split.
  - intros Hne Hl Hi. unfold eval_model, eval_step, compute_metrics.
    cbn [map sequence]. unfold instance_metrics at 1. cbn [fst snd].
    unfold cross_entropy_loss, mul_elementwise, broadcast2.
    rewrite broadcast_mismatch; [reflexivity|..].
    + unfold onehot. rewrite length_map. lia.
    + unfold onehot. rewrite length_map. lia.
    + lia.
  - intros e. unfold eval_model, eval_step. rewrite compute_metrics_unsharded.
    cbn [map sequence].
    destruct (instance_metrics (model_call model (image test_ds), label test_ds))
      as [e1|la] eqn:Hm; cbn.
    + intros [= <-]. eapply instance_metrics_error. eassumption.
    + discriminate.
Qed.

End DefaultRun.

(** ** Runs of [train] that return *)

Section CompletedRuns.
Context {F : Type} {SF : Scalar F} {PF : Platform} {FW : Framework F}.

(** An epoch of [train] that goes through has drawn one permutation, kept
    the number of replicas and logged its two lines. *)
Lemma train_body_done ds tds bs optimizer epoch s s' ev optimizer' :
  train_body ds tds bs optimizer epoch s = (s', ev, inr optimizer') ->
  s' = snd (permutation s (length (image ds)))
  /\ length optimizer' = length optimizer
  /\ exists m la, logged ev = epoch_lines (epoch, m, la).
Proof.
  unfold train_body, bind, lift, emit, ret.
  destruct (train_epoch optimizer ds bs epoch s) as [[s1 ev1] [e|[optimizer1 m]]] eqn:Hrun;
    [discriminate|].
  cbn [fst snd].
  destruct (device_get_first (map target optimizer1)) as [e|model]; [discriminate|].
  destruct (eval_model model tds) as [e|la]; [discriminate|].
  intros [= <- <- <-].
  apply train_epoch_loop in Hrun
    as [[_ [=]]|[[_ [=]]|[(e & _ & [=])|(_ & ev2 & r2 & _ & Hloop & Hend)]]].
  cbv zeta in *.
  apply epoch_loop_spec in Hloop as (_ & Hlog & _ & Hr).
  destruct r2 as [e|[optimizer2 [|m1 ms]]]; try discriminate.
  injection Hend as -> -> <- ->.
  destruct Hr as (ms' & Hsteps & _).
  split; [reflexivity|]. split; [eapply run_steps_length; eassumption|].
  exists (epoch_metrics (m1 :: ms)), la.
  rewrite ?app_nil_r, !logged_app, Hlog. reflexivity.
Qed.

Lemma train_loop_done ds tds bs : forall epochs optimizer s s' ev optimizer',
  for_each epochs optimizer (train_body ds tds bs) s = (s', ev, inr optimizer') ->
  s' = Nat.iter (length epochs) (fun g => snd (permutation g (length (image ds)))) s
  /\ length optimizer' = length optimizer
  /\ length (logged ev) = (2 * length epochs)%nat.
Proof.
  induction epochs as [|epoch epochs IH]; intros optimizer s s' ev optimizer'.
  - cbn. intros [= <- <- <-]. auto.
  - rewrite for_each_cons.
    destruct (train_body ds tds bs optimizer epoch s) as [[s1 ev1] [e|optimizer1]] eqn:Hbody;
      [discriminate|].
    destruct (for_each epochs optimizer1 (train_body ds tds bs) s1)
      as [[s2 ev2] r2] eqn:Hrest.
    intros [= <- <- ->].
    apply train_body_done in Hbody as (-> & Hlen1 & m & la & Hlog1).
    apply IH in Hrest as (-> & Hlen2 & Hlog2).
    split; [|split].
    + cbn [length]. rewrite Nat.iter_succ_r. reflexivity.
    + lia.
    + rewrite logged_app, length_app, Hlog1, Hlog2. cbn [epoch_lines length]. lia.
Qed.

(** A run of [train] that returns has drawn exactly one permutation per
    epoch from the generator seeded with 0, returns one optimizer replica
    per device, and has logged exactly two lines per epoch. *)
Theorem train_completed_run (FLAGS : Flags F) train_ds test_ds s s' ev optimizer :
  train FLAGS train_ds test_ds s = (s', ev, inr optimizer) ->
  s' = Nat.iter (Z.to_nat (num_epochs FLAGS))
                (fun g => snd (permutation g (length (image train_ds))))
                (RandomState_of_seed 0)
  /\ length optimizer = ndev
  /\ length (logged ev) = (2 * Z.to_nat (num_epochs FLAGS))%nat.
Proof.
  unfold train, bind at 1. cbn [set_rng].
  match goal with |- context [for_each ?xs ?st ?b ?s0] =>
    destruct (for_each xs st b s0) as [[s2 ev2] r2] eqn:Hloop end.
  intros [= <- <- ->].
  apply train_loop_done in Hloop as (-> & Hlen & Hlog).
  unfold range in Hlen, Hlog |- *. rewrite length_map, length_seq in *.
  replace (Z.to_nat (num_epochs FLAGS + 1 - 1)) with (Z.to_nat (num_epochs FLAGS)) in * by lia.
  split; [reflexivity|]. split; [|exact Hlog].
  rewrite Hlen. unfold create_optimizer, replicate. apply repeat_length.
Qed.

End CompletedRuns.

(** ** Binary32: pixels and labels outside the classes *)

Section Float32Data.
Import Float32 Float32Rows.

Lemma uint8_cases (P : Z -> bool) :
  forallb (fun i => P (Z.of_nat i)) (seq 0 256) = true ->
  forall p, 0 <= p <= 255 -> P p = true.
Proof.
  intros Hall p Hp. rewrite forallb_forall in Hall.
  rewrite <- (Z2Nat.id p) by lia. apply Hall, in_seq. lia.
Qed.

Lemma nth_map_seq {A : Type} (f : nat -> A) (n i : nat) (d : A) :
  (i < n)%nat -> nth i (map f (seq 0 n)) d = f i.
Proof.
  intros Hi. rewrite (nth_indep _ d (f 0%nat)) by (rewrite length_map, length_seq; lia).
  rewrite map_nth, seq_nth by assumption. reflexivity.
Qed.

(** [load_split] brings the [uint8] pixels into the unit interval: in
    binary32, [onp.float32(p) / 255.] is a finite number between 0 and 1,
    it is 0 for the pixel 0 and 1 for the pixel 255, and a larger pixel
    gives a strictly larger number, so the 256 grey levels stay apart. *)
Theorem normalize_unit_interval (pixels : list Z) :
  Forall (fun p => 0 <= p <= 255) pixels ->
  length (normalize pixels) = length pixels
  /\ Forall (fun x : float32 =>
               finite x = true /\ SFleb pos_zero x = true /\ SFleb x (of_Z 1) = true)
            (normalize pixels)
  /\ (normalize [0; 255] : list float32) = [pos_zero; of_Z 1]
  /\ forall p q : Z,
       0 <= p -> p < q -> q <= 255 ->
       exists x y : float32,
         normalize [p; q] = [x; y] /\ SFltb x y = true.
Proof.
  intros Hall. split; [apply length_map|]. split; [|split; [vm_compute; reflexivity|]].
  - unfold normalize. apply Forall_map. eapply Forall_impl; [|exact Hall].
    intros p Hp. cbv beta in Hp.
    pose (check := fun p : Z =>
            let x : float32 := fdiv (of_count (Z.to_nat p)) (of_count 255) in
            finite x && SFleb pos_zero x && SFleb x (of_Z 1)).
    assert (Hcheck : check p = true)
      by (apply (uint8_cases check); [vm_compute; reflexivity|assumption]).
    unfold check in Hcheck. cbv zeta in Hcheck.
    apply andb_true_iff in Hcheck as [Hcheck Hle].
    apply andb_true_iff in Hcheck as [Hfin Hge]. auto.
  - intros p q Hp Hpq Hq. do 2 eexists. split; [reflexivity|].
    assert (Hpairs :
      (let table : list float32 :=
         map (fun i => fdiv (of_count i) (of_count 255)) (seq 0 256) in
       forallb (fun i =>
                  forallb (fun j => negb (i <? j)%nat
                                    || SFltb (nth i table nan) (nth j table nan))
                          (seq 0 256))
               (seq 0 256)) = true) by (vm_compute; reflexivity).
    cbv zeta in Hpairs. rewrite forallb_forall in Hpairs.
    specialize (Hpairs (Z.to_nat p) ltac:(apply in_seq; lia)).
    rewrite forallb_forall in Hpairs.
    specialize (Hpairs (Z.to_nat q) ltac:(apply in_seq; lia)).
    rewrite !nth_map_seq in Hpairs by lia.
    destruct (Nat.ltb_spec (Z.to_nat p) (Z.to_nat q)); [exact Hpairs|lia].
Qed.

Lemma masked_off l : forall row n k acc,
  l < Z.of_nat k \/ Z.of_nat k + Z.of_nat (length row) <= l ->
  Forall (fun x => finite x = true) row ->
  same (fold_left fadd (masked l k n row) acc) acc.
Proof.
  induction row as [|x row IH]; intros n k acc Hl Hrow.
  - unfold masked. rewrite combine_nil. apply same_refl.
  - destruct n as [|n]; [apply same_refl|].
    rewrite masked_cons. cbn [fold_left].
    inversion Hrow as [|? ? Hx Hrest]; subst.
    replace (l =? Z.of_nat k) with false
      by (symmetry; apply Z.eqb_neq; cbn [length] in Hl; lia).
    eapply same_trans; [apply IH; [cbn [length] in Hl; lia|assumption]|].
    apply add_zero_r, mul_zero_finite, Hx.
Qed.

(** A label that is outside 0..9 as a 32-bit integer is not refused by
    [cross_entropy_loss]: on finite logits its row adds a zero to the sum
    of the loss, so the example is ignored. *)
Theorem cross_entropy_loss_ignores_outside_labels
    (logits : list (list float32)) (labels : list Z) :
  Forall finite_row logits ->
  Forall (fun l => int32 l < 0 \/ 10 <= int32 l) labels ->
  length labels = length logits ->
  exists products,
    mul_elementwise (onehot labels 10) logits = inr products
    /\ length products = length logits
    /\ Forall (fun term => is_zero term = true) (map jnp_sum products).
Proof.
  intros Hrows Hlab Hlen. eexists. split.
  - apply mul_onehot_rows; [|assumption].
    eapply Forall_impl; [|exact Hrows]. intros row [Hl10 _]. exact Hl10.
  - split; [rewrite length_map, length_combine; lia|].
    revert labels Hlab Hlen.
    induction logits as [|row logits IH]; intros [|l labels] Hlab Hlen;
      try discriminate; [constructor|].
    inversion Hrows as [|? ? [Hl10 Hfin] Hrows']; subst.
    inversion Hlab as [|? ? Hl Hlab']; subst.
    cbn [combine map fst snd]. constructor.
    + assert (Hsame : same (fold_left fadd (masked (int32 l) 0 10 row) fzero) fzero).
      { apply masked_off; [rewrite Hl10; cbn; lia|assumption]. }
      change (is_zero (fold_left fadd (masked (int32 l) 0 10 row) fzero) = true).
      destruct Hsame as [->|[Hz _]]; [reflexivity|exact Hz].
    + apply IH; auto.
Qed.

End Float32Data.


(** ** The properties at concrete inputs *)

Section ToyEdgeRuns.
Import Float32 Float32Rows.

Lemma train_epoch_zero_batch_size_witness :
  1 <= 1
  /\ train (Toy.flags 0 1) Toy.dataset Toy.dataset 5%nat
     = (0%nat, [], inl ZeroDivisionError).
Proof.
  assert (Hn : 1 <= 1) by lia.
  split; [exact Hn|].
  exact (proj2 (train_epoch_zero_batch_size Toy.replicas Toy.dataset 1 5%nat)
               (fdiv (of_Z 1) (of_Z 8)) (fdiv (of_Z 1) (of_Z 2)) 1 Toy.dataset Hn).
Defined.

Lemma train_epoch_batch_exceeds_data_witness :
  6 mod Z.pos device_count = 0
  /\ Z.of_nat (length (image Toy.dataset)) < 6
  /\ train_epoch Toy.replicas Toy.dataset 6 1 0%nat = (1%nat, [], inl IndexError).
Proof.
  assert (Hmod : 6 mod Z.pos device_count = 0) by reflexivity.
  assert (Hsize : Z.of_nat (length (image Toy.dataset)) < 6) by reflexivity.
  split; [exact Hmod|]. split; [exact Hsize|].
  exact (train_epoch_batch_exceeds_data Toy.replicas Toy.dataset 6 1 0%nat Hmod Hsize).
Defined.

Lemma train_epoch_negative_batch_size_witness :
  -2 < 0 /\ -2 mod Z.pos device_count = 0
  /\ exists e,
       library_error e
       /\ train_epoch Toy.replicas Toy.dataset (-2) 1 0%nat = (1%nat, [], inl e).
Proof.
  assert (Hneg : -2 < 0) by reflexivity.
  assert (Hmod : -2 mod Z.pos device_count = 0) by reflexivity.
  split; [exact Hneg|]. split; [exact Hmod|].
  exact (train_epoch_negative_batch_size Toy.replicas Toy.dataset (-2) 1 0%nat Hneg Hmod).
Defined.

Lemma train_without_epochs_witness :
  num_epochs (Toy.flags 3 0) <= 0
  /\ train (Toy.flags 3 0) Toy.dataset Toy.dataset 5%nat = (0%nat, [], inr Toy.replicas).
Proof.
  assert (Hn : num_epochs (Toy.flags 3 0) <= 0) by (vm_compute; discriminate).
  split; [exact Hn|].
  exact (train_without_epochs (Toy.flags 3 0) Toy.dataset Toy.dataset 5%nat Hn).
Defined.

Lemma onehot_in_range_witness :
  Forall (fun l => 0 <= int32 l < Z.of_nat 3) [2; 0; 2 ^ 32 + 1]
  /\ (onehot [2; 0; 2 ^ 32 + 1] 3 : list (list float32))
     = [[pos_zero; pos_zero; of_Z 1]; [of_Z 1; pos_zero; pos_zero];
        [pos_zero; of_Z 1; pos_zero]].
Proof.
  assert (Hall : Forall (fun l => 0 <= int32 l < Z.of_nat 3) [2; 0; 2 ^ 32 + 1])
    by (repeat constructor; vm_compute; discriminate).
  split; [exact Hall|].
  exact (onehot_in_range (F := float32) [2; 0; 2 ^ 32 + 1] 3 Hall).
Defined.

Lemma onehot_out_of_range_witness :
  Forall (fun l => int32 l < 0 \/ Z.of_nat 3 <= int32 l) [3; -1; 2 ^ 31]
  /\ (onehot [3; -1; 2 ^ 31] 3 : list (list float32))
     = [[pos_zero; pos_zero; pos_zero]; [pos_zero; pos_zero; pos_zero];
        [pos_zero; pos_zero; pos_zero]].
Proof.
  assert (Hall : Forall (fun l => int32 l < 0 \/ Z.of_nat 3 <= int32 l) [3; -1; 2 ^ 31]).
  { apply Forall_cons; [right; vm_compute; discriminate|].
    apply Forall_cons; [left; reflexivity|].
    apply Forall_cons; [left; reflexivity|]. apply Forall_nil. }
  split; [exact Hall|].
  exact (proj1 (onehot_out_of_range (F := float32) [3; -1; 2 ^ 31] 3) Hall).
Defined.

Lemma shard_succeeds_iff_witness :
  (length (image ToyData.uneven) mod ndev = 0)%nat
  /\ (length (label ToyData.uneven) mod ndev <> 0)%nat
  /\ forall b, shard ToyData.uneven <> inr b.
Proof.
  assert (Himage : (length (image ToyData.uneven) mod ndev = 0)%nat) by reflexivity.
  assert (Hlabel : (length (label ToyData.uneven) mod ndev <> 0)%nat)
    by (vm_compute; discriminate).
  split; [exact Himage|]. split; [exact Hlabel|].
  intros b Hb. apply Hlabel.
  exact (proj2 (proj1 (proj1 (shard_succeeds_iff ToyData.uneven))
                      (ex_intro _ b Hb))).
Defined.

Lemma train_step_shapes_witness :
  exists optimizer' m,
    train_step Toy.replicas Toy.sharded = inr (optimizer', m)
    /\ length optimizer' = 2%nat
    /\ exists l a : float32, m = mkMetrics [l; l] [a; a].
Proof.
  destruct (@train_step float32 scalar Toy.two_devices Toy.framework
              Toy.replicas Toy.sharded) as [e|[optimizer' m]] eqn:Hstep;
    [vm_compute in Hstep; discriminate|].
  exists optimizer', m. split; [reflexivity|].
  exact (@train_step_shapes float32 scalar Toy.two_devices Toy.framework
           Toy.replicas Toy.sharded optimizer' m Hstep).
Defined.

Lemma train_epoch_batches_witness :
  exists s' ev optimizer' m,
    train_epoch Toy.replicas Toy.dataset 2 1 1%nat = (s', ev, inr (optimizer', m))
    /\ exists perms : list (list nat),
         concat perms = [1; 2; 3; 0]%nat
         /\ Forall2 (fun perm b =>
                       map Some (concat (images b)) = map (nth_error (image Toy.dataset)) perm
                       /\ map Some (concat (labels b))
                          = map (nth_error (label Toy.dataset)) perm)
                    perms (step_calls ev).
Proof.
  do 4 eexists. split; [evaluate|].
  match goal with |- context [step_calls ?e] => set (ev := e) end.
  destruct (@train_epoch_batches float32 scalar Toy.two_devices Toy.framework toy_laws
              Toy.replicas Toy.dataset 2 1 1%nat _ ev _ _ ltac:(evaluate))
    as (perms & _ & _ & Hlen & _ & Hconcat & _ & Hcalls & _).
  exists perms. split; [|exact Hcalls].
  rewrite Hconcat, Hlen. reflexivity.
Defined.

Lemma train_epoch_failure_witness :
  train_epoch Toy.replicas Toy.dataset 3 1 0%nat
  = (0%nat, [], inl (ValueError divisibility_message))
  /\ logged (@nil (@event float32 Toy.framework)) = [].
Proof.
  assert (Hrun : train_epoch Toy.replicas Toy.dataset 3 1 0%nat
                 = (0%nat, [], inl (ValueError divisibility_message))) by reflexivity.
  split; [exact Hrun|].
  exact (proj1 (@train_epoch_failure float32 scalar Toy.two_devices Toy.framework
                  Toy.replicas Toy.dataset 3 1 0%nat _ _ _ Hrun)).
Defined.

Lemma train_completed_run_witness :
  exists s' ev optimizer,
    train (Toy.flags 2 2) Toy.dataset Toy.dataset 7%nat = (s', ev, inr optimizer)
    /\ s' = 2%nat /\ length optimizer = 2%nat /\ length (logged ev) = 4%nat.
Proof.
  do 3 eexists. split; [evaluate|].
  match goal with |- context [logged ?e] => set (ev := e) end.
  exact (@train_completed_run float32 scalar Toy.two_devices Toy.framework
           (Toy.flags 2 2) Toy.dataset Toy.dataset 7%nat _ ev _ ltac:(evaluate)).
Defined.

Lemma default_batch_size_fits_witness :
  train_epoch Toy.replicas Toy.dataset default_batch_size 1 0%nat
  = (1%nat, [], inl IndexError)
  /\ 0 < default_batch_size
  /\ default_batch_size mod Z.pos device_count = 0.
Proof.
  assert (Hrun : train_epoch Toy.replicas Toy.dataset default_batch_size 1 0%nat
                 = (1%nat, [], inl IndexError)) by reflexivity.
  split; [exact Hrun|].
  destruct (@default_batch_size_fits float32 scalar Toy.two_devices Toy.framework
              Toy.replicas Toy.dataset 1 0%nat _ _ _ Hrun)
    as (Hpos & Hmod & _).
  split; assumption.
Defined.

Lemma main_with_default_flags_witness :
  128 * Z.pos device_count <= Z.of_nat (length (raw_image (ToyData.tfds_load TRAIN)))
  /\ length (raw_label (ToyData.tfds_load TRAIN))
     = length (raw_image (ToyData.tfds_load TRAIN))
  /\ length (raw_label (ToyData.tfds_load TEST))
     = length (raw_image (ToyData.tfds_load TEST))
  /\ exists s' ev,
       main ToyData.tfds_load ToyData.as_tensor
            (default_flags (fdiv (of_Z 1) (of_Z 8)) (fdiv (of_Z 1) (of_Z 2))) 0%nat
       = (s', ev, inr tt)
       /\ length (logged ev) = 20%nat.
Proof.
  assert (Hsize : 128 * Z.pos device_count
                  <= Z.of_nat (length (raw_image (ToyData.tfds_load TRAIN))))
    by (vm_compute; discriminate).
  assert (Hlabel : length (raw_label (ToyData.tfds_load TRAIN))
                   = length (raw_image (ToyData.tfds_load TRAIN))) by reflexivity.
  assert (Htest : length (raw_label (ToyData.tfds_load TEST))
                  = length (raw_image (ToyData.tfds_load TEST))) by reflexivity.
  split; [exact Hsize|]. split; [exact Hlabel|]. split; [exact Htest|].
  destruct (main_with_default_flags (laws := toy_laws) (shapes := toy_shapes)
              ToyData.tfds_load ToyData.as_tensor
              (fdiv (of_Z 1) (of_Z 8)) (fdiv (of_Z 1) (of_Z 2)) 0%nat Hsize Hlabel Htest)
    as (s' & ev & records & Hrun & _ & _ & Hlen & _).
  exists s', ev. split; assumption.
Defined.

Lemma normalize_unit_interval_witness :
  Forall (fun p => 0 <= p <= 255) [0; 51; 255]
  /\ Forall (fun x : float32 =>
               finite x = true /\ SFleb pos_zero x = true /\ SFleb x (of_Z 1) = true)
            (normalize [0; 51; 255]).
Proof.
  assert (Hall : Forall (fun p => 0 <= p <= 255) [0; 51; 255])
    by (repeat constructor; lia).
  split; [exact Hall|].
  exact (proj1 (proj2 (normalize_unit_interval [0; 51; 255] Hall))).
Defined.

Lemma cross_entropy_loss_ignores_outside_labels_witness :
  Forall finite_row [Toy.picture 3 4; Toy.picture 5 6]
  /\ Forall (fun l => int32 l < 0 \/ 10 <= int32 l) [10; -1]
  /\ length [10; -1] = length [Toy.picture 3 4; Toy.picture 5 6]
  /\ exists products,
       mul_elementwise (onehot [10; -1] 10) [Toy.picture 3 4; Toy.picture 5 6]
       = inr products
       /\ Forall (fun term => is_zero term = true) (map jnp_sum products).
Proof.
  assert (Hrows : Forall finite_row [Toy.picture 3 4; Toy.picture 5 6])
    by (repeat constructor).
  assert (Hlab : Forall (fun l => int32 l < 0 \/ 10 <= int32 l) [10; -1]).
  { apply Forall_cons; [right; vm_compute; discriminate|].
    apply Forall_cons; [left; reflexivity|]. apply Forall_nil. }
  split; [exact Hrows|]. split; [exact Hlab|]. split; [reflexivity|].
  destruct (cross_entropy_loss_ignores_outside_labels
              [Toy.picture 3 4; Toy.picture 5 6] [10; -1] Hrows Hlab eq_refl)
    as (products & Hmul & _ & Hzero).
  exists products. split; assumption.
Defined.

Lemma eval_model_whole_test_set_witness :
  length (label ToyData.uneven) <> length (image ToyData.uneven)
  /\ length (label ToyData.uneven) <> 1%nat
  /\ length (image ToyData.uneven) <> 1%nat
  /\ eval_model (of_Z 1) ToyData.uneven
     = inl (LibraryError "jax: incompatible shapes for broadcasting")
  /\ length (label Toy.dataset) = length (image Toy.dataset)
  /\ exists la, eval_model (of_Z 1) Toy.dataset = inr la.
Proof.
  assert (Hne : length (label ToyData.uneven) <> length (image ToyData.uneven))
    by (vm_compute; discriminate).
  assert (Hl : length (label ToyData.uneven) <> 1%nat) by (vm_compute; discriminate).
  assert (Hi : length (image ToyData.uneven) <> 1%nat) by (vm_compute; discriminate).
  assert (Heq : length (label Toy.dataset) = length (image Toy.dataset)) by reflexivity.
  split; [exact Hne|]. split; [exact Hl|]. split; [exact Hi|]. split.
  - exact (proj1 (proj2 (@eval_model_whole_test_set float32 scalar Toy.two_devices
                           Toy.framework toy_shapes (of_Z 1) ToyData.uneven)) Hne Hl Hi).
  - split; [exact Heq|].
    exact (proj1 (@eval_model_whole_test_set float32 scalar Toy.two_devices
                    Toy.framework toy_shapes (of_Z 1) Toy.dataset) Heq).
Defined.

End ToyEdgeRuns.
